(** * The adaptive polling engine ([Poll]) of the setting editor sources

    A shallow embedding of the TypeScript class [Poll<T, U>] and of the helper
    [Private.jitter], together with the part of the host (promises, timers,
    animation frames, the job queue) that the class talks to.

    Modelling choices.
    - A JavaScript [number] is a rational ([Q]); every operation the class
      performs on the values it stores ([*], [Math.min], [Math.max],
      [Math.abs], [Math.round]) is exact on them.  [NaN] and the infinities
      are not represented; an absent option ([undefined]) is [None].  The
      products of the random branch of [jitter] are exact too, where
      binary64 would round them: of that branch only the range and the
      integrality of the result are stated below, not its distance from the
      base.
    - A [PromiseDelegate] is a natural number naming a cell of the host's
      promise table; [poll !== this._tick] compares these names.
    - [Math.random()], [new Date().getTime()] and [document.hidden] are
      supplied by the event that triggers the code reading them.
    - The asynchronous callbacks of the class (the [when] reactions, the
      timer/frame request, the factory reactions, the [ticked] reaction)
      run when the corresponding event is fed to [Poll.step].
    - The signals [ticked] and [disposed] are seen through the calls of
      their [emit], recorded with the installed states and the factory
      calls in the trace of the host; subscribers (and [Signal.clearData])
      are not represented.
    - Timeouts and animation frame requests draw their handles from one
      counter; [clearTimeout] releases timeouts only. *)

From Stdlib Require Import ZArith QArith Qround Qabs Qminmax Lqa Lia.
From stdpp Require Import base option list gmap strings.

Local Open Scope Q_scope.

(** ** Numbers *)

Definition Math_round (x : Q) : Q := inject_Z (Qfloor (x + (1 # 2))).
Definition Math_abs (x : Q) : Q := Qabs x.
Definition Math_min (x y : Q) : Q := Qmin x y.
Definition Math_max (x y : Q) : Q := Qmax x y.

(** [x > y] on possibly absent numbers: a comparison with [undefined]
    is [false]. *)
Definition js_gt (x y : option Q) : bool :=
  match x, y with
  | Some a, Some b => negb (Qle_bool a b)
  | _, _ => false
  end.

(** Truthiness of a number: [0] is falsy. *)
Definition truthy (x : Q) : bool := negb (Qeq_bool x 0).

(** A value or a thrown error. *)
Inductive Result (A : Type) : Type :=
| Ok (a : A)
| Throw (message : string).
Arguments Ok {A} a.
Arguments Throw {A} message.

(** ** [namespace Private] *)

Module Private.

(** [rnd] holds the two [Math.random()] draws, in the order they are made. *)
Definition jitter (rnd : Q * Q) (base factor min max : Q) : Q :=
  if Qeq_bool factor 0 then Math_round base
  else
    let direction := if negb (Qle_bool (1 # 2) (fst rnd)) then 1 else - (1) in
    let jitter := snd rnd * base * Math_abs factor * direction in
    let candidate := Math_abs (Math_round (base + jitter)) in
    Math_min (Math_max min candidate) max.

End Private.

(** ** Host objects *)

(** A promise; a pending one counts the [ticked] reactions attached to it. *)
Inductive PromiseState : Type :=
| Pending (reactions : nat)
| Fulfilled
| Rejected (reason : string).

Inductive TimerKind : Type := Timeout | AnimationFrame.

Module Timer.
Record t : Type := mk {
  handle : nat;
  kind : TimerKind;
  delay : Q;
  (** the [poll] captured by the [request] closure *)
  request : nat
}.
End Timer.

(** [clearTimeout(h)] removes the timeout with that handle; it does not
    cancel an animation frame request. *)
Definition clearTimeout (h : nat) (armed : list Timer.t) : list Timer.t :=
  List.filter
    (fun t => match Timer.kind t with
              | Timeout => negb (Nat.eqb (Timer.handle t) h)
              | AnimationFrame => true
              end) armed.

(** ** [namespace Poll]: [Phase], [State], [IOptions] *)

Module Phase.
Inductive t : Type :=
| reconnect | refresh | rejected | resolved | standby
| when_rejected | when_resolved.

Definition eqb (a b : t) : bool :=
  match a, b with
  | reconnect, reconnect | refresh, refresh | rejected, rejected
  | resolved, resolved | standby, standby
  | when_rejected, when_rejected | when_resolved, when_resolved => true
  | _, _ => false
  end.
End Phase.

Module State.
Record t (T U : Type) : Type := mk {
  interval : Q;
  payload : option (T + U);
  phase : Phase.t;
  tick : Z
}.
Arguments mk {T U} _ _ _ _.
Arguments interval {T U} _.
Arguments payload {T U} _.
Arguments phase {T U} _.
Arguments tick {T U} _.
End State.

Module IOptions.
(** [factory] is the environment of the model; [when] records whether a
    gate promise was supplied. *)
Record t : Type := mk {
  interval : option Q;
  max : option Q;
  min : option Q;
  name : option string;
  variance : option Q;
  when : bool
}.
End IOptions.

(** ** [class Poll] *)

Module Poll.

Section WithPayload.
Context {T U : Type}.

(** The fields of a [Poll] object. *)
Record t : Type := mk {
  interval : Q;
  max : Q;
  min : Q;
  name : string;
  variance : Q;
  _isDisposed : bool;
  _state : State.t T U;
  _tick : option nat;
  _timeout : nat
}.

(** What the object does that can be seen from outside, newest first. *)
Inductive Obs : Type :=
| Installed (state : State.t T U)           (* [_schedule] replaced [_state] *)
| Invoked (poll : nat) (state : State.t T U) (* [_factory(this._state)] *)
| Ticked                                    (* [_ticked.emit()] *)
| Disposed                                  (* [_disposed.emit()] *)
| Warned (message : string).                (* [console.warn] *)

Record Host : Type := mkHost {
  promises : gmap nat PromiseState;
  next_promise : nat;
  timers : list Timer.t;
  next_handle : nat;
  (** queued [() => this._ticked.emit()] jobs *)
  jobs : nat;
  (** the gate: still pending? was one supplied? *)
  when_pending : bool;
  when_given : bool;
  (** factory promises not yet settled, by the [poll] of their reactions *)
  inflight : list nat;
  trace : list Obs
}.

Record World : Type := mkWorld { this : t; host : Host }.

(** *** Promise primitives *)

Definition set_promises (f : gmap nat PromiseState -> gmap nat PromiseState)
    (extra : nat) (w : World) : World :=
  let h := host w in
  {| this := this w;
     host := {| promises := f (promises h); next_promise := next_promise h;
                timers := timers h; next_handle := next_handle h;
                jobs := (jobs h + extra)%nat;
                when_pending := when_pending h; when_given := when_given h;
                inflight := inflight h; trace := trace h |} |}.

(** [poll.promise.then(() => { this._ticked.emit(); })] *)
Definition promise_then (poll : nat) (w : World) : World :=
  match promises (host w) !! poll with
  | Some (Pending n) => set_promises (<[poll := Pending (S n)]>) 0 w
  | Some Fulfilled => set_promises id 1 w
  | _ => w
  end.

(** [poll.resolve(this)] *)
Definition promise_resolve (poll : nat) (w : World) : World :=
  match promises (host w) !! poll with
  | Some (Pending n) => set_promises (<[poll := Fulfilled]>) n w
  | _ => w
  end.

(** [poll.reject(new Error(message))] *)
Definition promise_reject (poll : nat) (message : string) (w : World) : World :=
  match promises (host w) !! poll with
  | Some (Pending _) => set_promises (<[poll := Rejected message]>) 0 w
  | _ => w
  end.

(** [delegate.promise] on a reference that may be [null]. *)
Definition promise_of (delegate : option nat) : Result nat :=
  match delegate with
  | Some p => Ok p
  | None => Throw "TypeError: Cannot read property 'promise' of null"
  end.

Definition observe (o : Obs) (w : World) : World :=
  let h := host w in
  {| this := this w;
     host := {| promises := promises h; next_promise := next_promise h;
                timers := timers h; next_handle := next_handle h;
                jobs := jobs h;
                when_pending := when_pending h; when_given := when_given h;
                inflight := inflight h; trace := o :: trace h |} |}.

(** *** Methods *)

(** [_schedule(state)]: replace the state and the outstanding tick, release
    the previous timeout and arm a timeout or a frame request. *)
Definition _schedule (state : State.t T U) (w : World) : World :=
  let p := this w in
  let h := host w in
  let poll := next_promise h in
  let armed := clearTimeout (_timeout p) (timers h) in
  let k := if truthy (State.interval state) then Timeout else AnimationFrame in
  {| this := {| interval := interval p; max := max p; min := min p;
                name := name p; variance := variance p;
                _isDisposed := _isDisposed p;
                _state := state;
                _tick := Some poll;
                _timeout := next_handle h |};
     host := {| promises := <[poll := Pending 0]> (promises h);
                next_promise := S poll;
                timers := armed ++ [Timer.mk (next_handle h) k
                                      (State.interval state) poll];
                next_handle := S (next_handle h);
                jobs := jobs h;
                when_pending := when_pending h; when_given := when_given h;
                inflight := inflight h;
                trace := Installed state :: trace h |} |}.

(** [_resolve(poll, state)] *)
Definition _resolve (poll : option nat) (state : State.t T U) (w : World)
    : World * option nat :=
  let w1 := _schedule state w in
  let w2 := match poll with
            | Some p => promise_resolve p (promise_then p w1)
            | None => w1
            end in
  (w2, _tick (this w2)).

(** [poll !== this._tick] is [negb (same_delegate poll (_tick this))]. *)
Definition same_delegate (poll : nat) (tick : option nat) : bool :=
  match tick with
  | Some p => Nat.eqb poll p
  | None => false
  end.

Definition default_name (n : option string) : string :=
  match n with
  | Some s => if String.eqb s "" then "unknown" else s
  | None => "unknown"
  end.

(** [new Poll(options)]; the reactions on [when] are [on_when]. *)
Definition constructor (options : IOptions.t) (now : Z) : Result World :=
  if js_gt (IOptions.interval options) (IOptions.max options) then
    Throw "Poll interval cannot exceed max interval length"
  else if js_gt (IOptions.min options) (IOptions.max options)
          || js_gt (IOptions.min options) (IOptions.interval options) then
    Throw "Poll min cannot exceed poll interval or poll max"
  else
    let interval := match IOptions.interval options with
                    | Some i => Math_round (Math_abs i)
                    | None => 1000
                    end in
    let max := match IOptions.max options with
               | Some m => Math_abs m
               | None => 10 * interval
               end in
    let min := match IOptions.min options with
               | Some m => Math_abs m
               | None => 100
               end in
    let variance := match IOptions.variance options with
                    | Some v => v
                    | None => 2 # 10
                    end in
    Ok {| this := {| interval := interval; max := max; min := min;
                     name := default_name (IOptions.name options);
                     variance := variance;
                     _isDisposed := false;
                     _state := State.mk interval None Phase.standby now;
                     _tick := Some 0%nat;
                     _timeout := 0 |};
          host := {| promises := {[ 0%nat := Pending 0 ]};
                     next_promise := 1;
                     timers := [];
                     next_handle := 1;
                     jobs := 0;
                     when_pending := true;
                     when_given := IOptions.when options;
                     inflight := [];
                     trace := [] |} |}.

Definition close_gate (w : World) : World :=
  let h := host w in
  {| this := this w;
     host := {| promises := promises h; next_promise := next_promise h;
                timers := timers h; next_handle := next_handle h;
                jobs := jobs h;
                when_pending := false; when_given := when_given h;
                inflight := inflight h; trace := trace h |} |}.

(** The [.then] ([ok = true]) and [.catch] reactions attached to [when] by
    the constructor; [poll] is the first tick, created there. *)
Definition on_when (ok : bool) (now : Z) (w : World) : World :=
  if _isDisposed (this w) then w
  else if ok then
    fst (_resolve (Some 0%nat)
           (State.mk (interval (this w)) None Phase.when_resolved now) w)
  else
    let w1 := fst (_resolve (Some 0%nat)
                     (State.mk (interval (this w)) None Phase.when_rejected now)
                     w) in
    observe (Warned ("Poll (" ++ name (this w1)
                       ++ ") starting despite rejection.")) w1.

(** [get tick()] *)
Definition tick (w : World) : Result nat := promise_of (_tick (this w)).

(** [get state()], [get isDisposed()] *)
Definition state (w : World) : State.t T U := _state (this w).
Definition isDisposed (w : World) : bool := _isDisposed (this w).

(** [dispose()] *)
Definition dispose (w : World) : World :=
  let p := this w in
  if _isDisposed p then w
  else
    let disposed (tk : option nat) :=
      {| interval := interval p; max := max p; min := min p;
         name := name p; variance := variance p;
         _isDisposed := true;
         _state := _state p;
         _tick := tk;
         _timeout := _timeout p |} in
    let w1 :=
      match _tick p with
      | Some poll =>
          promise_reject poll ("Poll (" ++ name p ++ ") is disposed.")
            {| this := disposed None; host := host w |}
      | None => {| this := disposed None; host := host w |}
      end in
    observe Disposed w1.

(** [refresh()] *)
Definition refresh (now : Z) (w : World) : World * Result nat :=
  let r := _resolve (_tick (this w))
             (State.mk 0 None Phase.refresh now) w in
  (fst r, promise_of (snd r)).

(** The call [this._factory(this._state)] and the attachment of its two
    reactions, which run at [on_fulfilled] / [on_rejected]. *)
Definition invoke_factory (poll : nat) (w : World) : World :=
  let h := host w in
  {| this := this w;
     host := {| promises := promises h; next_promise := next_promise h;
                timers := timers h; next_handle := next_handle h;
                jobs := jobs h;
                when_pending := when_pending h; when_given := when_given h;
                inflight := poll :: inflight h;
                trace := Invoked poll (_state (this w)) :: trace h |} |}.

(** [_execute(poll)]; [hidden] is
    [typeof document !== 'undefined' && document.hidden]. *)
Definition _execute (poll : nat) (hidden : bool) (now : Z) (rnd : Q * Q)
    (w : World) : World :=
  let p := this w in
  if _isDisposed p then w
  else if hidden then
    fst (_resolve (Some poll)
           (State.mk
              (Private.jitter rnd (interval p) (variance p) (min p) (max p))
              None Phase.standby now) w)
  else invoke_factory poll w.

(** The [.then] reaction of the factory promise. *)
Definition on_fulfilled (poll : nat) (resolved : T) (now : Z) (rnd : Q * Q)
    (w : World) : World :=
  let p := this w in
  if _isDisposed p then w
  else if negb (same_delegate poll (_tick p)) then w
  else
    fst (_resolve (Some poll)
           (State.mk
              (Private.jitter rnd (interval p) (variance p) (min p) (max p))
              (Some (inl resolved))
              (if Phase.eqb (State.phase (_state p)) Phase.rejected
               then Phase.reconnect else Phase.resolved)
              now) w).

(** The [.catch] reaction of the factory promise. *)
Definition on_rejected (poll : nat) (rejected : U) (now : Z) (rnd : Q * Q)
    (w : World) : World :=
  let p := this w in
  if _isDisposed p then w
  else if negb (same_delegate poll (_tick p)) then w
  else
    let increased := Math_min (State.interval (_state p) * 2) (max p) in
    fst (_resolve (Some poll)
           (State.mk
              (Private.jitter rnd increased (variance p) (min p) (max p))
              (Some (inr rejected))
              Phase.rejected
              now) w).

(** *** The event loop *)

(** What can happen to a poll: a host callback or a call of its API. *)
Inductive Event : Type :=
| WhenSettled (ok : bool) (now : Z)
| TimerFired (handle : nat) (hidden : bool) (now : Z) (rnd : Q * Q)
| FactorySettled (poll : nat) (outcome : T + U) (now : Z) (rnd : Q * Q)
| RefreshCalled (now : Z)
| DisposeCalled
| JobRun.

Definition find_timer (h : nat) (armed : list Timer.t) : option Timer.t :=
  List.find (fun t => Nat.eqb (Timer.handle t) h) armed.

(** A timer or frame request that fires is no longer armed. *)
Definition disarm (h : nat) (w : World) : World :=
  let hs := host w in
  {| this := this w;
     host := {| promises := promises hs; next_promise := next_promise hs;
                timers := List.filter
                            (fun t => negb (Nat.eqb (Timer.handle t) h))
                            (timers hs);
                next_handle := next_handle hs;
                jobs := jobs hs;
                when_pending := when_pending hs; when_given := when_given hs;
                inflight := inflight hs; trace := trace hs |} |}.

(** A factory promise that settles is no longer in flight. *)
Definition land (poll : nat) (w : World) : World :=
  let hs := host w in
  {| this := this w;
     host := {| promises := promises hs; next_promise := next_promise hs;
                timers := timers hs; next_handle := next_handle hs;
                jobs := jobs hs;
                when_pending := when_pending hs; when_given := when_given hs;
                inflight := List.filter (fun p => negb (Nat.eqb p poll))
                              (inflight hs);
                trace := trace hs |} |}.

(** The queued reaction [() => { this._ticked.emit(); }]. *)
Definition run_job (w : World) : World :=
  let hs := host w in
  match jobs hs with
  | O => w
  | S n =>
      {| this := this w;
         host := {| promises := promises hs; next_promise := next_promise hs;
                    timers := timers hs; next_handle := next_handle hs;
                    jobs := n;
                    when_pending := when_pending hs;
                    when_given := when_given hs;
                    inflight := inflight hs;
                    trace := Ticked :: trace hs |} |}
  end.

(** One event; an event that cannot happen in [w] (a handle that is not
    armed, a gate already settled, a factory promise not in flight, an
    empty job queue) leaves [w] as it is. *)
Definition step (w : World) (e : Event) : World :=
  match e with
  | WhenSettled ok now =>
      if when_pending (host w) && (ok || when_given (host w))
      then on_when ok now (close_gate w) else w
  | TimerFired h hidden now rnd =>
      match find_timer h (timers (host w)) with
      | Some t => _execute (Timer.request t) hidden now rnd (disarm h w)
      | None => w
      end
  | FactorySettled poll outcome now rnd =>
      if existsb (Nat.eqb poll) (inflight (host w)) then
        match outcome with
        | inl resolved => on_fulfilled poll resolved now rnd (land poll w)
        | inr rejected => on_rejected poll rejected now rnd (land poll w)
        end
      else w
  | RefreshCalled now => fst (refresh now w)
  | DisposeCalled => dispose w
  | JobRun => run_job w
  end.

Definition run (w : World) (es : list Event) : World := fold_left step es w.

(** The worlds a program can see: a constructed poll after any events. *)
Definition reachable (w : World) : Prop :=
  exists options now w0 es, constructor options now = Ok w0 /\ run w0 es = w.

(** The states installed so far, oldest first. *)
Definition installed (w : World) : list (State.t T U) :=
  rev (omap (fun o => match o with Installed s => Some s | _ => None end)
         (trace (host w))).

Definition is_refresh (e : Event) : bool :=
  match e with RefreshCalled _ => true | _ => false end.

End WithPayload.

Arguments t : clear implicits.
Arguments Event : clear implicits.
Arguments Obs : clear implicits.
Arguments Host : clear implicits.
Arguments World : clear implicits.

End Poll.

(** ** [generateConfig] of the extension builder: entry points and build
       metadata

    The parts of [generateConfig] that compute values: the [exposes] table
    of the module federation plugin, and what [CleanupPlugin] writes under
    [jupyterlab._build].  The file system and [path] are parameters:
    [mtime] is [fs.statSync(fpath).mtime.getTime()], [join] is [path.join],
    [basename] is [path.basename].  A manifest field that may be a boolean
    or a string ([jupyterlab.extension], [jupyterlab.mimeExtension]) is an
    [Entry]; [data.style] is a string when present. *)

Module ExtensionConfig.

Inductive Entry : Type :=
| missing
| flag (b : bool)
| file (p : string).

(** [data.jupyterlab], the metadata of the extension: the fields read
    here. *)
Record Metadata : Type := mkMetadata {
  extension : Entry;
  mimeExtension : Entry;
  outputDir : option string
}.

(** The [package.json] of the extension. *)
Record Manifest : Type := mkManifest {
  jupyterlab : option Metadata;
  style : option string
}.

(** How a call of [generateConfig] ends: it returns, the process exits, or
    an exception is thrown. *)
Inductive Outcome (A : Type) : Type :=
| Returned (a : A)
| Exited (code : Z)
| Thrown (message : string).
Arguments Returned {A} a.
Arguments Exited {A} code.
Arguments Thrown {A} message.

Record Build : Type := mkBuild {
  load : string;
  build_extension : option string;
  build_mimeExtension : option string;
  build_style : option string
}.

Section WithHost.
Variable mtime : string -> Z.
Variable join : string -> string -> string.
Variable basename : string -> string.

(** The validator compiled from [metadata_schema.json] with [useDefaults]:
    [None] when the metadata is invalid, otherwise the metadata with the
    defaults of the schema filled in, in place. *)
Variable validate : Metadata -> option Metadata.

(** The table of shared packages: it is computed from the dependencies,
    the manifest of the core package and [webpack-merge]; only whether it
    completes matters to what follows. *)
Variable sharedPackages : Manifest -> Result unit.

(** [Build.ensureAssets({packagePaths: [packagePath], output})], of the
    module [./build]. *)
Variable ensureAssets : string -> string -> Result unit.

(** [exposes['./extension']] (or ['./mimeExtension']) for one field. *)
Definition expose (key : string) (packagePath index : string) (e : Entry)
    (table : gmap string string) : gmap string string :=
  match e with
  | flag true => <[key := index]> table
  | file p => <[key := join packagePath p]> table
  | _ => table
  end.

(** The [exposes] object built at the head of [generateConfig]. *)
Definition exposes (packagePath index : string) (meta : Metadata)
    (style : option string) : gmap string string :=
  let e0 := {[ "./index"%string := index ]} in
  let e1 := expose "./extension" packagePath index (extension meta) e0 in
  let e2 := expose "./mimeExtension" packagePath index (mimeExtension meta) e1 in
  match style with
  | Some s => if String.eqb s "" then e2
              else <["./style"%string := join packagePath s]> e2
  | None => e2
  end.

(** The [files.forEach] loop of [CleanupPlugin]: the pair
    [(newestRemote, newestTime)] after the files seen so far. *)
Definition newer (acc : string * Z) (fpath : string) : string * Z :=
  if (mtime fpath >? snd acc)%Z then (fpath, mtime fpath) else acc.

Definition newestRemote (files : list string) : string * Z :=
  fold_left newer files (""%string, (-1)%Z).

(** The [_build] object. *)
Definition _build (table : gmap string string) (files : list string) : Build :=
  let present (key : string) :=
    match table !! key with Some _ => Some key | None => None end in
  {| load := basename (fst (newestRemote files));
     build_extension := present "./extension"%string;
     build_mimeExtension := present "./mimeExtension"%string;
     build_style := present "./style"%string |}.

(** [{}], validated in place of a missing [data.jupyterlab]. *)
Definition empty : Metadata := mkMetadata missing missing None.

(** [generateConfig], as far as the build metadata goes.  Invalid metadata
    ends the process with code [1]; reading [outputDir] of a missing
    [data.jupyterlab], or joining a missing [outputDir], throws; so do the
    shared-package table and [Build.ensureAssets] when they fail.  Otherwise
    the configuration returned holds a [CleanupPlugin] whose [done] hook,
    given the remote entry files found, writes [_build]. *)
Definition generateConfig (packagePath index : string) (data : Manifest)
    : Outcome (list string -> Build) :=
  match validate (default empty (jupyterlab data)) with
  | None => Exited 1
  | Some meta =>
      match jupyterlab data, outputDir meta with
      | Some _, Some dir =>
          let outputPath := join packagePath dir in
          let table := exposes packagePath index meta (style data) in
          match sharedPackages data with
          | Throw m => Thrown m
          | Ok _ =>
              match ensureAssets packagePath outputPath with
              | Throw m => Thrown m
              | Ok _ => Returned (_build table)
              end
          end
      | _, _ => Thrown "TypeError"
      end
  end.

End WithHost.

End ExtensionConfig.

(** * Scenarios *)

(** The value of a computation known not to throw. *)
Definition value {A : Type} (r : Result A)
    : match r with Ok _ => A | Throw _ => unit end :=
  match r with Ok a => a | Throw _ => tt end.

Module Scenario.

(** [{interval: 1000, min: 100, max: 10000, variance: 0}], no gate;
    the factory resolves with an integer or rejects with a string. *)
Definition options : IOptions.t :=
  IOptions.mk (Some 1000) (Some 10000) (Some 100) (Some "p"%string)
    (Some 0) false.

Definition created : Poll.World Z string := value (Poll.constructor options 0).

(** The gate has settled: the first tick is scheduled. *)
Definition started : Poll.World Z string :=
  Poll.step created (Poll.WhenSettled true 0).

(** One round against a factory that always rejects with ["x"]: the armed
    timer fires, the factory is called, and its promise is rejected. *)
Definition reject_round (w : Poll.World Z string) : Poll.World Z string :=
  let w1 := Poll.step w
              (Poll.TimerFired (Poll._timeout (Poll.this w)) false 0 (0, 0)) in
  match Poll._tick (Poll.this w) with
  | Some poll =>
      Poll.step w1 (Poll.FactorySettled poll (inr "x"%string) 0 (0, 0))
  | None => w1
  end.

(** The same round against a factory that resolves with [v]. *)
Definition resolve_round (v : Z) (w : Poll.World Z string)
    : Poll.World Z string :=
  let w1 := Poll.step w
              (Poll.TimerFired (Poll._timeout (Poll.this w)) false 0 (0, 0)) in
  match Poll._tick (Poll.this w) with
  | Some poll => Poll.step w1 (Poll.FactorySettled poll (inl v) 0 (0, 0))
  | None => w1
  end.

(** The first timer has fired and the factory has been called. *)
Definition invoked : Poll.World Z string :=
  Poll.step started (Poll.TimerFired 1 false 0 (0, 0)).

Definition backoff (n : nat) : Poll.World Z string :=
  Nat.iter n reject_round started.

(** [refresh()] once the gate has settled. *)
Definition refreshed : Poll.World Z string :=
  Poll.step started (Poll.RefreshCalled 0).

(** [refresh()], then [n] rounds against the factory that always rejects. *)
Definition stalled (n : nat) : Poll.World Z string :=
  Nat.iter n reject_round refreshed.

Definition intervals (w : Poll.World Z string) : list Q :=
  map State.interval (Poll.installed w).

Definition phases (w : Poll.World Z string) : list Phase.t :=
  map State.phase (Poll.installed w).

End Scenario.

(** * Vocabulary of the statements *)

(** "[x] clamped into [[lo, hi]]". *)
Definition clamp (x lo hi : Q) : Q := Qmin (Qmax lo x) hi.

(** [x > y] holds: both numbers are present and [y < x]. *)
Definition gt (x y : option Q) : Prop :=
  exists a b, x = Some a /\ y = Some b /\ b < a.

(** The numeric relationships of the options are invalid:
    [interval > max], or [min > max], or [min > interval]. *)
Definition invalid (o : IOptions.t) : Prop :=
  gt (IOptions.interval o) (IOptions.max o) \/
  gt (IOptions.min o) (IOptions.max o) \/
  gt (IOptions.min o) (IOptions.interval o).

Definition integral (x : Q) : Prop := exists z : Z, x = inject_Z z.

Section Vocabulary.
Context {T U : Type}.
Implicit Types (w : Poll.World T U) (s : State.t T U) (p : Poll.t T U).

(** [w'] differs from [w] at most in the promise table and the job queue. *)
Definition promises_only w w' : Prop :=
  Poll.this w' = Poll.this w /\
  Poll.next_promise (Poll.host w') = Poll.next_promise (Poll.host w) /\
  Poll.timers (Poll.host w') = Poll.timers (Poll.host w) /\
  Poll.next_handle (Poll.host w') = Poll.next_handle (Poll.host w) /\
  Poll.when_pending (Poll.host w') = Poll.when_pending (Poll.host w) /\
  Poll.when_given (Poll.host w') = Poll.when_given (Poll.host w) /\
  Poll.inflight (Poll.host w') = Poll.inflight (Poll.host w) /\
  Poll.trace (Poll.host w') = Poll.trace (Poll.host w).

(** [w'] has the object of [w], the same promises, no new timer, no new
    factory call in flight, and [l] as new observations. *)
Record quiet (l : list (Poll.Obs T U)) w w' : Prop := {
  quiet_this : Poll.this w' = Poll.this w;
  quiet_promises :
    Poll.promises (Poll.host w') = Poll.promises (Poll.host w);
  quiet_next :
    Poll.next_promise (Poll.host w') = Poll.next_promise (Poll.host w);
  quiet_timers :
    forall t, In t (Poll.timers (Poll.host w')) ->
              In t (Poll.timers (Poll.host w));
  quiet_inflight :
    forall q, In q (Poll.inflight (Poll.host w')) ->
              In q (Poll.inflight (Poll.host w));
  quiet_trace : Poll.trace (Poll.host w') = l ++ Poll.trace (Poll.host w)
}.

(** The state the [.then] reaction installs. *)
Definition success_state w (resolved : T) (now : Z) (rnd : Q * Q)
    : State.t T U :=
  let p := Poll.this w in
  State.mk
    (Private.jitter rnd (Poll.interval p) (Poll.variance p)
       (Poll.min p) (Poll.max p))
    (Some (inl resolved))
    (if Phase.eqb (State.phase (Poll.state w)) Phase.rejected
     then Phase.reconnect else Phase.resolved)
    now.

(** The state the [.catch] reaction installs. *)
Definition failure_state w (rejected : U) (now : Z) (rnd : Q * Q)
    : State.t T U :=
  let p := Poll.this w in
  State.mk
    (Private.jitter rnd
       (Math_min (State.interval (Poll.state w) * 2) (Poll.max p))
       (Poll.variance p) (Poll.min p) (Poll.max p))
    (Some (inr rejected))
    Phase.rejected
    now.

(** Why a state is installed: the delegate that is resolved and the state. *)
Inductive origin w : option nat -> State.t T U -> Prop :=
| from_when (ok : bool) (now : Z) :
    Poll.isDisposed w = false ->
    origin w (Some 0%nat)
      (State.mk (Poll.interval (Poll.this w)) None
         (if ok then Phase.when_resolved else Phase.when_rejected) now)
| from_refresh (now : Z) :
    origin w (Poll._tick (Poll.this w)) (State.mk 0 None Phase.refresh now)
| from_hidden (t : Timer.t) (now : Z) (rnd : Q * Q) :
    Poll.isDisposed w = false ->
    In t (Poll.timers (Poll.host w)) ->
    origin w (Some (Timer.request t))
      (State.mk
         (Private.jitter rnd (Poll.interval (Poll.this w))
            (Poll.variance (Poll.this w)) (Poll.min (Poll.this w))
            (Poll.max (Poll.this w)))
         None Phase.standby now)
| from_success (poll : nat) (v : T) (now : Z) (rnd : Q * Q) :
    Poll.isDisposed w = false ->
    Poll._tick (Poll.this w) = Some poll ->
    In poll (Poll.inflight (Poll.host w)) ->
    origin w (Some poll) (success_state w v now rnd)
| from_failure (poll : nat) (r : U) (now : Z) (rnd : Q * Q) :
    Poll.isDisposed w = false ->
    Poll._tick (Poll.this w) = Some poll ->
    In poll (Poll.inflight (Poll.host w)) ->
    origin w (Some poll) (failure_state w r now rnd).

(** What one event can do to a poll. *)
Inductive action w : Poll.World T U -> Prop :=
| act_quiet w' : quiet [] w w' -> action w w'
| act_emit w' : quiet [Poll.Ticked] w w' -> action w w'
| act_invoke (t : Timer.t) w0 :
    Poll.isDisposed w = false ->
    In t (Poll.timers (Poll.host w)) ->
    quiet [] w w0 ->
    action w (Poll.invoke_factory (Timer.request t) w0)
| act_dispose :
    Poll.isDisposed w = false -> action w (Poll.dispose w)
| act_install (poll : option nat) s w0 w' :
    quiet [] w w0 ->
    origin w poll s ->
    quiet [] (fst (Poll._resolve poll s w0)) w' \/
    (exists m, quiet [Poll.Warned m] (fst (Poll._resolve poll s w0)) w') ->
    action w w'.

(** The object after [dispose()] on a live poll. *)
Definition disposed_object (p : Poll.t T U) : Poll.t T U :=
  Poll.mk (Poll.interval p) (Poll.max p) (Poll.min p) (Poll.name p)
    (Poll.variance p) true (Poll._state p) None (Poll._timeout p).

(** Delegates are named in allocation order; the outstanding tick, if any,
    is a pending promise, and a live poll has one. *)
Record wf w : Prop := {
  wf_next : (0 < Poll.next_promise (Poll.host w))%nat;
  wf_tick :
    forall q, Poll._tick (Poll.this w) = Some q ->
      (q < Poll.next_promise (Poll.host w))%nat /\
      Poll.promises (Poll.host w) !! q = Some (Pending 0);
  wf_live : Poll.isDisposed w = false -> is_Some (Poll._tick (Poll.this w));
  wf_timers :
    forall t, In t (Poll.timers (Poll.host w)) ->
      (Timer.request t < Poll.next_promise (Poll.host w))%nat;
  wf_inflight :
    forall q, In q (Poll.inflight (Poll.host w)) ->
      (q < Poll.next_promise (Poll.host w))%nat
}.

(** [poll] names a delegate that exists and is not the outstanding tick. *)
Definition superseded (poll : nat) w : Prop :=
  (poll < Poll.next_promise (Poll.host w))%nat /\
  Poll._tick (Poll.this w) <> Some poll.

(** The bound a tick obeys: a [refresh] tick has interval [0]; any other
    tick lies in [[min, max]], a [rejected] tick at variance [0] apart. *)
Definition bounded p s : Prop :=
  (State.phase s = Phase.refresh -> State.interval s = 0) /\
  (State.phase s <> Phase.refresh ->
   ~ Poll.variance p == 0 \/ State.phase s <> Phase.rejected ->
   Poll.min p <= State.interval s <= Poll.max p).

(** What the constructor guarantees of a configuration that is valid, and
    what every installation keeps. *)
Record tuned w : Prop := {
  tuned_valid :
    Poll.min (Poll.this w) <= Poll.interval (Poll.this w)
                           <= Poll.max (Poll.this w);
  tuned_min : 0 <= Poll.min (Poll.this w);
  tuned_interval : integral (Poll.interval (Poll.this w));
  tuned_state :
    Poll.variance (Poll.this w) == 0 ->
    integral (State.interval (Poll.state w))
}.

(** Every state installed so far obeys the bound. *)
Definition traced w : Prop :=
  forall s, In (Poll.Installed s) (Poll.trace (Poll.host w)) ->
            bounded (Poll.this w) s.

(** The factory calls made so far. *)
Definition invocations w : list (nat * State.t T U) :=
  omap (fun o => match o with Poll.Invoked p s => Some (p, s) | _ => None end)
    (Poll.trace (Poll.host w)).

(** The world a handler starts from: [w] after the bookkeeping of the host
    (the gate is closed, the fired handle disarmed, the settled call
    landed). *)
Inductive prepared w : Poll.World T U -> Prop :=
| prep_same : prepared w w
| prep_gate : prepared w (Poll.close_gate w)
| prep_timer (h : nat) : prepared w (Poll.disarm h w)
| prep_settled (poll : nat) : prepared w (Poll.land poll w).

(** The result of one event, by the code that runs. *)
Inductive outcome w : Poll.World T U -> Prop :=
| out_idle w0 : prepared w w0 -> outcome w w0
| out_job : outcome w (Poll.run_job w)
| out_invoke (t : Timer.t) :
    Poll.isDisposed w = false ->
    In t (Poll.timers (Poll.host w)) ->
    outcome w (Poll.invoke_factory (Timer.request t)
                 (Poll.disarm (Timer.handle t) w))
| out_dispose :
    Poll.isDisposed w = false -> outcome w (Poll.dispose w)
| out_install (poll : option nat) s w0 :
    prepared w w0 -> origin w poll s ->
    outcome w (fst (Poll._resolve poll s w0))
| out_warn (poll : option nat) s w0 (m : string) :
    prepared w w0 -> origin w poll s ->
    outcome w (Poll.observe (Poll.Warned m) (fst (Poll._resolve poll s w0))).

(** How often an observation of a kind was made. *)
Definition count (f : Poll.Obs T U -> bool) w : nat :=
  length (List.filter f (Poll.trace (Poll.host w))).

Definition is_ticked (o : Poll.Obs T U) : bool :=
  match o with Poll.Ticked => true | _ => false end.

Definition is_disposed (o : Poll.Obs T U) : bool :=
  match o with Poll.Disposed => true | _ => false end.

(** The payload goes with the phase: a value for [resolved] and
    [reconnect], a reason for [rejected], [null] otherwise. *)
Definition payload_fits s : Prop :=
  match State.phase s with
  | Phase.resolved | Phase.reconnect =>
      exists v : T, State.payload s = Some (inl v)
  | Phase.rejected => exists r : U, State.payload s = Some (inr r)
  | _ => State.payload s = None
  end.

(** Every promise is pending without reactions, fulfilled, or -- on a
    disposed poll only -- rejected; every delegate created has one; the
    outstanding tick is the last one created. *)
Record settled_or_fresh w : Prop := {
  sof_states :
    forall (q : nat) st, Poll.promises (Poll.host w) !! q = Some st ->
      st = Pending 0 \/ st = Fulfilled \/
      (exists m, st = Rejected m /\ Poll.isDisposed w = true);
  sof_present :
    forall q : nat, (q < Poll.next_promise (Poll.host w))%nat ->
      is_Some (Poll.promises (Poll.host w) !! q);
  sof_last :
    forall q : nat, Poll._tick (Poll.this w) = Some q ->
      S q = Poll.next_promise (Poll.host w)
}.

(** The armed handles are distinct and older than the next one; an armed
    timeout is the one [_timeout] names. *)
Record timers_owned w : Prop := {
  own_allocated :
    forall t, In t (Poll.timers (Poll.host w)) ->
      (Timer.handle t < Poll.next_handle (Poll.host w))%nat;
  own_distinct :
    forall t1 t2, In t1 (Poll.timers (Poll.host w)) ->
      In t2 (Poll.timers (Poll.host w)) ->
      Timer.handle t1 = Timer.handle t2 -> t1 = t2;
  own_timeout :
    forall t, In t (Poll.timers (Poll.host w)) ->
      Timer.kind t = Timeout ->
      Timer.handle t = Poll._timeout (Poll.this w);
  own_request :
    forall t, In t (Poll.timers (Poll.host w)) ->
      Timer.kind t = Timeout -> Poll.isDisposed w = false ->
      Poll._tick (Poll.this w) = Some (Timer.request t);
  own_delay :
    forall t, In t (Poll.timers (Poll.host w)) ->
      Timer.kind t = Timeout ->
      Timer.delay t = State.interval (Poll.state w) /\
      ~ Timer.delay t == 0
}.

(** Every armed request is for a tick of its own, for which the factory has
    not been called; the factory calls made are for different ticks. *)
Record called_once w : Prop := {
  once_requests :
    forall t1 t2, In t1 (Poll.timers (Poll.host w)) ->
      In t2 (Poll.timers (Poll.host w)) ->
      Timer.request t1 = Timer.request t2 -> t1 = t2;
  once_pending :
    forall (q : nat) s t, In (q, s) (invocations w) ->
      In t (Poll.timers (Poll.host w)) -> Timer.request t <> q;
  once_calls : NoDup (map fst (invocations w))
}.


(** The jobs [_resolve] queues. *)
Definition queued (poll : option nat) w : nat :=
  match poll with
  | Some p =>
      match <[Poll.next_promise (Poll.host w) := Pending 0]>
              (Poll.promises (Poll.host w)) !! p with
      | Some (Pending n) => S n
      | Some Fulfilled => 1
      | _ => 0
      end
  | None => 0
  end.

Definition is_gate_or_refresh (e : Poll.Event T U) : bool :=
  match e with
  | Poll.WhenSettled _ _ | Poll.RefreshCalled _ => true
  | _ => false
  end.

End Vocabulary.

(** A poll of the scenario between two rounds: live, its single timer armed
    for the outstanding tick, nothing in flight, current interval [z]. *)
Record armed (w : Poll.World Z string) (z : Z) : Prop := {
  armed_live : Poll.isDisposed w = false;
  armed_max : Poll.max (Poll.this w) = 10000;
  armed_min : Poll.min (Poll.this w) = 100;
  armed_variance : Poll.variance (Poll.this w) = 0;
  armed_timer :
    exists p k d,
      Poll._tick (Poll.this w) = Some p /\
      Poll.timers (Poll.host w)
        = [Timer.mk (Poll._timeout (Poll.this w)) k d p] /\
      Poll.inflight (Poll.host w) = [];
  armed_interval : State.interval (Poll.state w) = inject_Z z
}.

(** * Numbers: rounding and clamping *)

Lemma Math_round_inject_Z (z : Z) : Math_round (inject_Z z) = inject_Z z.
Proof.
  unfold Math_round, Qfloor, inject_Z, Qplus. cbn [Qnum Qden].
  f_equal. change (Z.pos (1 * 2)) with 2%Z.
  rewrite Z.mul_1_l, Z.div_add_l by lia.
  change (1 / 2)%Z with 0%Z. apply Z.add_0_r.
Qed.

Lemma clamp_bounds (x lo hi : Q) : lo <= hi -> lo <= clamp x lo hi <= hi.
Proof.
  intros H. unfold clamp. split.
  - apply Q.min_glb; [apply Q.le_max_l | exact H].
  - apply Q.le_min_r.
Qed.

Lemma clamp_fixes (x lo hi : Q) :
  lo <= hi -> (clamp x lo hi == x <-> lo <= x <= hi).
Proof.
  intros H. unfold clamp.
  destruct (Q.max_spec lo x) as [[H1 E1] | [H1 E1]];
  destruct (Q.min_spec (Qmax lo x) hi) as [[H2 E2] | [H2 E2]];
  rewrite E2; rewrite E1 in *; split; intros; lra.
Qed.

Lemma Qeq_bool_false (x y : Q) : ~ x == y -> Qeq_bool x y = false.
Proof.
  intros H. destruct (Qeq_bool x y) eqn:E; [|reflexivity].
  apply Qeq_bool_iff in E. contradiction.
Qed.

Lemma jitter_factor_0 (rnd : Q * Q) (base factor lo hi : Q) :
  factor == 0 -> Private.jitter rnd base factor lo hi = Math_round base.
Proof.
  intros H. unfold Private.jitter.
  apply Qeq_bool_iff in H. rewrite H. reflexivity.
Qed.

Lemma jitter_bounds (rnd : Q * Q) (base factor lo hi : Q) :
  ~ factor == 0 -> lo <= hi ->
  lo <= Private.jitter rnd base factor lo hi <= hi.
Proof.
  intros H Hle. unfold Private.jitter.
  rewrite (Qeq_bool_false _ _ H). apply clamp_bounds, Hle.
Qed.

(** * The helper [Private.jitter] *)

(** C2, as stated, fails: with factor [0] the early return skips the clamp,
    so [jitter(5, 0, 10, 20)] is [5] and not [10]. *)
Lemma jitter_zero_factor_not_clamped :
  ~ (forall rnd base lo hi, lo <= hi ->
       Private.jitter rnd base 0 lo hi == clamp (Math_round base) lo hi).
Proof.
  intros H. specialize (H (0, 0) 5 10 20).
  assert (Hle : 10 <= 20) by (vm_compute; discriminate).
  specialize (H Hle). vm_compute in H. discriminate H.
Qed.

(** C2, amended: for [min <= max], [jitter(base, 0, min, max)] is
    [round(base)] itself, not clamped; it agrees with [round(base)] clamped
    into [[min, max]] exactly when [round(base)] already lies in that range. *)
Theorem jitter_zero_factor (rnd : Q * Q) (base lo hi : Q) :
  lo <= hi ->
  Private.jitter rnd base 0 lo hi = Math_round base /\
  (Private.jitter rnd base 0 lo hi == clamp (Math_round base) lo hi
   <-> lo <= Math_round base <= hi).
Proof.
  intros H. split; [reflexivity|].
  change (Private.jitter rnd base 0 lo hi) with (Math_round base).
  split.
  - intros E. apply (clamp_fixes _ _ _ H). symmetry. exact E.
  - intros B. symmetry. apply (clamp_fixes _ _ _ H). exact B.
Qed.

Lemma jitter_zero_factor_witness :
  1 <= 10 /\
  Private.jitter (0, 0) (5 # 2) 0 1 10 = Math_round (5 # 2) /\
  (Private.jitter (0, 0) (5 # 2) 0 1 10 == clamp (Math_round (5 # 2)) 1 10
   <-> 1 <= Math_round (5 # 2) <= 10).
Proof.
  assert (H : 1 <= 10) by (vm_compute; discriminate).
  split; [exact H|].
  apply (jitter_zero_factor (0, 0) (5 # 2) 1 10 H).
Defined.

(** * Construction *)

Lemma js_gt_spec (x y : option Q) : js_gt x y = true <-> gt x y.
Proof.
  unfold js_gt, gt. destruct x as [a|], y as [b|].
  - rewrite negb_true_iff. split.
    + intros H. exists a, b. repeat split.
      apply Qnot_le_lt. intros L. apply Qle_bool_iff in L. congruence.
    + intros (a' & b' & [= <-] & [= <-] & L).
      destruct (Qle_bool a b) eqn:E; [|reflexivity].
      apply Qle_bool_iff in E. lra.
  - split; [discriminate | intros (? & ? & _ & [=] & _)].
  - split; [discriminate | intros (? & ? & [=] & _)].
  - split; [discriminate | intros (? & ? & [=] & _)].
Qed.

Lemma js_gt_false (x y : option Q) : js_gt x y = false <-> ~ gt x y.
Proof.
  rewrite <- js_gt_spec. destruct (js_gt x y); split; congruence.
Qed.

Section Construction.
Context {T U : Type}.

(** C6: the constructor throws exactly when the options are [invalid];
    otherwise it returns the poll with the recorded configuration
    (defaults filled in), in its initial [standby] state, not disposed. *)
Theorem constructor_validates (o : IOptions.t) (now : Z) :
  ((exists message, Poll.constructor (T:=T) (U:=U) o now = Throw message)
   <-> invalid o) /\
  (~ invalid o ->
   exists w : Poll.World T U,
     Poll.constructor o now = Ok w /\
     Poll.interval (Poll.this w)
       = from_option (fun i => Math_round (Math_abs i)) 1000
           (IOptions.interval o) /\
     Poll.max (Poll.this w)
       = from_option Math_abs (10 * Poll.interval (Poll.this w))
           (IOptions.max o) /\
     Poll.min (Poll.this w) = from_option Math_abs 100 (IOptions.min o) /\
     Poll.variance (Poll.this w) = default (2 # 10) (IOptions.variance o) /\
     Poll.name (Poll.this w) = Poll.default_name (IOptions.name o) /\
     Poll.isDisposed w = false /\
     Poll.state w
       = State.mk (Poll.interval (Poll.this w)) None Phase.standby now /\
     Poll.tick w = Ok 0%nat /\
     Poll.installed w = []).
Proof.
  unfold invalid, Poll.constructor.
  destruct (js_gt (IOptions.interval o) (IOptions.max o)) eqn:E1.
  { apply js_gt_spec in E1. split.
    - split; [tauto | intros _; eexists; reflexivity].
    - intros N. tauto. }
  apply js_gt_false in E1.
  destruct (js_gt (IOptions.min o) (IOptions.max o)) eqn:E2.
  { apply js_gt_spec in E2. cbn [orb]. split.
    - split; [tauto | intros _; eexists; reflexivity].
    - intros N. tauto. }
  apply js_gt_false in E2.
  destruct (js_gt (IOptions.min o) (IOptions.interval o)) eqn:E3.
  { apply js_gt_spec in E3. cbn [orb]. split.
    - split; [tauto | intros _; eexists; reflexivity].
    - intros N. tauto. }
  apply js_gt_false in E3. cbn [orb]. split.
  - split; [intros [m [=]] | tauto].
  - intros _. eexists. split; [reflexivity|].
    destruct o as [i mx mn nm v wh]; cbn.
    destruct i, mx, mn, v; cbn; repeat split; reflexivity.
Qed.

End Construction.

(** The comparisons are made on the options as passed, before the defaults
    are filled in: [{interval: 50}] is accepted, and the poll records
    [min = 100 > interval = 50]. *)
Example defaults_are_not_validated :
  exists w : Poll.World Z string,
    Poll.constructor (IOptions.mk (Some 50) None None None None false) 0
    = Ok w /\
    Poll.interval (Poll.this w) = 50 /\
    Poll.min (Poll.this w) = 100 /\
    Poll.max (Poll.this w) = 500.
Proof. eexists. split; [reflexivity|]. repeat split. Qed.

Lemma constructor_validates_witness :
  ~ invalid Scenario.options /\
  exists w : Poll.World Z string,
    Poll.constructor Scenario.options 0 = Ok w /\
    Poll.interval (Poll.this w) = 1000 /\
    Poll.max (Poll.this w) = 10000 /\
    Poll.min (Poll.this w) = 100.
Proof.
  assert (N : ~ invalid Scenario.options).
  { unfold invalid. rewrite <- !js_gt_spec. vm_compute. intuition discriminate. }
  split; [exact N|].
  destruct (proj2 (constructor_validates (T:=Z) (U:=string) Scenario.options 0) N)
    as (w & E & Hi & Hx & Hn & _).
  exists w. split; [exact E|]. rewrite Hx, Hn, Hi. repeat split.
Defined.

(** * Frame properties of the methods *)

Section Frames.
Context {T U : Type}.
Implicit Types (w : Poll.World T U) (s : State.t T U) (e : Poll.Event T U).

Lemma promises_only_refl w : promises_only w w.
Proof. repeat split. Qed.

Lemma promises_only_trans w1 w2 w3 :
  promises_only w1 w2 -> promises_only w2 w3 -> promises_only w1 w3.
Proof.
  unfold promises_only. intros H1 H2.
  destruct_and!. repeat split; congruence.
Qed.

Lemma promise_then_frame poll w : promises_only w (Poll.promise_then poll w).
Proof.
  unfold Poll.promise_then.
  destruct (Poll.promises (Poll.host w) !! poll) as [[n| |r]|];
    repeat split.
Qed.

Lemma promise_resolve_frame poll w :
  promises_only w (Poll.promise_resolve poll w).
Proof.
  unfold Poll.promise_resolve.
  destruct (Poll.promises (Poll.host w) !! poll) as [[n| |r]|];
    repeat split.
Qed.

Lemma promise_reject_frame poll m w :
  promises_only w (Poll.promise_reject poll m w).
Proof.
  unfold Poll.promise_reject.
  destruct (Poll.promises (Poll.host w) !! poll) as [[n| |r]|];
    repeat split.
Qed.

(** The promise table after [poll.promise.then(..); poll.resolve(this)]:
    only the cell [poll] can change, and a pending [poll] is fulfilled. *)
Lemma notify_other poll q w :
  q <> poll ->
  Poll.promises
    (Poll.host (Poll.promise_resolve poll (Poll.promise_then poll w))) !! q
  = Poll.promises (Poll.host w) !! q.
Proof.
  intros N. unfold Poll.promise_resolve, Poll.promise_then.
  destruct (Poll.promises (Poll.host w) !! poll) as [[n| |r]|] eqn:E; cbn.
  - rewrite lookup_insert_eq. cbn.
    rewrite !lookup_insert_ne by congruence. reflexivity.
  - rewrite E. reflexivity.
  - rewrite E. reflexivity.
  - rewrite E. reflexivity.
Qed.

Lemma notify_pending poll n w :
  Poll.promises (Poll.host w) !! poll = Some (Pending n) ->
  Poll.promises
    (Poll.host (Poll.promise_resolve poll (Poll.promise_then poll w))) !! poll
  = Some Fulfilled.
Proof.
  intros E. unfold Poll.promise_resolve, Poll.promise_then.
  rewrite E. cbn. rewrite lookup_insert_eq. cbn.
  apply lookup_insert_eq.
Qed.

Lemma notify_frame poll w :
  promises_only w (Poll.promise_resolve poll (Poll.promise_then poll w)).
Proof.
  eapply promises_only_trans;
    [apply promise_then_frame | apply promise_resolve_frame].
Qed.

(** [_resolve] is [_schedule] followed by promise bookkeeping. *)
Lemma _resolve_frame (poll : option nat) s w :
  promises_only (Poll._schedule s w) (fst (Poll._resolve poll s w)).
Proof.
  unfold Poll._resolve. cbn [fst].
  destruct poll as [p|]; [apply notify_frame | apply promises_only_refl].
Qed.

Lemma _resolve_this (poll : option nat) s w :
  Poll.this (fst (Poll._resolve poll s w)) = Poll.this (Poll._schedule s w).
Proof. apply _resolve_frame. Qed.

Lemma _resolve_trace (poll : option nat) s w :
  Poll.trace (Poll.host (fst (Poll._resolve poll s w)))
  = Poll.Installed s :: Poll.trace (Poll.host w).
Proof.
  destruct (_resolve_frame poll s w) as (_ & _ & _ & _ & _ & _ & _ & E).
  rewrite E. reflexivity.
Qed.

Lemma _resolve_returns (poll : option nat) s w :
  snd (Poll._resolve poll s w) = Some (Poll.next_promise (Poll.host w)).
Proof.
  unfold Poll._resolve. cbn [snd].
  change (Poll._tick (Poll.this (fst (Poll._resolve poll s w)))
          = Some (Poll.next_promise (Poll.host w))).
  rewrite _resolve_this. reflexivity.
Qed.

End Frames.

(** * Factory settlements that are neither disposed nor superseded *)

Lemma Phase_eqb_spec (a b : Phase.t) : Phase.eqb a b = true <-> a = b.
Proof. destruct a, b; cbn; split; congruence. Qed.

Section Settlement.
Context {T U : Type}.
Implicit Types (w : Poll.World T U) (s : State.t T U) (e : Poll.Event T U).

Lemma same_delegate_spec (poll : nat) (tk : option nat) :
  Poll.same_delegate poll tk = true <-> tk = Some poll.
Proof.
  unfold Poll.same_delegate. destruct tk as [q|]; [|split; congruence].
  rewrite Nat.eqb_eq. split; congruence.
Qed.

Lemma inflight_spec (poll : nat) (l : list nat) :
  existsb (Nat.eqb poll) l = true <-> In poll l.
Proof.
  rewrite existsb_exists. split.
  - intros (x & Hx & E). apply Nat.eqb_eq in E. congruence.
  - intros H. exists poll. split; [exact H | apply Nat.eqb_refl].
Qed.

Lemma installed_cons s w w' :
  Poll.trace (Poll.host w') = Poll.Installed s :: Poll.trace (Poll.host w) ->
  Poll.installed w' = Poll.installed w ++ [s].
Proof. unfold Poll.installed. intros ->. reflexivity. Qed.

Lemma step_fulfilled_current w poll v now rnd :
  Poll.isDisposed w = false ->
  Poll._tick (Poll.this w) = Some poll ->
  In poll (Poll.inflight (Poll.host w)) ->
  Poll.step w (Poll.FactorySettled poll (inl v) now rnd)
  = fst (Poll._resolve (Some poll) (success_state w v now rnd)
           (Poll.land poll w)).
Proof.
  intros D K I. unfold Poll.step.
  rewrite (proj2 (inflight_spec _ _) I).
  unfold Poll.on_fulfilled. cbn [Poll.land Poll.this].
  unfold Poll.isDisposed in D. rewrite D, K.
  rewrite (proj2 (same_delegate_spec poll (Some poll)) eq_refl).
  reflexivity.
Qed.

Lemma step_rejected_current w poll r now rnd :
  Poll.isDisposed w = false ->
  Poll._tick (Poll.this w) = Some poll ->
  In poll (Poll.inflight (Poll.host w)) ->
  Poll.step w (Poll.FactorySettled poll (inr r) now rnd)
  = fst (Poll._resolve (Some poll) (failure_state w r now rnd)
           (Poll.land poll w)).
Proof.
  intros D K I. unfold Poll.step.
  rewrite (proj2 (inflight_spec _ _) I).
  unfold Poll.on_rejected. cbn [Poll.land Poll.this].
  unfold Poll.isDisposed in D. rewrite D, K.
  rewrite (proj2 (same_delegate_spec poll (Some poll)) eq_refl).
  reflexivity.
Qed.

Lemma resolved_state (poll : option nat) s w :
  Poll.state (fst (Poll._resolve poll s w)) = s.
Proof. unfold Poll.state. rewrite _resolve_this. reflexivity. Qed.

End Settlement.

(** ** Rounds of the backoff scenario *)

Lemma Math_min_inject_Z (a b : Z) :
  Math_min (inject_Z a) (inject_Z b) = inject_Z (Z.min a b).
Proof.
  unfold Math_min, Qmin, GenericMinMax.gmin, Qcompare, inject_Z, Z.min.
  cbn [Qnum Qden]. rewrite !Z.mul_1_r.
  destruct (a ?= b)%Z; reflexivity.
Qed.

Lemma doubled_capped (z : Z) :
  Math_round (Math_min (inject_Z z * 2) 10000)
  = inject_Z (Z.min (z * 2) 10000).
Proof.
  change (inject_Z z * 2) with (inject_Z (z * 2)).
  change 10000 with (inject_Z 10000).
  rewrite Math_min_inject_Z. apply Math_round_inject_Z.
Qed.

Lemma started_armed : armed Scenario.started 1000.
Proof.
  split; try reflexivity.
  exists 1%nat, Timeout, 1000. repeat split.
Qed.

Lemma reject_round_armed (w : Poll.World Z string) (z : Z) :
  armed w z ->
  armed (Scenario.reject_round w) (Z.min (z * 2) 10000) /\
  State.phase (Poll.state (Scenario.reject_round w)) = Phase.rejected /\
  Poll.installed (Scenario.reject_round w)
    = Poll.installed w ++ [Poll.state (Scenario.reject_round w)].
Proof.
  intros [D Hx Hn Hv (p & k & d & K & Ht & Hf) Hz].
  unfold Scenario.reject_round. rewrite K.
  set (h := Poll._timeout (Poll.this w)) in *.
  assert (E1 : Poll.step w (Poll.TimerFired h false 0 (0, 0))
               = Poll.invoke_factory p (Poll.disarm h w)).
  { unfold Poll.step, Poll.find_timer. rewrite Ht. cbn [find Timer.handle].
    rewrite Nat.eqb_refl. unfold Poll._execute. cbn [Poll.disarm Poll.this].
    unfold Poll.isDisposed in D. rewrite D. reflexivity. }
  rewrite E1. clear E1.
  set (w1 := Poll.invoke_factory p (Poll.disarm h w)).
  assert (D1 : Poll.isDisposed w1 = false) by exact D.
  assert (K1 : Poll._tick (Poll.this w1) = Some p) by exact K.
  assert (I1 : In p (Poll.inflight (Poll.host w1))) by (left; reflexivity).
  rewrite (step_rejected_current w1 p "x"%string 0 (0, 0) D1 K1 I1).
  set (s := failure_state w1 "x"%string 0 (0, 0)).
  destruct (_resolve_frame (Some p) s (Poll.land p w1))
    as (Hthis & _ & Htim & _ & _ & _ & Hinf & Htr).
  assert (Hs : State.interval s = inject_Z (Z.min (z * 2) 10000)).
  { unfold s, failure_state. cbn [State.interval].
    change (Poll.this w1) with (Poll.this w).
    change (Poll.state w1) with (Poll.state w).
    rewrite Hx, Hn, Hv, Hz. rewrite jitter_factor_0 by reflexivity.
    apply doubled_capped. }
  split; [split|split].
  - unfold Poll.isDisposed. rewrite Hthis. exact D.
  - rewrite Hthis. exact Hx.
  - rewrite Hthis. exact Hn.
  - rewrite Hthis. exact Hv.
  - exists (Poll.next_promise (Poll.host w)),
      (if truthy (State.interval s) then Timeout else AnimationFrame),
      (State.interval s).
    rewrite Hthis, Htim, Hinf. repeat split.
    + cbn [Poll._schedule Poll.host Poll.timers Poll.land Poll.this
           Poll.invoke_factory Poll.disarm w1].
      rewrite Ht. cbn [List.filter Timer.handle]. fold h.
      rewrite Nat.eqb_refl. reflexivity.
    + cbn [Poll._schedule Poll.host Poll.inflight Poll.land Poll.this
           Poll.invoke_factory Poll.disarm w1].
      rewrite Hf. cbn [List.filter]. rewrite Nat.eqb_refl. reflexivity.
  - rewrite resolved_state. exact Hs.
  - rewrite resolved_state. reflexivity.
  - rewrite resolved_state. unfold Poll.installed. rewrite Htr. reflexivity.
Qed.

Lemma capped_double (k : nat) :
  Z.min (Z.min (1000 * 2 ^ Z.of_nat k) 10000 * 2) 10000
  = Z.min (1000 * 2 ^ Z.of_nat (S k)) 10000.
Proof.
  rewrite Nat2Z.inj_succ, Z.pow_succ_r by lia.
  assert (0 < 2 ^ Z.of_nat k)%Z by (apply Z.pow_pos_nonneg; lia).
  lia.
Qed.

Lemma backoff_armed (n : nat) :
  armed (Scenario.backoff n) (Z.min (1000 * 2 ^ Z.of_nat n) 10000) /\
  Scenario.intervals (Scenario.backoff n)
    = map (fun k => inject_Z (Z.min (1000 * 2 ^ Z.of_nat k) 10000))
        (seq 0 (S n)) /\
  Scenario.phases (Scenario.backoff n)
    = Phase.when_resolved :: repeat Phase.rejected n.
Proof.
  induction n as [|n (A & Hi & Hp)].
  - split; [exact started_armed | split; vm_compute; reflexivity].
  - change (Scenario.backoff (S n))
      with (Scenario.reject_round (Scenario.backoff n)).
    destruct (reject_round_armed _ _ A) as (A' & Hph & Hin).
    rewrite capped_double in A'.
    split; [exact A'|]. unfold Scenario.intervals, Scenario.phases.
    rewrite Hin, !map_app. cbn [map].
    fold (Scenario.intervals (Scenario.backoff n)).
    fold (Scenario.phases (Scenario.backoff n)).
    rewrite Hi, Hp, Hph, (armed_interval _ _ A'). split.
    + rewrite (seq_S (S n)), map_app. reflexivity.
    + cbn [app]. f_equal. symmetry. apply repeat_cons.
Qed.

Lemma refreshed_armed : armed Scenario.refreshed 0.
Proof.
  split; try (vm_compute; reflexivity).
  exists 2%nat, AnimationFrame, 0. repeat split.
Qed.

(** After [refresh()] the rounds of the rejecting factory never leave
    interval [0]: [min(0 * 2, max)] is [0] and variance [0] does not
    clamp. *)
Lemma stalled_armed (n : nat) :
  armed (Scenario.stalled n) 0 /\
  Scenario.intervals (Scenario.stalled n) = 1000 :: 0 :: repeat 0 n /\
  Scenario.phases (Scenario.stalled n)
    = Phase.when_resolved :: Phase.refresh :: repeat Phase.rejected n.
Proof.
  induction n as [|n (A & Hi & Hp)].
  - split; [exact refreshed_armed | split; vm_compute; reflexivity].
  - change (Scenario.stalled (S n))
      with (Scenario.reject_round (Scenario.stalled n)).
    destruct (reject_round_armed _ _ A) as (A' & Hph & Hin).
    change (Z.min (0 * 2) 10000) with 0%Z in A'.
    split; [exact A'|]. unfold Scenario.intervals, Scenario.phases.
    rewrite Hin, !map_app. cbn [map].
    fold (Scenario.intervals (Scenario.stalled n)).
    fold (Scenario.phases (Scenario.stalled n)).
    rewrite Hi, Hp, Hph, (armed_interval _ _ A'). split.
    + change (inject_Z 0) with 0. cbn [app]. do 2 f_equal.
      symmetry. apply repeat_cons.
    + cbn [app]. do 2 f_equal. symmetry. apply repeat_cons.
Qed.

Section SettlementClaims.
Context {T U : Type}.
Implicit Types (w : Poll.World T U).

(** C8: when the factory promise is fulfilled with [v] for the tick that is
    still outstanding on a poll that is not disposed, the installed state
    has phase [reconnect] if the prior phase was [rejected] and [resolved]
    otherwise, payload [v], and interval
    [jitter(this.interval, variance, min, max)]: the configured interval,
    not a doubled one.  In the reconnect scenario (two failures, then two
    successes) the phases are [when-resolved, rejected, rejected, reconnect,
    resolved] and the intervals [1000, 2000, 4000, 1000, 1000]. *)
Theorem factory_success_installs :
  (forall w (poll : nat) (v : T) (now : Z) (rnd : Q * Q),
     Poll.isDisposed w = false ->
     Poll._tick (Poll.this w) = Some poll ->
     In poll (Poll.inflight (Poll.host w)) ->
     let w' := Poll.step w (Poll.FactorySettled poll (inl v) now rnd) in
     (State.phase (Poll.state w) = Phase.rejected ->
      State.phase (Poll.state w') = Phase.reconnect) /\
     (State.phase (Poll.state w) <> Phase.rejected ->
      State.phase (Poll.state w') = Phase.resolved) /\
     State.payload (Poll.state w') = Some (inl v) /\
     State.interval (Poll.state w')
       = Private.jitter rnd (Poll.interval (Poll.this w))
           (Poll.variance (Poll.this w)) (Poll.min (Poll.this w))
           (Poll.max (Poll.this w)) /\
     State.tick (Poll.state w') = now /\
     Poll.installed w' = Poll.installed w ++ [Poll.state w']) /\
  (let w4 := Scenario.resolve_round 42 (Scenario.resolve_round 42
               (Scenario.reject_round (Scenario.reject_round
                  Scenario.started))) in
   Scenario.phases w4
     = [Phase.when_resolved; Phase.rejected; Phase.rejected;
        Phase.reconnect; Phase.resolved] /\
   Scenario.intervals w4 = [1000; 2000; 4000; 1000; 1000]).
Proof.
  split.
  - intros w poll v now rnd D K I w'. subst w'.
    rewrite (step_fulfilled_current w poll v now rnd D K I).
    rewrite resolved_state. unfold success_state.
    cbn [State.phase State.payload State.interval State.tick Poll.this
         Poll.land].
    split; [|split; [|split; [|split; [|split]]]].
    + intros ->. reflexivity.
    + intros N. destruct (Phase.eqb _ _) eqn:E; [|reflexivity].
      apply Phase_eqb_spec in E. contradiction.
    + reflexivity.
    + reflexivity.
    + reflexivity.
    + apply installed_cons. rewrite _resolve_trace. reflexivity.
  - split; vm_compute; reflexivity.
Qed.

(** C3: when the factory promise is rejected with [r] for the tick that is
    still outstanding on a poll that is not disposed, the installed state
    has phase [rejected], payload [r] and interval
    [jitter(min(prior interval * 2, max), variance, min, max)].  With
    [{interval: 1000, min: 100, max: 10000, variance: 0}] and a factory that
    always rejects, the installed intervals are [1000 * 2^k] capped at
    [10000]: 1000, 2000, 4000, 8000, 10000, 10000, ..., and the phases are
    [when-resolved] followed by [rejected] only. *)
Theorem factory_failure_installs :
  (forall w (poll : nat) (r : U) (now : Z) (rnd : Q * Q),
     Poll.isDisposed w = false ->
     Poll._tick (Poll.this w) = Some poll ->
     In poll (Poll.inflight (Poll.host w)) ->
     let w' := Poll.step w (Poll.FactorySettled poll (inr r) now rnd) in
     State.phase (Poll.state w') = Phase.rejected /\
     State.payload (Poll.state w') = Some (inr r) /\
     State.interval (Poll.state w')
       = Private.jitter rnd
           (Math_min (State.interval (Poll.state w) * 2)
              (Poll.max (Poll.this w)))
           (Poll.variance (Poll.this w)) (Poll.min (Poll.this w))
           (Poll.max (Poll.this w)) /\
     State.tick (Poll.state w') = now /\
     Poll.installed w' = Poll.installed w ++ [Poll.state w']) /\
  Scenario.intervals (Scenario.backoff 5)
    = [1000; 2000; 4000; 8000; 10000; 10000] /\
  (forall n : nat,
     Scenario.intervals (Scenario.backoff n)
       = map (fun k => inject_Z (Z.min (1000 * 2 ^ Z.of_nat k) 10000))
           (seq 0 (S n)) /\
     Scenario.phases (Scenario.backoff n)
       = Phase.when_resolved :: repeat Phase.rejected n).
Proof.
  split; [|split].
  - intros w poll r now rnd D K I w'. subst w'.
    rewrite (step_rejected_current w poll r now rnd D K I).
    rewrite resolved_state. unfold failure_state.
    cbn [State.phase State.payload State.interval State.tick Poll.this
         Poll.land].
    split; [|split; [|split; [|split]]].
    + reflexivity.
    + reflexivity.
    + reflexivity.
    + reflexivity.
    + apply installed_cons. rewrite _resolve_trace. reflexivity.
  - vm_compute. reflexivity.
  - intros n. apply backoff_armed.
Qed.

End SettlementClaims.

Lemma factory_success_installs_witness :
  Poll.isDisposed Scenario.invoked = false /\
  Poll._tick (Poll.this Scenario.invoked) = Some 1%nat /\
  In 1%nat (Poll.inflight (Poll.host Scenario.invoked)) /\
  State.phase
    (Poll.state
       (Poll.step Scenario.invoked
          (Poll.FactorySettled 1 (inl 42%Z) 5 (0, 0)))) = Phase.resolved.
Proof.
  assert (D : Poll.isDisposed Scenario.invoked = false)
    by (vm_compute; reflexivity).
  assert (K : Poll._tick (Poll.this Scenario.invoked) = Some 1%nat)
    by (vm_compute; reflexivity).
  assert (I : In 1%nat (Poll.inflight (Poll.host Scenario.invoked)))
    by (vm_compute; left; reflexivity).
  split; [exact D | split; [exact K | split; [exact I|]]].
  destruct (proj1 (factory_success_installs (T:=Z) (U:=string))
              Scenario.invoked 1%nat 42%Z 5%Z (0, 0) D K I)
    as (_ & H & _).
  apply H. vm_compute. discriminate.
Defined.

Lemma factory_failure_installs_witness :
  Poll.isDisposed Scenario.invoked = false /\
  Poll._tick (Poll.this Scenario.invoked) = Some 1%nat /\
  In 1%nat (Poll.inflight (Poll.host Scenario.invoked)) /\
  State.phase
    (Poll.state
       (Poll.step Scenario.invoked
          (Poll.FactorySettled 1 (inr "x"%string) 5 (0, 0))))
  = Phase.rejected.
Proof.
  assert (D : Poll.isDisposed Scenario.invoked = false)
    by (vm_compute; reflexivity).
  assert (K : Poll._tick (Poll.this Scenario.invoked) = Some 1%nat)
    by (vm_compute; reflexivity).
  assert (I : In 1%nat (Poll.inflight (Poll.host Scenario.invoked)))
    by (vm_compute; left; reflexivity).
  split; [exact D | split; [exact K | split; [exact I|]]].
  apply (proj1 (factory_failure_installs (T:=Z) (U:=string))
           Scenario.invoked 1%nat "x"%string 5%Z (0, 0) D K I).
Defined.

(** * The transitions of a poll *)

Section Transitions.
Context {T U : Type}.
Implicit Types (w : Poll.World T U) (s : State.t T U) (e : Poll.Event T U).

Lemma quiet_refl w : quiet [] w w.
Proof. split; auto. Qed.

Lemma quiet_close_gate w : quiet [] w (Poll.close_gate w).
Proof. split; auto. Qed.

Lemma quiet_observe (o : Poll.Obs T U) w : quiet [o] w (Poll.observe o w).
Proof. split; auto. Qed.

Lemma quiet_disarm (h : nat) w : quiet [] w (Poll.disarm h w).
Proof.
  split; auto. cbn. intros t H. apply List.filter_In in H. tauto.
Qed.

Lemma quiet_land (poll : nat) w : quiet [] w (Poll.land poll w).
Proof.
  split; auto. cbn. intros t H. apply List.filter_In in H. tauto.
Qed.

Lemma find_timer_spec (h : nat) (armed : list Timer.t) (t : Timer.t) :
  Poll.find_timer h armed = Some t -> In t armed /\ Timer.handle t = h.
Proof.
  unfold Poll.find_timer. intros H. apply find_some in H.
  destruct H as [H1 H2]. apply Nat.eqb_eq in H2. tauto.
Qed.

(** Every event is one of the five actions. *)
Lemma step_action w e : action w (Poll.step w e).
Proof.
  destruct e as [ok now | h hidden now rnd | poll [v|r] now rnd | now | |];
    unfold Poll.step.
  - destruct (Poll.when_pending (Poll.host w) && _);
      [|apply act_quiet, quiet_refl].
    unfold Poll.on_when.
    destruct (Poll._isDisposed (Poll.this (Poll.close_gate w))) eqn:D;
      [apply act_quiet, quiet_close_gate|].
    destruct ok.
    + eapply act_install;
        [apply quiet_close_gate | exact (from_when w true now D)
        | left; apply quiet_refl].
    + eapply act_install;
        [apply quiet_close_gate | exact (from_when w false now D)
        | right; eexists; apply quiet_observe].
  - destruct (Poll.find_timer h _) as [t|] eqn:F;
      [|apply act_quiet, quiet_refl].
    apply find_timer_spec in F. destruct F as [F _].
    unfold Poll._execute.
    destruct (Poll._isDisposed (Poll.this (Poll.disarm h w))) eqn:D;
      [apply act_quiet, quiet_disarm|].
    destruct hidden.
    + eapply act_install;
        [apply quiet_disarm | exact (from_hidden w t now rnd D F)
        | left; apply quiet_refl].
    + apply act_invoke; [exact D | exact F | apply quiet_disarm].
  - destruct (existsb _ _) eqn:I; [|apply act_quiet, quiet_refl].
    apply inflight_spec in I. unfold Poll.on_fulfilled.
    destruct (Poll._isDisposed (Poll.this (Poll.land poll w))) eqn:D;
      [apply act_quiet, quiet_land|].
    destruct (Poll.same_delegate poll _) eqn:K; cbn [negb];
      [|apply act_quiet, quiet_land].
    apply same_delegate_spec in K.
    eapply act_install;
      [apply quiet_land | exact (from_success w poll v now rnd D K I)
      | left; apply quiet_refl].
  - destruct (existsb _ _) eqn:I; [|apply act_quiet, quiet_refl].
    apply inflight_spec in I. unfold Poll.on_rejected.
    destruct (Poll._isDisposed (Poll.this (Poll.land poll w))) eqn:D;
      [apply act_quiet, quiet_land|].
    destruct (Poll.same_delegate poll _) eqn:K; cbn [negb];
      [|apply act_quiet, quiet_land].
    apply same_delegate_spec in K.
    eapply act_install;
      [apply quiet_land | exact (from_failure w poll r now rnd D K I)
      | left; apply quiet_refl].
  - eapply act_install;
      [apply quiet_refl | exact (from_refresh w now) | left; apply quiet_refl].
  - destruct (Poll.isDisposed w) eqn:D.
    + unfold Poll.dispose. unfold Poll.isDisposed in D. rewrite D.
      apply act_quiet, quiet_refl.
    + apply act_dispose, D.
  - unfold Poll.run_job. destruct (Poll.jobs (Poll.host w));
      [apply act_quiet, quiet_refl | apply act_emit; split; auto].
Qed.

End Transitions.

(** * Disposal *)

Section Disposal.
Context {T U : Type}.
Implicit Types (w : Poll.World T U) (s : State.t T U) (e : Poll.Event T U).

Lemma dispose_live w :
  Poll.isDisposed w = false ->
  Poll.this (Poll.dispose w) = disposed_object (Poll.this w) /\
  Poll.next_promise (Poll.host (Poll.dispose w))
    = Poll.next_promise (Poll.host w) /\
  Poll.timers (Poll.host (Poll.dispose w)) = Poll.timers (Poll.host w) /\
  Poll.inflight (Poll.host (Poll.dispose w)) = Poll.inflight (Poll.host w) /\
  Poll.trace (Poll.host (Poll.dispose w))
    = Poll.Disposed :: Poll.trace (Poll.host w).
Proof.
  unfold Poll.isDisposed, Poll.dispose. intros ->.
  destruct (Poll._tick (Poll.this w)) as [poll|]; cbn [Poll.observe Poll.this
    Poll.host Poll.next_promise Poll.timers Poll.inflight Poll.trace].
  - match goal with |- context [Poll.promise_reject ?a ?b ?c] =>
      destruct (promise_reject_frame a b c)
        as (E1 & E2 & E3 & _ & _ & _ & E4 & E5)
    end.
    rewrite E1, E2, E3, E4, E5. repeat split.
  - repeat split.
Qed.

Lemma dispose_tick w :
  Poll.isDisposed w = false -> Poll._tick (Poll.this (Poll.dispose w)) = None.
Proof. intros D. destruct (dispose_live w D) as (-> & _). reflexivity. Qed.

Lemma dispose_disposed w :
  Poll.isDisposed w = true -> Poll.dispose w = w.
Proof. unfold Poll.isDisposed, Poll.dispose. intros ->. reflexivity. Qed.

End Disposal.

(** * Well-formed worlds *)

Section WellFormed.
Context {T U : Type}.
Implicit Types (w : Poll.World T U) (s : State.t T U) (e : Poll.Event T U).

Lemma wf_constructor (o : IOptions.t) (now : Z) w :
  Poll.constructor o now = Ok w -> wf w.
Proof.
  unfold Poll.constructor.
  destruct (js_gt _ _); [discriminate|].
  destruct (_ || _); [discriminate|].
  intros [= <-]. split; cbn.
  - lia.
  - intros q [= <-]. split; [lia | apply lookup_singleton_eq].
  - intros _. eexists; reflexivity.
  - intros t [].
  - intros q [].
Qed.

Lemma wf_quiet l w w' : wf w -> quiet l w w' -> wf w'.
Proof.
  intros [H1 H2 H3 H4 H5] [Q1 Q2 Q3 Q4 Q5 _].
  split; unfold Poll.isDisposed in *; rewrite ?Q1, ?Q2, ?Q3; auto.
Qed.

Lemma clearTimeout_In (h : nat) (armed : list Timer.t) (t : Timer.t) :
  In t (clearTimeout h armed) -> In t armed.
Proof. unfold clearTimeout. intros H. apply List.filter_In in H. tauto. Qed.

Lemma wf_resolve (poll : option nat) s w :
  wf w ->
  (forall p, poll = Some p -> (p < Poll.next_promise (Poll.host w))%nat) ->
  wf (fst (Poll._resolve poll s w)).
Proof.
  intros [H1 H2 H3 H4 H5] B.
  destruct (_resolve_frame poll s w) as (E1 & E2 & E3 & _ & _ & _ & E4 & _).
  split; unfold Poll.isDisposed; rewrite ?E1, ?E2, ?E3, ?E4;
    cbn [Poll._schedule Poll.this Poll.host Poll._tick Poll.next_promise
         Poll.timers Poll.inflight].
  - lia.
  - intros q [= <-]. split; [lia|].
    unfold Poll._resolve. cbn [fst]. destruct poll as [p|].
    + rewrite notify_other by (specialize (B p eq_refl); lia).
      apply lookup_insert_eq.
    + apply lookup_insert_eq.
  - intros _. eexists; reflexivity.
  - intros t H. apply in_app_or in H. destruct H as [H | [<- | []]].
    + apply clearTimeout_In, H4 in H. lia.
    + cbn. lia.
  - intros q H. apply H5 in H. lia.
Qed.

Lemma origin_allocated w (poll : option nat) s :
  wf w -> origin w poll s ->
  forall p, poll = Some p -> (p < Poll.next_promise (Poll.host w))%nat.
Proof.
  intros [H1 H2 H3 H4 H5] O p E. destruct O; subst.
  - injection E as <-. exact H1.
  - apply H2, E.
  - injection E as <-. apply H4. assumption.
  - injection E as <-. apply H2. assumption.
  - injection E as <-. apply H2. assumption.
Qed.

Lemma wf_action w w' : wf w -> action w w' -> wf w'.
Proof.
  intros W A. destruct A as [w' Q | w' Q | t w0 D I Q | D | poll s w0 w' Q O R].
  - exact (wf_quiet _ _ _ W Q).
  - exact (wf_quiet _ _ _ W Q).
  - pose proof (wf_quiet _ _ _ W Q) as [H1 H2 H3 H4 H5].
    pose proof (wf_timers _ W t I) as B.
    rewrite <- (quiet_next _ _ _ Q) in B.
    split; cbn; auto.
    intros q [<- | H]; auto.
  - destruct (dispose_live w D) as (E1 & E2 & E3 & E4 & _).
    destruct W as [H1 H2 H3 H4 H5].
    split; unfold Poll.isDisposed; rewrite ?E1, ?E2, ?E3, ?E4; cbn; auto.
    + intros q [=].
    + intros [=].
  - assert (W1 : wf (fst (Poll._resolve poll s w0))).
    { apply wf_resolve; [exact (wf_quiet _ _ _ W Q)|].
      rewrite (quiet_next _ _ _ Q). exact (origin_allocated w poll s W O). }
    destruct R as [R | [m R]]; exact (wf_quiet _ _ _ W1 R).
Qed.

Lemma wf_step w e : wf w -> wf (Poll.step w e).
Proof. intros W. exact (wf_action _ _ W (step_action w e)). Qed.

Lemma wf_run (es : list (Poll.Event T U)) w : wf w -> wf (Poll.run w es).
Proof.
  revert w. induction es as [|e es IH]; intros w W; [exact W|].
  apply IH, wf_step, W.
Qed.

Lemma wf_reachable w : Poll.reachable w -> wf w.
Proof.
  intros (o & now & w0 & es & C & <-).
  apply wf_run. exact (wf_constructor o now w0 C).
Qed.

End WellFormed.

(** * Supersession *)

Section Supersession.
Context {T U : Type}.
Implicit Types (w : Poll.World T U) (s : State.t T U) (e : Poll.Event T U).

Lemma next_promise_action w w' :
  action w w' ->
  (Poll.next_promise (Poll.host w) <= Poll.next_promise (Poll.host w'))%nat.
Proof.
  intros [w1 Q | w1 Q | t w0 D I Q | D | poll s w0 w1 Q O R].
  - rewrite (quiet_next _ _ _ Q). lia.
  - rewrite (quiet_next _ _ _ Q). lia.
  - cbn. rewrite (quiet_next _ _ _ Q). lia.
  - destruct (dispose_live w D) as (_ & -> & _). lia.
  - assert (Poll.next_promise (Poll.host w1)
            = S (Poll.next_promise (Poll.host w))) as ->; [|lia].
    destruct (_resolve_frame poll s w0) as (_ & E & _).
    destruct R as [R | [m R]]; rewrite (quiet_next _ _ _ R), E; cbn;
      rewrite (quiet_next _ _ _ Q); reflexivity.
Qed.

Lemma next_promise_run (es : list (Poll.Event T U)) w :
  (Poll.next_promise (Poll.host w)
   <= Poll.next_promise (Poll.host (Poll.run w es)))%nat.
Proof.
  revert w. induction es as [|e es IH]; intros w; cbn; [lia|].
  pose proof (next_promise_action _ _ (step_action w e)).
  specialize (IH (Poll.step w e)). unfold Poll.run in IH. lia.
Qed.

(** A delegate that has been replaced never becomes outstanding again. *)
Lemma superseded_action (poll : nat) w w' :
  superseded poll w -> action w w' -> superseded poll w'.
Proof.
  intros [B N] A. split.
  { pose proof (next_promise_action _ _ A). lia. }
  destruct A as [w1 Q | w1 Q | t w0 D I Q | D | poll' s w0 w1 Q O R].
  - rewrite (quiet_this _ _ _ Q). exact N.
  - rewrite (quiet_this _ _ _ Q). exact N.
  - cbn. rewrite (quiet_this _ _ _ Q). exact N.
  - destruct (dispose_live w D) as (-> & _). discriminate.
  - assert (Poll._tick (Poll.this w1)
            = Some (Poll.next_promise (Poll.host w))) as ->.
    { destruct R as [R | [m R]]; rewrite (quiet_this _ _ _ R), _resolve_this;
        cbn; rewrite (quiet_next _ _ _ Q); reflexivity. }
    intros [= E]. lia.
Qed.

Lemma superseded_run (poll : nat) (es : list (Poll.Event T U)) w :
  superseded poll w -> superseded poll (Poll.run w es).
Proof.
  revert w. induction es as [|e es IH]; intros w S; [exact S|].
  apply IH. exact (superseded_action poll _ _ S (step_action w e)).
Qed.

Lemma run_app (es1 es2 : list (Poll.Event T U)) w :
  Poll.run w (es1 ++ es2) = Poll.run (Poll.run w es1) es2.
Proof. apply fold_left_app. Qed.

(** The reactions of a factory promise whose delegate is not the
    outstanding tick return at once. *)
Lemma reactions_bail (poll : nat) w :
  Poll._tick (Poll.this w) <> Some poll ->
  (forall v now rnd, Poll.on_fulfilled poll v now rnd w = w) /\
  (forall r now rnd, Poll.on_rejected poll r now rnd w = w).
Proof.
  intros N.
  assert (K : Poll.same_delegate poll (Poll._tick (Poll.this w)) = false).
  { destruct (Poll.same_delegate _ _) eqn:K; [|reflexivity].
    apply same_delegate_spec in K. contradiction. }
  split; intros; unfold Poll.on_fulfilled, Poll.on_rejected; rewrite K;
    destruct (Poll._isDisposed _); reflexivity.
Qed.

Lemma settle_bails (poll : nat) (outcome : T + U) (now : Z) (rnd : Q * Q) w :
  Poll._tick (Poll.this w) <> Some poll ->
  Poll.step w (Poll.FactorySettled poll outcome now rnd) = w \/
  Poll.step w (Poll.FactorySettled poll outcome now rnd) = Poll.land poll w.
Proof.
  intros N. unfold Poll.step.
  destruct (existsb _ _); [right | left; reflexivity].
  destruct (reactions_bail poll (Poll.land poll w) N) as [F R].
  destruct outcome; [apply F | apply R].
Qed.

(** An event that installs a state replaces the outstanding tick by a
    delegate created then. *)
Lemma installing_action w w' :
  action w w' -> Poll.installed w' <> Poll.installed w ->
  Poll._tick (Poll.this w') = Some (Poll.next_promise (Poll.host w)).
Proof.
  intros [w1 Q | w1 Q | t w0 D I Q | D | poll s w0 w1 Q O R] N.
  - contradict N. unfold Poll.installed. rewrite (quiet_trace _ _ _ Q).
    reflexivity.
  - contradict N. unfold Poll.installed. rewrite (quiet_trace _ _ _ Q).
    reflexivity.
  - contradict N. unfold Poll.installed. cbn. rewrite (quiet_trace _ _ _ Q).
    reflexivity.
  - contradict N. unfold Poll.installed.
    destruct (dispose_live w D) as (_ & _ & _ & _ & ->). reflexivity.
  - destruct R as [R | [m R]]; rewrite (quiet_this _ _ _ R), _resolve_this;
      cbn; rewrite (quiet_next _ _ _ Q); reflexivity.
Qed.

(** C5: let [poll] be the outstanding tick of a reachable poll [w] (the tick
    a factory call is started for).  Every event that installs a state
    ([refresh()] among them) replaces it, and so does [dispose()] on a live
    poll.  Once, after some events [es1], the outstanding tick is no longer
    [poll], then after any further events [es2] the settlement of that call,
    fulfilled or rejected, changes nothing of the poll: its fields, the
    installed states, the observations, the timers and the promises are as
    before, and both reactions return the world as it is. *)
Theorem stale_settlement_discarded w (poll : nat) :
  Poll.reachable w ->
  Poll._tick (Poll.this w) = Some poll ->
  (forall e, Poll.installed (Poll.step w e) <> Poll.installed w ->
             Poll._tick (Poll.this (Poll.step w e)) <> Some poll) /\
  (Poll.isDisposed w = false ->
   Poll._tick (Poll.this (Poll.dispose w)) <> Some poll) /\
  (forall (es1 es2 : list (Poll.Event T U)),
     Poll._tick (Poll.this (Poll.run w es1)) <> Some poll ->
     let w' := Poll.run w (es1 ++ es2) in
     forall (outcome : T + U) (now : Z) (rnd : Q * Q),
       let w'' := Poll.step w' (Poll.FactorySettled poll outcome now rnd) in
       Poll.this w'' = Poll.this w' /\
       Poll.installed w'' = Poll.installed w' /\
       Poll.trace (Poll.host w'') = Poll.trace (Poll.host w') /\
       Poll.timers (Poll.host w'') = Poll.timers (Poll.host w') /\
       Poll.promises (Poll.host w'') = Poll.promises (Poll.host w') /\
       Poll.jobs (Poll.host w'') = Poll.jobs (Poll.host w') /\
       (forall v, Poll.on_fulfilled poll v now rnd w' = w') /\
       (forall r, Poll.on_rejected poll r now rnd w' = w')).
Proof.
  intros R K.
  pose proof (wf_tick w (wf_reachable w R) poll K) as [B _].
  split; [|split].
  - intros e N. rewrite (installing_action _ _ (step_action w e) N).
    intros [= E]. lia.
  - intros D. rewrite (dispose_tick w D). discriminate.
  - intros es1 es2 N w' outcome now rnd w''.
    assert (S1 : superseded poll (Poll.run w es1)).
    { split; [|exact N]. pose proof (next_promise_run es1 w). lia. }
    assert (S2 : superseded poll w').
    { unfold w'. rewrite run_app. apply superseded_run, S1. }
    destruct S2 as [_ N'].
    destruct (reactions_bail poll w' N') as [F J].
    destruct (settle_bails poll outcome now rnd w' N') as [E | E];
      unfold w''; rewrite E; repeat split; auto.
Qed.

End Supersession.

(** * [refresh()] *)

Section Refresh.
Context {T U : Type}.
Implicit Types (w : Poll.World T U) (s : State.t T U) (e : Poll.Event T U).

Lemma refresh_unfold (now : Z) w :
  Poll.refresh now w
  = (fst (Poll._resolve (Poll._tick (Poll.this w))
            (State.mk 0 None Phase.refresh now) w),
     Ok (Poll.next_promise (Poll.host w))).
Proof.
  unfold Poll.refresh. rewrite _resolve_returns. reflexivity.
Qed.

(** C7: on a reachable poll that is not disposed, [refresh()] installs the
    state [{interval: 0, payload: null, phase: 'refresh'}], fulfils the
    promise of the tick that was outstanding (it was pending), and returns
    the promise of the new outstanding tick, a pending promise distinct from
    the one it fulfilled; every factory call in flight is superseded: when
    it settles, with either outcome, the poll and its observations stay as
    they are. *)
Theorem refresh_installs (now : Z) w :
  Poll.reachable w ->
  Poll.isDisposed w = false ->
  let w' := fst (Poll.refresh now w) in
  Poll.state w' = State.mk 0 None Phase.refresh now /\
  Poll.installed w' = Poll.installed w ++ [State.mk 0 None Phase.refresh now] /\
  (exists old new : nat,
     Poll.tick w = Ok old /\
     Poll.promises (Poll.host w) !! old = Some (Pending 0) /\
     Poll.promises (Poll.host w') !! old = Some Fulfilled /\
     snd (Poll.refresh now w) = Ok new /\
     Poll.tick w' = Ok new /\
     new <> old /\
     Poll.promises (Poll.host w') !! new = Some (Pending 0)) /\
  (forall (poll : nat) (outcome : T + U) (now' : Z) (rnd : Q * Q),
     In poll (Poll.inflight (Poll.host w)) ->
     let w'' := Poll.step w' (Poll.FactorySettled poll outcome now' rnd) in
     Poll.this w'' = Poll.this w' /\
     Poll.trace (Poll.host w'') = Poll.trace (Poll.host w')).
Proof.
  intros R D w'. pose proof (wf_reachable w R) as W.
  destruct (wf_live w W D) as [old K].
  destruct (wf_tick w W old K) as [B P].
  unfold w'. rewrite refresh_unfold. cbn [fst snd]. rewrite K.
  set (st := State.mk 0 None Phase.refresh now).
  assert (Kn : Poll._tick (Poll.this (fst (Poll._resolve (Some old) st w)))
               = Some (Poll.next_promise (Poll.host w))).
  { rewrite _resolve_this. reflexivity. }
  split; [apply resolved_state|].
  split; [apply installed_cons, _resolve_trace|].
  split.
  - exists old, (Poll.next_promise (Poll.host w)).
    split; [unfold Poll.tick; rewrite K; reflexivity|].
    split; [exact P|].
    split.
    { unfold Poll._resolve. cbn [fst].
      apply (notify_pending old 0). cbn.
      rewrite lookup_insert_ne by lia. exact P. }
    split; [reflexivity|].
    split; [unfold Poll.tick; rewrite Kn; reflexivity|].
    split; [lia|].
    unfold Poll._resolve. cbn [fst].
    rewrite notify_other by lia. cbn. apply lookup_insert_eq.
  - intros poll outcome now' rnd I. cbv zeta.
    pose proof (wf_inflight w W poll I) as Bp.
    assert (N : Poll._tick (Poll.this (fst (Poll._resolve (Some old) st w)))
                <> Some poll).
    { rewrite Kn. intros [= E]. lia. }
    destruct (settle_bails poll outcome now' rnd _ N) as [E | E];
      rewrite E; split; reflexivity.
Qed.

End Refresh.

(** * Bounds on the installed intervals *)

Section Bounds.
Context {T U : Type}.
Implicit Types (w : Poll.World T U) (s : State.t T U) (e : Poll.Event T U)
  (p : Poll.t T U).

Lemma Math_round_integral (x : Q) : integral (Math_round x).
Proof. eexists. reflexivity. Qed.

Lemma jitter_integral (rnd : Q * Q) (base factor lo hi : Q) :
  factor == 0 -> integral (Private.jitter rnd base factor lo hi).
Proof. intros H. rewrite jitter_factor_0 by exact H. apply Math_round_integral. Qed.

(** [jitter] of a base that is an integer of the range stays in the range. *)
Lemma jitter_nominal (rnd : Q * Q) (base factor lo hi : Q) :
  integral base -> lo <= base <= hi ->
  lo <= Private.jitter rnd base factor lo hi <= hi.
Proof.
  intros [z ->] B. destruct (Qeq_dec factor 0) as [E | N].
  - rewrite jitter_factor_0 by exact E. rewrite Math_round_inject_Z. exact B.
  - apply jitter_bounds; [exact N | lra].
Qed.

Lemma tuned_constructor (o : IOptions.t) (now : Z) w :
  Poll.constructor o now = Ok w ->
  Poll.min (Poll.this w) <= Poll.interval (Poll.this w)
                         <= Poll.max (Poll.this w) ->
  tuned w /\ traced w.
Proof.
  unfold Poll.constructor.
  destruct (js_gt _ _); [discriminate|].
  destruct (_ || _); [discriminate|].
  intros [= <-]. cbn. intros V. split; [split; cbn|].
  - exact V.
  - destruct (IOptions.min o); [apply Qabs_nonneg | discriminate].
  - destruct (IOptions.interval o);
      [apply Math_round_integral | exists 1000%Z; reflexivity].
  - intros _. destruct (IOptions.interval o);
      [apply Math_round_integral | exists 1000%Z; reflexivity].
  - intros s [].
Qed.

Lemma origin_bounded w (poll : option nat) s :
  tuned w -> origin w poll s -> bounded (Poll.this w) s.
Proof.
  intros [V M I S] O. destruct O; unfold bounded; cbn [State.phase
    State.interval success_state failure_state].
  - split; [destruct ok; discriminate | intros _ _; exact V].
  - split; [reflexivity | congruence].
  - split; [discriminate | intros _ _; apply jitter_nominal; assumption].
  - split; [destruct (Phase.eqb _ _); discriminate|].
    intros _ _. apply jitter_nominal; assumption.
  - split; [discriminate|]. intros _ [N | N]; [|congruence].
    apply jitter_bounds; [exact N | lra].
Qed.

Lemma origin_integral w (poll : option nat) s :
  tuned w -> origin w poll s ->
  Poll.variance (Poll.this w) == 0 -> integral (State.interval s).
Proof.
  intros [V M I S] O E. destruct O; cbn [State.interval success_state
    failure_state].
  - exact I.
  - exists 0%Z. reflexivity.
  - apply jitter_integral, E.
  - apply jitter_integral, E.
  - apply jitter_integral, E.
Qed.

(** An installation leaves the configuration as it is. *)
Lemma install_config (poll : option nat) s w0 w' w (l : list (Poll.Obs T U)) :
  quiet [] w w0 -> quiet l (fst (Poll._resolve poll s w0)) w' ->
  Poll.interval (Poll.this w') = Poll.interval (Poll.this w) /\
  Poll.max (Poll.this w') = Poll.max (Poll.this w) /\
  Poll.min (Poll.this w') = Poll.min (Poll.this w) /\
  Poll.variance (Poll.this w') = Poll.variance (Poll.this w) /\
  Poll.state w' = s.
Proof.
  intros Q R. unfold Poll.state.
  rewrite (quiet_this _ _ _ R), _resolve_this. cbn.
  rewrite (quiet_this _ _ _ Q). repeat split.
Qed.

Lemma tuned_action w w' : tuned w -> action w w' -> tuned w'.
Proof.
  intros W A. pose proof W as [V M I S].
  destruct A as [w1 Q | w1 Q | t w0 D F Q | D | poll s w0 w1 Q O R].
  - split; unfold Poll.state; rewrite (quiet_this _ _ _ Q); assumption.
  - split; unfold Poll.state; rewrite (quiet_this _ _ _ Q); assumption.
  - split; unfold Poll.state; cbn; rewrite (quiet_this _ _ _ Q); assumption.
  - destruct (dispose_live w D) as (E & _).
    split; unfold Poll.state; rewrite E; assumption.
  - assert (C : Poll.interval (Poll.this w1) = Poll.interval (Poll.this w) /\
                Poll.max (Poll.this w1) = Poll.max (Poll.this w) /\
                Poll.min (Poll.this w1) = Poll.min (Poll.this w) /\
                Poll.variance (Poll.this w1) = Poll.variance (Poll.this w) /\
                Poll.state w1 = s).
    { destruct R as [R | [m R]]; exact (install_config _ _ _ _ _ _ Q R). }
    destruct C as (C1 & C2 & C3 & C4 & C5).
    split; rewrite ?C1, ?C2, ?C3, ?C4, ?C5; try assumption.
    exact (origin_integral w poll s W O).
Qed.

Lemma bounded_config p p' s :
  Poll.max p' = Poll.max p -> Poll.min p' = Poll.min p ->
  Poll.variance p' = Poll.variance p ->
  bounded p s -> bounded p' s.
Proof. unfold bounded. intros -> -> ->. tauto. Qed.

Lemma traced_action w w' : tuned w -> traced w -> action w w' -> traced w'.
Proof.
  intros W Tr A.
  destruct A as [w1 Q | w1 Q | t w0 D F Q | D | poll s w0 w1 Q O R];
    intros s' H.
  - rewrite (quiet_this _ _ _ Q). rewrite (quiet_trace _ _ _ Q) in H.
    apply Tr, H.
  - rewrite (quiet_this _ _ _ Q). rewrite (quiet_trace _ _ _ Q) in H.
    destruct H as [[=] | H]. apply Tr, H.
  - cbn in H |- *. rewrite (quiet_this _ _ _ Q).
    rewrite (quiet_trace _ _ _ Q) in H.
    destruct H as [[=] | H]. apply Tr, H.
  - destruct (dispose_live w D) as (E & _ & _ & _ & E').
    rewrite E' in H. destruct H as [[=] | H].
    apply (bounded_config (Poll.this w)); try (rewrite E; reflexivity).
    apply Tr, H.
  - assert (C : (Poll.max (Poll.this w1) = Poll.max (Poll.this w) /\
                 Poll.min (Poll.this w1) = Poll.min (Poll.this w) /\
                 Poll.variance (Poll.this w1) = Poll.variance (Poll.this w)) /\
                (s' = s \/
                 In (Poll.Installed s') (Poll.trace (Poll.host w)))).
    { destruct R as [R | [m R]];
        destruct (install_config _ _ _ _ _ _ Q R) as (_ & C2 & C3 & C4 & _);
        (split; [auto|]);
        rewrite (quiet_trace _ _ _ R), _resolve_trace,
          (quiet_trace _ _ _ Q) in H; cbn in H.
      - destruct H as [[= ->] | H]; auto.
      - destruct H as [[=] | [[= ->] | H]]; auto. }
    destruct C as ((C2 & C3 & C4) & [-> | H']);
      apply (bounded_config (Poll.this w)); auto.
    exact (origin_bounded w poll s W O).
Qed.

Lemma tuned_run (es : list (Poll.Event T U)) w :
  tuned w -> traced w -> tuned (Poll.run w es) /\ traced (Poll.run w es).
Proof.
  revert w. induction es as [|e es IH]; intros w W Tr; [tauto|].
  apply IH.
  - exact (tuned_action _ _ W (step_action w e)).
  - exact (traced_action _ _ W Tr (step_action w e)).
Qed.

Lemma config_run (es : list (Poll.Event T U)) w :
  Poll.max (Poll.this (Poll.run w es)) = Poll.max (Poll.this w) /\
  Poll.min (Poll.this (Poll.run w es)) = Poll.min (Poll.this w) /\
  Poll.variance (Poll.this (Poll.run w es)) = Poll.variance (Poll.this w).
Proof.
  revert w. induction es as [|e es IH]; intros w; [tauto|].
  change (Poll.run w (e :: es)) with (Poll.run (Poll.step w e) es).
  destruct (IH (Poll.step w e)) as (-> & -> & ->). clear IH.
  destruct (step_action w e) as [w1 Q | w1 Q | t w0 D F Q | D | poll s w0 w1 Q O R].
  - rewrite (quiet_this _ _ _ Q). tauto.
  - rewrite (quiet_this _ _ _ Q). tauto.
  - cbn. rewrite (quiet_this _ _ _ Q). tauto.
  - destruct (dispose_live w D) as (-> & _). tauto.
  - destruct R as [R | [m R]];
      destruct (install_config _ _ _ _ _ _ Q R) as (_ & -> & -> & -> & _);
      tauto.
Qed.

Lemma installed_In s w :
  In s (Poll.installed w) <->
  In (Poll.Installed s) (Poll.trace (Poll.host w)).
Proof.
  unfold Poll.installed. rewrite <- in_rev.
  induction (Poll.trace (Poll.host w)) as [|o l IH]; [tauto|].
  destruct o as [s0| | | |]; cbn; rewrite IH;
    split; intros H; try (right; tauto); try tauto.
  - destruct H as [-> | H]; auto.
  - destruct H as [[= ->] | H]; auto.
  - destruct H as [[=] | H]; auto.
  - destruct H as [[=] | H]; auto.
  - destruct H as [[=] | H]; auto.
  - destruct H as [[=] | H]; auto.
Qed.

End Bounds.

Lemma doubled_in_range (a b : Z) (lo : Q) :
  0 <= lo -> lo <= inject_Z a <= inject_Z b ->
  lo <= Math_round (Math_min (inject_Z a * 2) (inject_Z b)) <= inject_Z b.
Proof.
  intros L [A B].
  change (inject_Z a * 2) with (inject_Z (a * 2)).
  rewrite Math_min_inject_Z, Math_round_inject_Z.
  assert (Ha : (0 <= a)%Z)
    by (rewrite Zle_Qle; change (inject_Z 0) with 0; lra).
  rewrite <- Zle_Qle in B. split.
  - apply Qle_trans with (inject_Z a); [exact A|]. rewrite <- Zle_Qle. lia.
  - rewrite <- Zle_Qle. lia.
Qed.

Section BoundsClaim.
Context {T U : Type}.
Implicit Types (w : Poll.World T U) (s : State.t T U).

(** X20.  Where the installed intervals are within bounds.  For a poll
    constructed with a valid configuration ([min <= interval <= max]),
    every installed tick of phase [refresh] has interval [0], and every
    other installed tick has [min <= interval <= max] provided the variance
    is not [0] or the phase is not [rejected]; a [rejected] tick at variance
    [0] has [min <= interval <= max] whenever the tick before it has and
    [max] is an integer. *)
Theorem installed_interval_bounds (o : IOptions.t) (now : Z)
    (w0 : Poll.World T U) (es : list (Poll.Event T U)) :
  Poll.constructor o now = Ok w0 ->
  Poll.min (Poll.this w0) <= Poll.interval (Poll.this w0)
                          <= Poll.max (Poll.this w0) ->
  let w := Poll.run w0 es in
  (forall s, In s (Poll.installed w) ->
     (State.phase s = Phase.refresh -> State.interval s = 0) /\
     (State.phase s <> Phase.refresh ->
      ~ Poll.variance (Poll.this w0) == 0 \/
        State.phase s <> Phase.rejected ->
      Poll.min (Poll.this w0) <= State.interval s
                              <= Poll.max (Poll.this w0))) /\
  (forall (poll : nat) (r : U) (now' : Z) (rnd : Q * Q),
     Poll.isDisposed w = false ->
     Poll._tick (Poll.this w) = Some poll ->
     In poll (Poll.inflight (Poll.host w)) ->
     integral (Poll.max (Poll.this w0)) ->
     Poll.min (Poll.this w0) <= State.interval (Poll.state w)
                             <= Poll.max (Poll.this w0) ->
     Poll.min (Poll.this w0)
       <= State.interval
            (Poll.state
               (Poll.step w (Poll.FactorySettled poll (inr r) now' rnd)))
       <= Poll.max (Poll.this w0)).
Proof.
  intros C V w.
  destruct (tuned_constructor o now w0 C V) as [W0 Tr0].
  destruct (tuned_run es w0 W0 Tr0) as [W Tr]. fold w in W, Tr.
  destruct (config_run es w0) as (Cx & Cn & Cv). fold w in Cx, Cn, Cv.
  split.
  - intros s H. apply installed_In in H. specialize (Tr s H).
    unfold bounded in Tr. rewrite Cx, Cn, Cv in Tr. exact Tr.
  - intros poll r now' rnd D K I [b Hb] B.
    rewrite (step_rejected_current w poll r now' rnd D K I), resolved_state.
    unfold failure_state. cbn [State.interval].
    rewrite Cx, Cn, Cv.
    destruct (Qeq_dec (Poll.variance (Poll.this w0)) 0) as [E | N].
    + rewrite jitter_factor_0 by exact E.
      destruct (tuned_state w W) as [a Ha]; [rewrite Cv; exact E|].
      rewrite Ha in B |- *. rewrite Hb in B |- *.
      apply doubled_in_range; [|exact B].
      rewrite <- Cn. apply (tuned_min w W).
    + apply jitter_bounds; [exact N | lra].
Qed.

End BoundsClaim.

(** C4 at [refresh()] followed by failures of the factory, at variance [0].
    With [{interval: 1000, min: 100, max: 10000, variance: 0}] and the gate
    settled, [refresh()] installs interval [0]; from then on every failure
    of the factory installs a [rejected] tick with interval
    [round(min(0 * 2, 10000)) = 0], below [min = 100], however many
    failures follow: the interval is never increased, and each retry is
    requested for the next animation frame.  With a variance other than [0]
    the first of these failures installs [min]. *)
Theorem failures_after_refresh_stay_at_zero (n : nat) :
  let w := Scenario.stalled n in
  Poll.isDisposed w = false /\
  Poll.min (Poll.this w) = 100 /\
  Poll.max (Poll.this w) = 10000 /\
  Poll.variance (Poll.this w) = 0 /\
  Scenario.phases w
    = Phase.when_resolved :: Phase.refresh :: repeat Phase.rejected n /\
  Scenario.intervals w = 1000 :: 0 :: repeat 0 n /\
  State.interval (Poll.state w) = 0 /\
  Poll.state (Scenario.stalled 3)
    = State.mk 0 (Some (inr "x"%string)) Phase.rejected 0 /\
  Poll.timers (Poll.host (Scenario.stalled 3))
    = [Timer.mk 5 AnimationFrame 0 5] /\
  Poll.tick (Scenario.stalled 3) = Ok 5%nat.
Proof.
  intros w. destruct (stalled_armed n) as (A & Hi & Hp). fold w in A, Hi, Hp.
  split; [exact (armed_live _ _ A)|].
  split; [exact (armed_min _ _ A)|].
  split; [exact (armed_max _ _ A)|].
  split; [exact (armed_variance _ _ A)|].
  split; [exact Hp|]. split; [exact Hi|].
  split; [exact (armed_interval _ _ A)|].
  vm_compute. repeat split.
Qed.

(** The bound does not extend to the [rejected] ticks at variance [0]:
    with [{interval: 1000, min: 100, max: 10000, variance: 0}], after the
    gate has settled, [refresh()] installs interval [0]; the frame fires,
    the factory is called and fails; the installed tick has phase
    [rejected] and interval [round(min(0 * 2, 10000)) = 0], below
    [min = 100]. *)
Lemma rejected_after_refresh_below_min :
  ~ (forall (o : IOptions.t) (now : Z) (w0 : Poll.World Z string)
       (es : list (Poll.Event Z string)) (s : State.t Z string),
       Poll.constructor o now = Ok w0 ->
       Poll.min (Poll.this w0) <= Poll.interval (Poll.this w0)
                               <= Poll.max (Poll.this w0) ->
       In s (Poll.installed (Poll.run w0 es)) ->
       (State.phase s = Phase.refresh -> State.interval s = 0) /\
       (State.phase s <> Phase.refresh ->
        Poll.min (Poll.this w0) <= State.interval s
                                <= Poll.max (Poll.this w0))).
Proof.
  intros H.
  specialize (H Scenario.options 0%Z Scenario.created
                [Poll.WhenSettled true 0; Poll.RefreshCalled 1;
                 Poll.TimerFired 2 false 2 (0, 0);
                 Poll.FactorySettled 2 (inr "x"%string) 3 (0, 0)]
                (State.mk 0 (Some (inr "x"%string)) Phase.rejected 3)).
  destruct H as [_ H].
  - vm_compute. reflexivity.
  - split; vm_compute; discriminate.
  - vm_compute. right. right. left. reflexivity.
  - destruct H as [H _]; [discriminate|].
    vm_compute in H. apply H. reflexivity.
Qed.

(** Why [max] is asked to be an integer for [rejected] ticks at variance
    [0]: with [{interval: 2, min: 1, max: 2.5, variance: 0}] the first
    failure installs [round(min(2 * 2, 2.5)) = 3]. *)
Example rejected_rounds_above_fractional_max :
  let o := IOptions.mk (Some 2) (Some (5 # 2)) (Some 1) None (Some 0) false in
  let w0 : Poll.World Z string := value (Poll.constructor o 0) in
  let w := Poll.run w0 [Poll.WhenSettled true 0;
                        Poll.TimerFired 1 false 1 (0, 0);
                        Poll.FactorySettled 1 (inr "x"%string) 2 (0, 0)] in
  Poll.constructor o 0 = Ok w0 /\
  Poll.state w = State.mk 3 (Some (inr "x"%string)) Phase.rejected 2 /\
  Poll.max (Poll.this w) = 5 # 2.
Proof. vm_compute. repeat split. Qed.

Lemma installed_interval_bounds_witness :
  Poll.constructor Scenario.options 0 = Ok Scenario.created /\
  Poll.min (Poll.this Scenario.created)
    <= Poll.interval (Poll.this Scenario.created)
    <= Poll.max (Poll.this Scenario.created) /\
  (forall s,
     In s (Poll.installed
             (Poll.run Scenario.created
                [Poll.WhenSettled true 0; Poll.RefreshCalled 1])) ->
     (State.phase s = Phase.refresh -> State.interval s = 0) /\
     (State.phase s <> Phase.refresh ->
      ~ Poll.variance (Poll.this Scenario.created) == 0 \/
        State.phase s <> Phase.rejected ->
      Poll.min (Poll.this Scenario.created) <= State.interval s
        <= Poll.max (Poll.this Scenario.created))) /\
  Poll.min (Poll.this Scenario.created)
    <= State.interval
         (Poll.state
            (Poll.step Scenario.invoked
               (Poll.FactorySettled 1 (inr "x"%string) 2 (0, 0))))
    <= Poll.max (Poll.this Scenario.created).
Proof.
  assert (C : Poll.constructor Scenario.options 0 = Ok Scenario.created)
    by (vm_compute; reflexivity).
  assert (V : Poll.min (Poll.this Scenario.created)
              <= Poll.interval (Poll.this Scenario.created)
              <= Poll.max (Poll.this Scenario.created))
    by (split; vm_compute; discriminate).
  split; [exact C | split; [exact V|]]. split.
  - exact (proj1 (installed_interval_bounds Scenario.options 0
                    Scenario.created
                    [Poll.WhenSettled true 0; Poll.RefreshCalled 1] C V)).
  - apply (proj2 (installed_interval_bounds Scenario.options 0
                    Scenario.created
                    [Poll.WhenSettled true 0;
                     Poll.TimerFired 1 false 0 (0, 0)] C V)
             1%nat "x"%string 2%Z (0, 0)).
    + vm_compute. reflexivity.
    + vm_compute. reflexivity.
    + vm_compute. left. reflexivity.
    + exists 10000%Z. vm_compute. reflexivity.
    + split; vm_compute; discriminate.
Defined.

(** * After disposal *)

Section AfterDisposal.
Context {T U : Type}.
Implicit Types (w : Poll.World T U) (s : State.t T U) (e : Poll.Event T U).

Lemma dispose_isDisposed w : Poll.isDisposed (Poll.dispose w) = true.
Proof.
  destruct (Poll.isDisposed w) eqn:D.
  - rewrite dispose_disposed; assumption.
  - unfold Poll.isDisposed. destruct (dispose_live w D) as (-> & _).
    reflexivity.
Qed.

(** On a disposed poll every event other than a call of [refresh()] leaves
    the object as it is, calls no factory and installs no state; at most a
    [ticked] job queued earlier runs. *)
Lemma disposed_event e w :
  Poll.isDisposed w = true -> Poll.is_refresh e = false ->
  Poll.this (Poll.step w e) = Poll.this w /\
  (forall q, In q (Poll.inflight (Poll.host (Poll.step w e))) ->
             In q (Poll.inflight (Poll.host w))) /\
  (Poll.trace (Poll.host (Poll.step w e)) = Poll.trace (Poll.host w) \/
   Poll.trace (Poll.host (Poll.step w e))
     = Poll.Ticked :: Poll.trace (Poll.host w)).
Proof.
  unfold Poll.isDisposed. intros D N.
  destruct e as [ok now | h hidden now rnd | poll [v|r] now rnd | now | |];
    try discriminate N; unfold Poll.step.
  - destruct (_ && _); [|auto].
    unfold Poll.on_when. cbn [Poll.close_gate Poll.this]. rewrite D. auto.
  - destruct (Poll.find_timer _ _); [|auto].
    unfold Poll._execute. cbn [Poll.disarm Poll.this]. rewrite D. auto.
  - destruct (existsb _ _); [|auto].
    unfold Poll.on_fulfilled. cbn [Poll.land Poll.this]. rewrite D.
    split; [reflexivity|]. split; [apply (quiet_land poll w) | auto].
  - destruct (existsb _ _); [|auto].
    unfold Poll.on_rejected. cbn [Poll.land Poll.this]. rewrite D.
    split; [reflexivity|]. split; [apply (quiet_land poll w) | auto].
  - unfold Poll.dispose. rewrite D. auto.
  - unfold Poll.run_job. destruct (Poll.jobs _); auto.
Qed.

Lemma disposed_run (es : list (Poll.Event T U)) w :
  Poll.isDisposed w = true ->
  forallb (fun e => negb (Poll.is_refresh e)) es = true ->
  Poll.this (Poll.run w es) = Poll.this w.
Proof.
  revert w. induction es as [|e es IH]; intros w D N; [reflexivity|].
  cbn [forallb] in N. apply andb_prop in N. destruct N as [N1 N2].
  apply negb_true_iff in N1.
  destruct (disposed_event e w D N1) as (E & _).
  change (Poll.run w (e :: es)) with (Poll.run (Poll.step w e) es).
  rewrite IH; [exact E | | exact N2].
  unfold Poll.isDisposed. rewrite E. exact D.
Qed.

(** Once a poll is disposed it stays disposed and no factory call begins,
    whatever happens afterwards, calls of [refresh()] included. *)
Lemma disposed_never_invokes (es : list (Poll.Event T U)) w :
  Poll.isDisposed w = true ->
  Poll.isDisposed (Poll.run w es) = true /\
  invocations (Poll.run w es) = invocations w.
Proof.
  revert w. induction es as [|e es IH]; intros w D; [auto|].
  change (Poll.run w (e :: es)) with (Poll.run (Poll.step w e) es).
  assert (H : Poll.isDisposed (Poll.step w e) = true /\
              invocations (Poll.step w e) = invocations w).
  { unfold invocations, Poll.isDisposed in *.
    destruct (step_action w e)
      as [w1 Q | w1 Q | t w0 D' F Q | D' | poll s w0 w1 Q O R].
    - rewrite (quiet_this _ _ _ Q), (quiet_trace _ _ _ Q). auto.
    - rewrite (quiet_this _ _ _ Q), (quiet_trace _ _ _ Q). auto.
    - unfold Poll.isDisposed in D'. congruence.
    - unfold Poll.isDisposed in D'. congruence.
    - destruct R as [R | [m R]];
        rewrite (quiet_this _ _ _ R), (quiet_trace _ _ _ R), _resolve_this,
          _resolve_trace; cbn;
        rewrite (quiet_this _ _ _ Q), (quiet_trace _ _ _ Q); auto. }
  destruct H as [D1 E1]. destruct (IH _ D1) as [D2 E2].
  split; [exact D2 | congruence].
Qed.

(** C10: after [dispose()] has run on a poll that was not disposed, and as
    long as [refresh()] is not called, reading the [tick] accessor throws:
    [_tick] is [null] and the accessor dereferences it. *)
Theorem tick_throws_after_dispose w (es : list (Poll.Event T U)) :
  Poll.isDisposed w = false ->
  forallb (fun e => negb (Poll.is_refresh e)) es = true ->
  Poll._tick (Poll.this (Poll.run (Poll.dispose w) es)) = None /\
  exists message, Poll.tick (Poll.run (Poll.dispose w) es) = Throw message.
Proof.
  intros D N.
  assert (K : Poll._tick (Poll.this (Poll.run (Poll.dispose w) es)) = None).
  { rewrite (disposed_run es _ (dispose_isDisposed w) N).
    apply dispose_tick, D. }
  split; [exact K|]. unfold Poll.tick. rewrite K. eexists. reflexivity.
Qed.

(** C9, amended: [dispose()] does not cancel the pending timer or frame
    request: the armed handles and [_timeout] are as before; when a handle
    fires after the disposal the request returns at once, so the object, the
    calls in flight and the observations (no factory call, no installed
    state, no [ticked]) stay as they are. *)
Theorem dispose_keeps_timers w :
  Poll.timers (Poll.host (Poll.dispose w)) = Poll.timers (Poll.host w) /\
  Poll._timeout (Poll.this (Poll.dispose w)) = Poll._timeout (Poll.this w) /\
  forall (h : nat) (hidden : bool) (now : Z) (rnd : Q * Q),
    let w' := Poll.step (Poll.dispose w)
                (Poll.TimerFired h hidden now rnd) in
    Poll.this w' = Poll.this (Poll.dispose w) /\
    Poll.inflight (Poll.host w') = Poll.inflight (Poll.host (Poll.dispose w)) /\
    Poll.trace (Poll.host w') = Poll.trace (Poll.host (Poll.dispose w)).
Proof.
  split; [|split].
  - destruct (Poll.isDisposed w) eqn:D.
    + rewrite dispose_disposed; [reflexivity | exact D].
    + apply (dispose_live w D).
  - destruct (Poll.isDisposed w) eqn:D.
    + rewrite dispose_disposed; [reflexivity | exact D].
    + destruct (dispose_live w D) as (-> & _). reflexivity.
  - intros h hidden now rnd w'. unfold w', Poll.step.
    destruct (Poll.find_timer _ _); [|auto].
    unfold Poll._execute. cbn [Poll.disarm Poll.this].
    pose proof (dispose_isDisposed w) as D. unfold Poll.isDisposed in D.
    rewrite D. auto.
Qed.

End AfterDisposal.

Lemma started_reachable : Poll.reachable Scenario.started.
Proof.
  exists Scenario.options, 0%Z, Scenario.created, [Poll.WhenSettled true 0].
  split; vm_compute; reflexivity.
Qed.

Lemma invoked_reachable : Poll.reachable Scenario.invoked.
Proof.
  exists Scenario.options, 0%Z, Scenario.created,
    [Poll.WhenSettled true 0; Poll.TimerFired 1 false 0 (0, 0)].
  split; vm_compute; reflexivity.
Qed.

(** C9, as stated, fails: after the gate has settled a timeout of 1000 ms is
    armed; [dispose()] leaves it armed. *)
Lemma dispose_leaves_timer_armed :
  ~ (forall w : Poll.World Z string,
       Poll.reachable w -> Poll.isDisposed w = false ->
       Poll.timers (Poll.host (Poll.dispose w)) = []).
Proof.
  intros H.
  specialize (H Scenario.started started_reachable).
  assert (D : Poll.isDisposed Scenario.started = false)
    by (vm_compute; reflexivity).
  specialize (H D). vm_compute in H. discriminate H.
Qed.

Lemma tick_throws_after_dispose_witness :
  Poll.isDisposed Scenario.started = false /\
  exists message,
    Poll.tick
      (Poll.run (Poll.dispose Scenario.started)
         [Poll.TimerFired 1 false 3 (0, 0); Poll.JobRun]) = Throw message.
Proof.
  assert (D : Poll.isDisposed Scenario.started = false)
    by (vm_compute; reflexivity).
  split; [exact D|].
  apply (tick_throws_after_dispose Scenario.started
           [Poll.TimerFired 1 false 3 (0, 0); Poll.JobRun] D).
  vm_compute. reflexivity.
Defined.

(** C1 at [dispose(); refresh(); refresh()] after the first tick.
    [refresh()] does not look at [_isDisposed]: on any poll, disposed or
    not, it installs a [refresh] state.  In the scenario the first tick has
    been announced and no job is pending when the poll is disposed, in phase
    [when-resolved]; the first [refresh()] then installs a [refresh] state,
    re-creates the outstanding tick (so [tick] no longer throws) and arms a
    frame request; the second one resolves that tick, and the queued
    reaction emits [ticked] -- all after the [disposed] event.  The factory
    is not called. *)
Theorem refresh_after_dispose_installs :
  (forall (T U : Type) (w : Poll.World T U) (now : Z),
     let w' := Poll.step w (Poll.RefreshCalled now) in
     Poll.isDisposed w' = Poll.isDisposed w /\
     Poll.state w' = State.mk 0 None Phase.refresh now /\
     Poll.trace (Poll.host w')
       = Poll.Installed (State.mk 0 None Phase.refresh now)
           :: Poll.trace (Poll.host w)) /\
  (let w1 := Poll.dispose (Poll.step Scenario.started Poll.JobRun) in
   let w2 := Poll.step w1 (Poll.RefreshCalled 7) in
   let w3 := Poll.run w2 [Poll.RefreshCalled 8; Poll.JobRun] in
   Poll.isDisposed w1 = true /\
   Poll.jobs (Poll.host w1) = 0%nat /\
   Poll.state w1 = State.mk 1000 None Phase.when_resolved 0 /\
   Poll.isDisposed w2 = true /\
   Poll.state w2 = State.mk 0 None Phase.refresh 7 /\
   Poll.tick w2 = Ok 2%nat /\
   Poll.timers (Poll.host w2) = [Timer.mk 2 AnimationFrame 0 2] /\
   rev (Poll.trace (Poll.host w3))
     = [Poll.Installed (State.mk 1000 None Phase.when_resolved 0);
        Poll.Ticked;
        Poll.Disposed;
        Poll.Installed (State.mk 0 None Phase.refresh 7);
        Poll.Installed (State.mk 0 None Phase.refresh 8);
        Poll.Ticked]).
Proof.
  split.
  - intros T U w now w'. unfold w', Poll.step, Poll.refresh. cbn [fst].
    split; [|split].
    + unfold Poll.isDisposed. rewrite _resolve_this. reflexivity.
    + apply resolved_state.
    + apply _resolve_trace.
  - vm_compute. repeat split.
Qed.

Lemma stale_settlement_discarded_witness :
  Poll.reachable Scenario.invoked /\
  Poll._tick (Poll.this Scenario.invoked) = Some 1%nat /\
  Poll._tick (Poll.this (Poll.run Scenario.invoked [Poll.RefreshCalled 5]))
    <> Some 1%nat /\
  let w' := Poll.run Scenario.invoked ([Poll.RefreshCalled 5] ++ [Poll.JobRun]) in
  Poll.this (Poll.step w' (Poll.FactorySettled 1 (inl 42%Z) 9 (0, 0)))
  = Poll.this w'.
Proof.
  assert (K : Poll._tick (Poll.this Scenario.invoked) = Some 1%nat)
    by (vm_compute; reflexivity).
  assert (N : Poll._tick
                (Poll.this (Poll.run Scenario.invoked [Poll.RefreshCalled 5]))
              <> Some 1%nat)
    by (vm_compute; discriminate).
  split; [exact invoked_reachable | split; [exact K | split; [exact N|]]].
  intros w'.
  exact (proj1 (proj2 (proj2 (stale_settlement_discarded Scenario.invoked 1
                                invoked_reachable K))
                  [Poll.RefreshCalled 5] [Poll.JobRun] N
                  (inl 42%Z) 9%Z (0, 0))).
Defined.

Lemma refresh_installs_witness :
  Poll.reachable Scenario.invoked /\
  Poll.isDisposed Scenario.invoked = false /\
  Poll.state (fst (Poll.refresh 5 Scenario.invoked))
  = State.mk 0 None Phase.refresh 5.
Proof.
  assert (D : Poll.isDisposed Scenario.invoked = false)
    by (vm_compute; reflexivity).
  split; [exact invoked_reachable | split; [exact D|]].
  exact (proj1 (refresh_installs 5 Scenario.invoked invoked_reachable D)).
Defined.

(** * More on [Private.jitter]: the random branch *)

Lemma Math_round_nonneg (x : Q) : 0 <= x -> 0 <= Math_round x.
Proof.
  intros H. unfold Math_round. change 0 with (inject_Z 0).
  rewrite <- Zle_Qle. change 0%Z with (Qfloor 0).
  apply Qfloor_resp_le. lra.
Qed.

Lemma Qmin_cases (x y : Q) : Qmin x y = x \/ Qmin x y = y.
Proof.
  unfold Qmin, GenericMinMax.gmin. destruct (x ?= y); auto.
Qed.

Lemma Qmax_cases (x y : Q) : Qmax x y = x \/ Qmax x y = y.
Proof.
  unfold Qmax, GenericMinMax.gmax. destruct (x ?= y); auto.
Qed.

(** X1.  With a factor other than [0] and [min <= max], [jitter] returns a
    value of [[min, max]] whatever the base and the random draws are, and
    that value is [min], [max] or a non-negative integer. *)
Theorem jitter_in_range (rnd : Q * Q) (base factor lo hi : Q) :
  ~ factor == 0 -> lo <= hi ->
  let r := Private.jitter rnd base factor lo hi in
  lo <= r <= hi /\
  (r = lo \/ r = hi \/ exists n : Z, (0 <= n)%Z /\ r = inject_Z n).
Proof.
  intros N H r. split; [apply jitter_bounds; assumption|].
  unfold r, Private.jitter. rewrite (Qeq_bool_false _ _ N).
  unfold Math_min, Math_max.
  destruct (Qmin_cases (Qmax lo (Math_abs (Math_round
             (base + snd rnd * base * Math_abs factor *
                (if negb (Qle_bool (1 # 2) (fst rnd)) then 1 else - (1))))))
             hi) as [-> | ->]; [|auto].
  match goal with |- context [Qmax lo ?c] =>
    destruct (Qmax_cases lo c) as [-> | ->]; [auto|]
  end.
  right. right. unfold Math_round.
  match goal with |- context [Qfloor ?x] => exists (Z.abs (Qfloor x)) end.
  split; [apply Z.abs_nonneg | reflexivity].
Qed.

Lemma jitter_in_range_witness :
  ~ (1 # 5) == 0 /\ 100 <= 10000 /\
  100 <= Private.jitter (0, 1 # 2) 1000 (1 # 5) 100 10000 <= 10000.
Proof.
  assert (N : ~ (1 # 5) == 0) by (vm_compute; discriminate).
  assert (H : 100 <= 10000) by (vm_compute; discriminate).
  split; [exact N | split; [exact H|]].
  exact (proj1 (jitter_in_range (0, 1 # 2) 1000 (1 # 5) 100 10000 N H)).
Defined.

(** * More on construction *)

Section ConstructionExtra.
Context {T U : Type}.

(** X3.  What the constructor records is normalised: the interval is a
    non-negative integer, [max] and [min] are non-negative, the name is not
    empty, and a defaulted [max] is at least the interval.  When [min] and
    [max] are both omitted nothing is validated: the poll is always
    created, and its recorded bounds satisfy [min <= interval <= max]
    exactly when the recorded interval is at least the default [min],
    [100]. *)
Theorem constructor_normalises (o : IOptions.t) (now : Z) :
  (forall w : Poll.World T U, Poll.constructor o now = Ok w ->
     0 <= Poll.interval (Poll.this w) /\
     integral (Poll.interval (Poll.this w)) /\
     0 <= Poll.max (Poll.this w) /\
     0 <= Poll.min (Poll.this w) /\
     Poll.name (Poll.this w) <> ""%string /\
     (IOptions.max o = None ->
      Poll.interval (Poll.this w) <= Poll.max (Poll.this w))) /\
  (IOptions.min o = None -> IOptions.max o = None ->
   exists w : Poll.World T U,
     Poll.constructor o now = Ok w /\
     (Poll.min (Poll.this w) <= Poll.interval (Poll.this w)
                             <= Poll.max (Poll.this w)
      <-> 100 <= Poll.interval (Poll.this w))).
Proof.
  assert (I : forall i : option Q,
            0 <= match i with
                 | Some i => Math_round (Math_abs i)
                 | None => 1000
                 end).
  { intros [i|]; [apply Math_round_nonneg, Qabs_nonneg | discriminate]. }
  split.
  - intros w. unfold Poll.constructor.
    destruct (js_gt _ _); [discriminate|].
    destruct (_ || _); [discriminate|].
    intros [= <-]. cbn. specialize (I (IOptions.interval o)).
    split; [exact I|]. split.
    { destruct (IOptions.interval o);
        [apply Math_round_integral | exists 1000%Z; reflexivity]. }
    split.
    { destruct (IOptions.max o); [apply Qabs_nonneg | lra]. }
    split.
    { destruct (IOptions.min o); [apply Qabs_nonneg | discriminate]. }
    split.
    { unfold Poll.default_name. destruct (IOptions.name o) as [n|];
        [|discriminate].
      destruct (String.eqb n "") eqn:E; [discriminate|].
      apply String.eqb_neq, E. }
    intros ->. lra.
  - intros Hn Hx. unfold Poll.constructor. rewrite Hn, Hx.
    replace (js_gt (IOptions.interval o) None) with false
      by (destruct (IOptions.interval o); reflexivity).
    cbn [js_gt orb]. eexists. split; [reflexivity|]. cbn.
    specialize (I (IOptions.interval o)). split; [tauto | lra].
Qed.

End ConstructionExtra.

Lemma constructor_normalises_witness :
  Poll.constructor (T:=Z) (U:=string) Scenario.options 0 = Ok Scenario.created /\
  0 <= Poll.interval (Poll.this Scenario.created) /\
  integral (Poll.interval (Poll.this Scenario.created)).
Proof.
  assert (C : Poll.constructor Scenario.options 0 = Ok Scenario.created)
    by (vm_compute; reflexivity).
  split; [exact C|].
  destruct (proj1 (constructor_normalises (T:=Z) (U:=string)
                     Scenario.options 0) Scenario.created C)
    as (H1 & H2 & _).
  split; assumption.
Defined.

(** * The outcome of an event, by the code that runs *)

Section Outcomes.
Context {T U : Type}.
Implicit Types (w : Poll.World T U) (s : State.t T U) (e : Poll.Event T U).

Lemma step_outcome w e : outcome w (Poll.step w e).
Proof.
  destruct e as [ok now | h hidden now rnd | poll [v|r] now rnd | now | |];
    unfold Poll.step.
  - destruct (Poll.when_pending (Poll.host w) && _);
      [|apply out_idle, prep_same].
    unfold Poll.on_when.
    destruct (Poll._isDisposed (Poll.this (Poll.close_gate w))) eqn:D;
      [apply out_idle, prep_gate|].
    destruct ok.
    + exact (out_install w _ _ _ (prep_gate w) (from_when w true now D)).
    + exact (out_warn w _ _ _ _ (prep_gate w) (from_when w false now D)).
  - destruct (Poll.find_timer h _) as [t|] eqn:F;
      [|apply out_idle, prep_same].
    apply find_timer_spec in F. destruct F as [F <-].
    unfold Poll._execute.
    destruct (Poll._isDisposed
                (Poll.this (Poll.disarm (Timer.handle t) w))) eqn:D;
      [apply out_idle, prep_timer|].
    destruct hidden.
    + exact (out_install w _ _ _ (prep_timer w _)
               (from_hidden w t now rnd D F)).
    + exact (out_invoke w t D F).
  - destruct (existsb _ _) eqn:I; [|apply out_idle, prep_same].
    apply inflight_spec in I. unfold Poll.on_fulfilled.
    destruct (Poll._isDisposed (Poll.this (Poll.land poll w))) eqn:D;
      [apply out_idle, prep_settled|].
    destruct (Poll.same_delegate poll _) eqn:K; cbn [negb];
      [|apply out_idle, prep_settled].
    apply same_delegate_spec in K.
    exact (out_install w _ _ _ (prep_settled w poll)
             (from_success w poll v now rnd D K I)).
  - destruct (existsb _ _) eqn:I; [|apply out_idle, prep_same].
    apply inflight_spec in I. unfold Poll.on_rejected.
    destruct (Poll._isDisposed (Poll.this (Poll.land poll w))) eqn:D;
      [apply out_idle, prep_settled|].
    destruct (Poll.same_delegate poll _) eqn:K; cbn [negb];
      [|apply out_idle, prep_settled].
    apply same_delegate_spec in K.
    exact (out_install w _ _ _ (prep_settled w poll)
             (from_failure w poll r now rnd D K I)).
  - exact (out_install w _ _ _ (prep_same w) (from_refresh w now)).
  - destruct (Poll.isDisposed w) eqn:D.
    + rewrite (dispose_disposed w D). apply out_idle, prep_same.
    + apply out_dispose, D.
  - apply out_job.
Qed.

(** The bookkeeping of the host touches neither the object nor the
    promises, the counters, the job queue or the trace, and arms nothing. *)
Lemma prepared_frame w w0 :
  prepared w w0 ->
  Poll.this w0 = Poll.this w /\
  Poll.promises (Poll.host w0) = Poll.promises (Poll.host w) /\
  Poll.next_promise (Poll.host w0) = Poll.next_promise (Poll.host w) /\
  Poll.next_handle (Poll.host w0) = Poll.next_handle (Poll.host w) /\
  Poll.jobs (Poll.host w0) = Poll.jobs (Poll.host w) /\
  Poll.trace (Poll.host w0) = Poll.trace (Poll.host w) /\
  (forall t, In t (Poll.timers (Poll.host w0)) ->
             In t (Poll.timers (Poll.host w))) /\
  (forall q, In q (Poll.inflight (Poll.host w0)) ->
             In q (Poll.inflight (Poll.host w))).
Proof.
  intros [| | h | poll]; cbn; repeat split; auto;
    intros x H; apply List.filter_In in H; tauto.
Qed.

Lemma reachable_constructor (o : IOptions.t) (now : Z) w :
  Poll.constructor o now = Ok w -> Poll.reachable w.
Proof. intros C. exists o, now, w, []. split; [exact C | reflexivity]. Qed.

Lemma reachable_step w e : Poll.reachable w -> Poll.reachable (Poll.step w e).
Proof.
  intros (o & now & w0 & es & C & <-).
  exists o, now, w0, (es ++ [e]). split; [exact C|].
  rewrite run_app. reflexivity.
Qed.

Lemma reachable_run (es : list (Poll.Event T U)) w :
  Poll.reachable w -> Poll.reachable (Poll.run w es).
Proof.
  revert w. induction es as [|e es IH]; intros w R; [exact R|].
  apply IH, reachable_step, R.
Qed.

(** Induction over the reachable worlds. *)
Lemma reachable_invariant (I : Poll.World T U -> Prop) :
  (forall o now w, Poll.constructor o now = Ok w -> I w) ->
  (forall w w', Poll.reachable w -> I w -> outcome w w' -> I w') ->
  forall w, Poll.reachable w -> I w.
Proof.
  intros Base Step w (o & now & w0 & es & C & <-).
  assert (G : forall es w, Poll.reachable w -> I w -> I (Poll.run w es)).
  { clear - Step. intros es.
    induction es as [|e es IH]; intros w R H; [exact H|].
    apply IH; [apply reachable_step, R|].
    exact (Step w _ R H (step_outcome w e)). }
  apply G; [exact (reachable_constructor o now w0 C) | exact (Base o now w0 C)].
Qed.

End Outcomes.

(** * The promise table and the job queue *)

Section Promises.
Context {T U : Type}.
Implicit Types (w : Poll.World T U) (s : State.t T U) (e : Poll.Event T U).

Lemma notify_states (poll q : nat) (st : PromiseState) w :
  Poll.promises
    (Poll.host (Poll.promise_resolve poll (Poll.promise_then poll w))) !! q
  = Some st ->
  Poll.promises (Poll.host w) !! q = Some st \/
  (q = poll /\ st = Fulfilled /\
   exists n, Poll.promises (Poll.host w) !! q = Some (Pending n)).
Proof.
  destruct (decide (q = poll)) as [-> | N].
  - destruct (Poll.promises (Poll.host w) !! poll) as [[n| |m]|] eqn:E.
    + rewrite (notify_pending poll n w E). intros [= <-]. eauto.
    + unfold Poll.promise_resolve, Poll.promise_then. rewrite E. cbn.
      rewrite E. cbn. rewrite E. auto.
    + unfold Poll.promise_resolve, Poll.promise_then. rewrite E, E, E. auto.
    + unfold Poll.promise_resolve, Poll.promise_then. rewrite E, E, E. auto.
  - rewrite notify_other by exact N. auto.
Qed.

Lemma notify_present (poll q : nat) w :
  is_Some (Poll.promises (Poll.host w) !! q) ->
  is_Some (Poll.promises
             (Poll.host (Poll.promise_resolve poll (Poll.promise_then poll w)))
           !! q).
Proof.
  destruct (decide (q = poll)) as [-> | N].
  - intros [st E]. destruct st as [n| |m].
    + rewrite (notify_pending poll n w E). eauto.
    + unfold Poll.promise_resolve, Poll.promise_then. rewrite E. cbn.
      rewrite E. cbn. rewrite E. eauto.
    + unfold Poll.promise_resolve, Poll.promise_then. rewrite E, E, E. eauto.
  - rewrite notify_other by exact N. auto.
Qed.

(** [poll.promise.then(..); poll.resolve(this)] queues one job per reaction
    of a pending [poll], one job for a fulfilled one, none otherwise. *)
Lemma notify_jobs (poll : nat) w :
  Poll.jobs (Poll.host (Poll.promise_resolve poll (Poll.promise_then poll w)))
  = (Poll.jobs (Poll.host w)
     + match Poll.promises (Poll.host w) !! poll with
       | Some (Pending n) => S n
       | Some Fulfilled => 1
       | _ => 0
       end)%nat.
Proof.
  unfold Poll.promise_resolve, Poll.promise_then.
  destruct (Poll.promises (Poll.host w) !! poll) as [[n| |m]|] eqn:E; cbn.
  - rewrite lookup_insert_eq. cbn. lia.
  - rewrite E. cbn. reflexivity.
  - rewrite E. cbn. lia.
  - rewrite E. cbn. lia.
Qed.

(** The promises and the job queue after [dispose()] on a live poll. *)
Lemma dispose_host w :
  Poll.isDisposed w = false ->
  Poll.next_handle (Poll.host (Poll.dispose w))
    = Poll.next_handle (Poll.host w) /\
  Poll.jobs (Poll.host (Poll.dispose w)) = Poll.jobs (Poll.host w) /\
  forall q : nat,
    Poll.promises (Poll.host (Poll.dispose w)) !! q
      = Poll.promises (Poll.host w) !! q \/
    (Poll._tick (Poll.this w) = Some q /\
     (exists n, Poll.promises (Poll.host w) !! q = Some (Pending n)) /\
     Poll.promises (Poll.host (Poll.dispose w)) !! q
       = Some (Rejected ("Poll (" ++ Poll.name (Poll.this w)
                           ++ ") is disposed."))).
Proof.
  unfold Poll.isDisposed, Poll.dispose. intros ->.
  destruct (Poll._tick (Poll.this w)) as [poll|]; [|cbn; auto].
  unfold Poll.promise_reject. cbn [Poll.host Poll.this].
  destruct (Poll.promises (Poll.host w) !! poll) as [[n| |m]|] eqn:E;
    cbn; try (repeat split; auto; lia).
  split; [reflexivity|]. split; [lia|]. intros q.
  destruct (decide (q = poll)) as [-> | N].
  - right. rewrite lookup_insert_eq. eauto.
  - left. apply lookup_insert_ne. congruence.
Qed.

Lemma settled_or_fresh_reachable w : Poll.reachable w -> settled_or_fresh w.
Proof.
  apply reachable_invariant; clear w.
  - intros o now w. unfold Poll.constructor.
    destruct (js_gt _ _); [discriminate|].
    destruct (_ || _); [discriminate|].
    intros [= <-]. split; cbn.
    + intros q st H. apply lookup_singleton_Some in H. destruct H as [_ <-].
      auto.
    + intros q H. assert (q = 0%nat) as -> by lia.
      rewrite lookup_singleton_eq. eauto.
    + intros q [= <-]. reflexivity.
  - intros w w' R [S1 S2 S3] O. pose proof (wf_reachable w R) as W.
    destruct O as [w0 P | | t D I | D | poll s w0 P O | poll s w0 m P O].
    + destruct (prepared_frame w w0 P) as (E1 & E2 & E3 & _).
      split; unfold Poll.isDisposed; rewrite ?E1, ?E2, ?E3; assumption.
    + unfold Poll.run_job. destruct (Poll.jobs (Poll.host w));
        split; assumption.
    + split; assumption.
    + destruct (dispose_live w D) as (E1 & E2 & _).
      destruct (dispose_host w D) as (_ & _ & HP).
      split; unfold Poll.isDisposed; rewrite ?E1, ?E2.
      * intros q st H. destruct (HP q) as [E | (_ & _ & E)];
          rewrite E in H.
        -- destruct (S1 q st H) as [-> | [-> | (m & -> & X)]]; auto.
           unfold Poll.isDisposed in *. congruence.
        -- injection H as <-. right. right. eexists. split; reflexivity.
      * intros q H. destruct (HP q) as [E | (_ & _ & E)]; rewrite E; eauto.
      * cbn. discriminate.
    + destruct (prepared_frame w w0 P) as (E1 & E2 & E3 & _).
      pose proof (origin_allocated w poll s W O) as B.
      destruct (_resolve_frame poll s w0) as (F1 & F2 & _).
      split; unfold Poll.isDisposed; rewrite ?F1, ?F2; cbn; rewrite ?E1, ?E3.
      * intros q st H. unfold Poll._resolve in H. cbn [fst] in H.
        assert (G : <[Poll.next_promise (Poll.host w) := Pending 0]>
                      (Poll.promises (Poll.host w)) !! q = Some st \/
                    st = Fulfilled).
        { destruct poll as [p|].
          - apply notify_states in H. cbn in H. rewrite E2, E3 in H. tauto.
          - cbn in H. rewrite E2, E3 in H. auto. }
        destruct G as [G | ->]; [|auto].
        apply lookup_insert_Some in G.
        destruct G as [[_ <-] | [_ G]]; [auto | exact (S1 q st G)].
      * intros q H. unfold Poll._resolve. cbn [fst].
        assert (G : is_Some (<[Poll.next_promise (Poll.host w) := Pending 0]>
                               (Poll.promises (Poll.host w)) !! q)).
        { destruct (decide (q = Poll.next_promise (Poll.host w))) as [-> | N].
          - rewrite lookup_insert_eq. eauto.
          - rewrite lookup_insert_ne by congruence. apply S2. lia. }
        destruct poll as [p|].
        -- apply notify_present. cbn. rewrite E2, E3. exact G.
        -- cbn. rewrite E2, E3. exact G.
      * intros q [= <-]. reflexivity.
    + destruct (prepared_frame w w0 P) as (E1 & E2 & E3 & _).
      pose proof (origin_allocated w poll s W O) as B.
      destruct (_resolve_frame poll s w0) as (F1 & F2 & _).
      split; unfold Poll.isDisposed; cbn [Poll.observe Poll.this Poll.host
        Poll.promises Poll.next_promise]; rewrite ?F1, ?F2; cbn;
        rewrite ?E1, ?E3.
      * intros q st H. unfold Poll._resolve in H. cbn [fst] in H.
        assert (G : <[Poll.next_promise (Poll.host w) := Pending 0]>
                      (Poll.promises (Poll.host w)) !! q = Some st \/
                    st = Fulfilled).
        { destruct poll as [p|].
          - apply notify_states in H. cbn in H. rewrite E2, E3 in H. tauto.
          - cbn in H. rewrite E2, E3 in H. auto. }
        destruct G as [G | ->]; [|auto].
        apply lookup_insert_Some in G.
        destruct G as [[_ <-] | [_ G]]; [auto | exact (S1 q st G)].
      * intros q H. unfold Poll._resolve. cbn [fst].
        assert (G : is_Some (<[Poll.next_promise (Poll.host w) := Pending 0]>
                               (Poll.promises (Poll.host w)) !! q)).
        { destruct (decide (q = Poll.next_promise (Poll.host w))) as [-> | N].
          - rewrite lookup_insert_eq. eauto.
          - rewrite lookup_insert_ne by congruence. apply S2. lia. }
        destruct poll as [p|].
        -- apply notify_present. cbn. rewrite E2, E3. exact G.
        -- cbn. rewrite E2, E3. exact G.
      * intros q [= <-]. reflexivity.
Qed.

End Promises.

(** * One [ticked] per installed tick *)

Section Accounting.
Context {T U : Type}.
Implicit Types (w : Poll.World T U) (s : State.t T U) (e : Poll.Event T U).

Lemma count_cons (f : Poll.Obs T U -> bool) (o : Poll.Obs T U) w w' :
  Poll.trace (Poll.host w') = o :: Poll.trace (Poll.host w) ->
  count f w' = ((if f o then 1 else 0) + count f w)%nat.
Proof. unfold count. intros ->. cbn. destruct (f o); reflexivity. Qed.

Lemma count_same (f : Poll.Obs T U -> bool) w w' :
  Poll.trace (Poll.host w') = Poll.trace (Poll.host w) ->
  count f w' = count f w.
Proof. unfold count. intros ->. reflexivity. Qed.

Lemma installed_skip (o : Poll.Obs T U) w w' :
  Poll.trace (Poll.host w') = o :: Poll.trace (Poll.host w) ->
  (forall s, o <> Poll.Installed s) ->
  Poll.installed w' = Poll.installed w.
Proof.
  unfold Poll.installed. intros -> N.
  destruct o as [s| | | |]; [destruct (N s eq_refl) | | | |]; reflexivity.
Qed.

Lemma installed_unchanged w w' :
  Poll.trace (Poll.host w') = Poll.trace (Poll.host w) ->
  Poll.installed w' = Poll.installed w.
Proof. unfold Poll.installed. intros ->. reflexivity. Qed.

Lemma _resolve_jobs (poll : option nat) s w :
  Poll.jobs (Poll.host (fst (Poll._resolve poll s w)))
  = (Poll.jobs (Poll.host w) + queued poll w)%nat.
Proof.
  unfold Poll._resolve, queued. cbn [fst]. destruct poll as [p|].
  - rewrite notify_jobs. reflexivity.
  - cbn. lia.
Qed.

(** On a reachable world [_resolve] queues at most one job, and exactly one
    when the poll is live. *)
Lemma queued_once (poll : option nat) s w w0 :
  Poll.reachable w -> prepared w w0 -> origin w poll s ->
  (queued poll w0 <= 1)%nat /\
  (Poll.isDisposed w = false -> queued poll w0 = 1%nat).
Proof.
  intros R P O.
  pose proof (wf_reachable w R) as W.
  pose proof (settled_or_fresh_reachable w R) as [S1 S2 _].
  destruct (prepared_frame w w0 P) as (_ & E2 & E3 & _).
  pose proof (origin_allocated w poll s W O) as B.
  unfold queued. rewrite E2, E3. destruct poll as [p|].
  - specialize (B p eq_refl).
    rewrite lookup_insert_ne by lia.
    destruct (S2 p B) as [st E]. rewrite E.
    destruct (S1 p st E) as [-> | [-> | (m & -> & D)]].
    + split; [lia | reflexivity].
    + split; [lia | reflexivity].
    + split; [lia | congruence].
  - split; [lia|]. intros D. exfalso.
    inversion O as [| now E | | |]; subst.
    destruct (wf_live w W D) as [q K]. congruence.
Qed.

(** X4.  [ticked] is emitted once per installed tick: on every reachable
    world the emissions made and the reactions queued never outnumber the
    installed states, and on a poll that is not disposed they are exactly
    as many. *)
Theorem ticked_once_per_tick w :
  Poll.reachable w ->
  (count is_ticked w + Poll.jobs (Poll.host w)
   <= length (Poll.installed w))%nat /\
  (Poll.isDisposed w = false ->
   (count is_ticked w + Poll.jobs (Poll.host w))%nat
   = length (Poll.installed w)).
Proof.
  revert w. apply reachable_invariant.
  - intros o now w. unfold Poll.constructor.
    destruct (js_gt _ _); [discriminate|].
    destruct (_ || _); [discriminate|].
    intros [= <-]. split; reflexivity.
  - intros w w' R [H1 H2] O.
    destruct O as [w0 P | | t D I | D | poll s w0 P O | poll s w0 m P O].
    + destruct (prepared_frame w w0 P) as (E1 & _ & _ & _ & E5 & E6 & _).
      unfold Poll.isDisposed.
      rewrite (count_same _ w w0 E6), (installed_unchanged w w0 E6), E5, E1.
      split; assumption.
    + unfold Poll.run_job. destruct (Poll.jobs (Poll.host w)) as [|n] eqn:J;
        [rewrite J; split; assumption|].
      match goal with |- context [count is_ticked ?x] => set (w1 := x) end.
      assert (Tr : Poll.trace (Poll.host w1)
                   = Poll.Ticked :: Poll.trace (Poll.host w)) by reflexivity.
      rewrite (count_cons is_ticked _ w w1 Tr).
      rewrite (installed_skip _ w w1 Tr) by discriminate.
      change (Poll.jobs (Poll.host w1)) with n.
      change (Poll.isDisposed w1) with (Poll.isDisposed w).
      cbn [is_ticked]. split; [lia|]. intros D. specialize (H2 D). lia.
    + match goal with |- context [count is_ticked ?x] => set (w1 := x) end.
      assert (Tr : Poll.trace (Poll.host w1)
                   = Poll.Invoked (Timer.request t) (Poll.state w)
                       :: Poll.trace (Poll.host w)) by reflexivity.
      rewrite (count_cons is_ticked _ w w1 Tr).
      rewrite (installed_skip _ w w1 Tr) by discriminate.
      change (Poll.jobs (Poll.host w1)) with (Poll.jobs (Poll.host w)).
      change (Poll.isDisposed w1) with (Poll.isDisposed w).
      cbn [is_ticked]. split; [lia|]. intros D'. specialize (H2 D'). lia.
    + destruct (dispose_live w D) as (_ & _ & _ & _ & Tr).
      destruct (dispose_host w D) as (_ & J & _).
      rewrite (count_cons is_ticked _ w _ Tr).
      rewrite (installed_skip _ w _ Tr) by discriminate.
      rewrite J, dispose_isDisposed. cbn [is_ticked].
      split; [lia | discriminate].
    + destruct (queued_once poll s w w0 R P O) as [Q1 Q2].
      destruct (prepared_frame w w0 P) as (E1 & _ & _ & _ & E5 & E6 & _).
      pose proof (_resolve_trace poll s w0) as Tr. rewrite E6 in Tr.
      rewrite (count_cons is_ticked _ w _ Tr), (installed_cons s w _ Tr).
      rewrite _resolve_jobs, E5, length_app. cbn [is_ticked length].
      unfold Poll.isDisposed at 1. rewrite _resolve_this. cbn. rewrite E1.
      split; [lia|]. intros D.
      specialize (H2 D). specialize (Q2 D). lia.
    + destruct (queued_once poll s w w0 R P O) as [Q1 Q2].
      destruct (prepared_frame w w0 P) as (E1 & _ & _ & _ & E5 & E6 & _).
      pose proof (_resolve_trace poll s w0) as Tr. rewrite E6 in Tr.
      assert (Tr2 : Poll.trace
                      (Poll.host (Poll.observe (Poll.Warned m)
                                    (fst (Poll._resolve poll s w0))))
                    = Poll.Warned m
                        :: Poll.trace
                             (Poll.host (fst (Poll._resolve poll s w0))))
        by reflexivity.
      rewrite (count_cons is_ticked _ _ _ Tr2).
      rewrite (installed_skip _ _ _ Tr2) by discriminate.
      rewrite (count_cons is_ticked _ w _ Tr), (installed_cons s w _ Tr).
      change (Poll.jobs (Poll.host (Poll.observe (Poll.Warned m)
                                      (fst (Poll._resolve poll s w0)))))
        with (Poll.jobs (Poll.host (fst (Poll._resolve poll s w0)))).
      change (Poll.isDisposed (Poll.observe (Poll.Warned m)
                                 (fst (Poll._resolve poll s w0))))
        with (Poll.isDisposed (fst (Poll._resolve poll s w0))).
      rewrite _resolve_jobs, E5, length_app. cbn [is_ticked length].
      unfold Poll.isDisposed at 1. rewrite _resolve_this. cbn. rewrite E1.
      split; [lia|]. intros D.
      specialize (H2 D). specialize (Q2 D). lia.
Qed.

End Accounting.

Lemma ticked_once_per_tick_witness :
  Poll.reachable Scenario.invoked /\
  Poll.isDisposed Scenario.invoked = false /\
  (count is_ticked Scenario.invoked + Poll.jobs (Poll.host Scenario.invoked))%nat
  = length (Poll.installed Scenario.invoked).
Proof.
  assert (D : Poll.isDisposed Scenario.invoked = false)
    by (vm_compute; reflexivity).
  split; [exact invoked_reachable | split; [exact D|]].
  exact (proj2 (ticked_once_per_tick Scenario.invoked invoked_reachable) D).
Defined.

(** * The outstanding tick and disposal, over every run *)

Section Lifecycle.
Context {T U : Type}.
Implicit Types (w : Poll.World T U) (s : State.t T U) (e : Poll.Event T U).

(** X5.  On a reachable poll that is not disposed, reading [tick] never
    throws: it returns a pending promise, the delegate created last; and
    every event that installs a state makes [tick] return a new promise, the
    next delegate. *)
Theorem live_tick_is_pending w :
  Poll.reachable w -> Poll.isDisposed w = false ->
  exists p : nat,
    Poll.tick w = Ok p /\
    Poll.promises (Poll.host w) !! p = Some (Pending 0) /\
    S p = Poll.next_promise (Poll.host w) /\
    forall e, Poll.installed (Poll.step w e) <> Poll.installed w ->
              Poll.tick (Poll.step w e) = Ok (S p).
Proof.
  intros R D. pose proof (wf_reachable w R) as W.
  destruct (wf_live w W D) as [p K].
  destruct (wf_tick w W p K) as [_ P].
  pose proof (sof_last w (settled_or_fresh_reachable w R) p K) as L.
  exists p. unfold Poll.tick. rewrite K.
  split; [reflexivity | split; [exact P | split; [exact L|]]].
  intros e N. rewrite (installing_action _ _ (step_action w e) N), L.
  reflexivity.
Qed.

(** X6.  [dispose()] on a reachable poll that is not disposed rejects the
    promise of the outstanding tick, which was pending, with the error
    ["Poll (<name>) is disposed."], and no other promise; it emits
    [disposed], queues no [ticked], keeps the state, and a second
    [dispose()] changes nothing. *)
Theorem dispose_rejects_tick w :
  Poll.reachable w -> Poll.isDisposed w = false ->
  exists p : nat,
    Poll.tick w = Ok p /\
    Poll.promises (Poll.host w) !! p = Some (Pending 0) /\
    Poll.promises (Poll.host (Poll.dispose w)) !! p
      = Some (Rejected ("Poll (" ++ Poll.name (Poll.this w)
                          ++ ") is disposed.")) /\
    (forall q : nat, q <> p ->
       Poll.promises (Poll.host (Poll.dispose w)) !! q
       = Poll.promises (Poll.host w) !! q) /\
    Poll.state (Poll.dispose w) = Poll.state w /\
    Poll.jobs (Poll.host (Poll.dispose w)) = Poll.jobs (Poll.host w) /\
    Poll.trace (Poll.host (Poll.dispose w))
      = Poll.Disposed :: Poll.trace (Poll.host w) /\
    Poll.dispose (Poll.dispose w) = Poll.dispose w.
Proof.
  intros R D. pose proof (wf_reachable w R) as W.
  destruct (wf_live w W D) as [p K].
  destruct (wf_tick w W p K) as [_ P].
  destruct (dispose_live w D) as (E1 & _ & _ & _ & Tr).
  destruct (dispose_host w D) as (_ & J & HP).
  exists p. unfold Poll.tick. rewrite K.
  split; [reflexivity | split; [exact P|]]. split.
  { destruct (HP p) as [E | (_ & _ & E)]; [|exact E].
    exfalso. revert E. unfold Poll.dispose.
    replace (Poll._isDisposed (Poll.this w)) with false by (symmetry; exact D).
    rewrite K. unfold Poll.promise_reject.
    cbn [Poll.observe Poll.host Poll.this Poll.promises].
    rewrite P. cbn [Poll.set_promises Poll.host Poll.promises].
    rewrite lookup_insert_eq. discriminate. }
  split.
  { intros q N. destruct (HP q) as [E | (K' & _)]; [exact E | congruence]. }
  split; [unfold Poll.state; rewrite E1; reflexivity|].
  split; [exact J | split; [exact Tr|]].
  apply dispose_disposed, dispose_isDisposed.
Qed.

(** X7.  The [disposed] signal is emitted exactly once: on every reachable
    world it has been emitted once if the poll is disposed and never if it
    is not, whatever calls of [dispose()] and [refresh()] were made. *)
Theorem disposed_emitted_once w :
  Poll.reachable w ->
  count is_disposed w = if Poll.isDisposed w then 1%nat else 0%nat.
Proof.
  revert w. apply reachable_invariant.
  - intros o now w. unfold Poll.constructor.
    destruct (js_gt _ _); [discriminate|].
    destruct (_ || _); [discriminate|].
    intros [= <-]. reflexivity.
  - intros w w' R H O.
    destruct O as [w0 P | | t D I | D | poll s w0 P O | poll s w0 m P O].
    + destruct (prepared_frame w w0 P) as (E1 & _ & _ & _ & _ & E6 & _).
      unfold Poll.isDisposed. rewrite (count_same _ w w0 E6), E1. exact H.
    + unfold Poll.run_job. destruct (Poll.jobs (Poll.host w)); exact H.
    + exact H.
    + destruct (dispose_live w D) as (_ & _ & _ & _ & Tr).
      rewrite (count_cons is_disposed _ w _ Tr), dispose_isDisposed, H, D.
      reflexivity.
    + destruct (prepared_frame w w0 P) as (E1 & _ & _ & _ & _ & E6 & _).
      pose proof (_resolve_trace poll s w0) as Tr. rewrite E6 in Tr.
      rewrite (count_cons is_disposed _ w _ Tr).
      unfold Poll.isDisposed at 1. rewrite _resolve_this. cbn. rewrite E1.
      exact H.
    + destruct (prepared_frame w w0 P) as (E1 & _ & _ & _ & _ & E6 & _).
      pose proof (_resolve_trace poll s w0) as Tr. rewrite E6 in Tr.
      unfold count, Poll.isDisposed.
      cbn [Poll.observe Poll.host Poll.trace Poll.this].
      rewrite Tr, _resolve_this. cbn. rewrite E1. exact H.
Qed.

End Lifecycle.

Lemma live_tick_is_pending_witness :
  Poll.reachable Scenario.invoked /\
  Poll.isDisposed Scenario.invoked = false /\
  exists p : nat,
    Poll.tick Scenario.invoked = Ok p /\
    Poll.promises (Poll.host Scenario.invoked) !! p = Some (Pending 0).
Proof.
  assert (D : Poll.isDisposed Scenario.invoked = false)
    by (vm_compute; reflexivity).
  split; [exact invoked_reachable | split; [exact D|]].
  destruct (live_tick_is_pending Scenario.invoked invoked_reachable D)
    as (p & H1 & H2 & _).
  exists p. split; assumption.
Defined.

Lemma dispose_rejects_tick_witness :
  Poll.reachable Scenario.invoked /\
  Poll.isDisposed Scenario.invoked = false /\
  exists p : nat,
    Poll.tick Scenario.invoked = Ok p /\
    Poll.promises (Poll.host (Poll.dispose Scenario.invoked)) !! p
    = Some (Rejected ("Poll (" ++ Poll.name (Poll.this Scenario.invoked)
                        ++ ") is disposed.")).
Proof.
  assert (D : Poll.isDisposed Scenario.invoked = false)
    by (vm_compute; reflexivity).
  split; [exact invoked_reachable | split; [exact D|]].
  destruct (dispose_rejects_tick Scenario.invoked invoked_reachable D)
    as (p & H1 & _ & H3 & _).
  exists p. split; assumption.
Defined.

Lemma disposed_emitted_once_witness :
  Poll.reachable Scenario.invoked /\
  count is_disposed Scenario.invoked = 0%nat.
Proof.
  split; [exact invoked_reachable|].
  exact (disposed_emitted_once Scenario.invoked invoked_reachable).
Defined.

(** * What a disposed poll still does, and what a new one does not yet *)

Section Quiescence.
Context {T U : Type}.
Implicit Types (w : Poll.World T U) (s : State.t T U) (e : Poll.Event T U).

Lemma invocations_same w w' :
  Poll.trace (Poll.host w') = Poll.trace (Poll.host w) ->
  invocations w' = invocations w.
Proof. unfold invocations. intros ->. reflexivity. Qed.

Lemma invocations_skip (o : Poll.Obs T U) w w' :
  Poll.trace (Poll.host w') = o :: Poll.trace (Poll.host w) ->
  (forall p s, o <> Poll.Invoked p s) ->
  invocations w' = invocations w.
Proof.
  unfold invocations. intros -> N.
  destruct o as [|p s| | |]; [|destruct (N p s eq_refl)| | |]; reflexivity.
Qed.

(** On a disposed poll an event other than [refresh()] only does the
    bookkeeping of the host, or runs a queued job. *)
Lemma disposed_event_idle e w :
  Poll.isDisposed w = true -> Poll.is_refresh e = false ->
  prepared w (Poll.step w e) \/ Poll.step w e = Poll.run_job w.
Proof.
  unfold Poll.isDisposed. intros D N.
  destruct e as [ok now | h hidden now rnd | poll [v|r] now rnd | now | |];
    try discriminate N; unfold Poll.step.
  - destruct (_ && _); [|left; apply prep_same].
    unfold Poll.on_when. cbn [Poll.close_gate Poll.this]. rewrite D.
    left. apply prep_gate.
  - destruct (Poll.find_timer _ _); [|left; apply prep_same].
    unfold Poll._execute. cbn [Poll.disarm Poll.this]. rewrite D.
    left. apply prep_timer.
  - destruct (existsb _ _); [|left; apply prep_same].
    unfold Poll.on_fulfilled. cbn [Poll.land Poll.this]. rewrite D.
    left. apply prep_settled.
  - destruct (existsb _ _); [|left; apply prep_same].
    unfold Poll.on_rejected. cbn [Poll.land Poll.this]. rewrite D.
    left. apply prep_settled.
  - unfold Poll.dispose. rewrite D. left. apply prep_same.
  - right. reflexivity.
Qed.

(** X8.  Disposal is final.  From a disposed poll, whatever happens
    (calls of [refresh()] included), the poll stays disposed and the factory
    is never called again; and as long as [refresh()] is not called, the
    object, the installed states and the promises stay as they are and no
    timer or frame request is armed. *)
Theorem disposal_is_final w (es : list (Poll.Event T U)) :
  Poll.isDisposed w = true ->
  Poll.isDisposed (Poll.run w es) = true /\
  invocations (Poll.run w es) = invocations w /\
  (forallb (fun e => negb (Poll.is_refresh e)) es = true ->
   Poll.this (Poll.run w es) = Poll.this w /\
   Poll.installed (Poll.run w es) = Poll.installed w /\
   Poll.promises (Poll.host (Poll.run w es)) = Poll.promises (Poll.host w) /\
   forall t, In t (Poll.timers (Poll.host (Poll.run w es))) ->
             In t (Poll.timers (Poll.host w))).
Proof.
  intros D. destruct (disposed_never_invokes es w D) as [D' I'].
  split; [exact D' | split; [exact I'|]]. clear D' I'.
  revert w D. induction es as [|e es IH]; intros w D N;
    [repeat split; auto|].
  cbn [forallb] in N. apply andb_prop in N. destruct N as [N1 N2].
  apply negb_true_iff in N1.
  change (Poll.run w (e :: es)) with (Poll.run (Poll.step w e) es).
  assert (H : Poll.this (Poll.step w e) = Poll.this w /\
              Poll.installed (Poll.step w e) = Poll.installed w /\
              Poll.promises (Poll.host (Poll.step w e))
                = Poll.promises (Poll.host w) /\
              forall t, In t (Poll.timers (Poll.host (Poll.step w e))) ->
                        In t (Poll.timers (Poll.host w))).
  { destruct (disposed_event_idle e w D N1) as [P | ->].
    - destruct (prepared_frame _ _ P) as (E1 & E2 & _ & _ & _ & E6 & E7 & _).
      rewrite E1, E2, (installed_unchanged _ _ E6). repeat split; auto.
    - unfold Poll.run_job. destruct (Poll.jobs (Poll.host w));
        repeat split; auto. }
  destruct H as (H1 & H2 & H3 & H4).
  assert (D1 : Poll.isDisposed (Poll.step w e) = true)
    by (unfold Poll.isDisposed; rewrite H1; exact D).
  destruct (IH _ D1 N2) as (G1 & G2 & G3 & G4).
  rewrite G1, G2, G3, H1, H2, H3. repeat split; auto.
Qed.

(** X9.  Polling does not begin before the gate settles: from a poll just
    constructed, as long as the [when] promise has not settled and
    [refresh()] has not been called, no state is installed, no timer or
    frame request is armed, the factory is not called and [ticked] is not
    emitted, also when the poll is disposed meanwhile; the state is the
    initial [standby] one. *)
Theorem nothing_before_gate (o : IOptions.t) (now : Z) (w0 : Poll.World T U)
    (es : list (Poll.Event T U)) :
  Poll.constructor o now = Ok w0 ->
  forallb (fun e => negb (is_gate_or_refresh e)) es = true ->
  let w := Poll.run w0 es in
  Poll.installed w = [] /\
  Poll.timers (Poll.host w) = [] /\
  invocations w = [] /\
  count is_ticked w = 0%nat /\
  Poll.state w
    = State.mk (Poll.interval (Poll.this w0)) None Phase.standby now.
Proof.
  intros C N w.
  assert (B : Poll.timers (Poll.host w0) = [] /\
              Poll.inflight (Poll.host w0) = [] /\
              Poll.jobs (Poll.host w0) = 0%nat /\
              Poll.installed w0 = [] /\ invocations w0 = [] /\
              count is_ticked w0 = 0%nat /\
              Poll.state w0
                = State.mk (Poll.interval (Poll.this w0)) None
                    Phase.standby now).
  { revert C. unfold Poll.constructor.
    destruct (js_gt _ _); [discriminate|].
    destruct (_ || _); [discriminate|].
    intros [= <-]. repeat split. }
  set (st := State.mk (Poll.interval (Poll.this w0)) None Phase.standby now)
    in *.
  clearbody st. clear C. unfold w. clear w.
  revert w0 B. induction es as [|e es IH]; intros w0 B; [tauto|].
  cbn [forallb] in N. apply andb_prop in N. destruct N as [N1 N2].
  apply negb_true_iff in N1.
  change (Poll.run w0 (e :: es)) with (Poll.run (Poll.step w0 e) es).
  apply (IH N2). clear IH N2.
  destruct B as (B1 & B2 & B3 & B4 & B5 & B6 & B7).
  destruct e as [ok t | h hidden t rnd | poll outcome t rnd | t | |];
    try discriminate N1; unfold Poll.step.
  - unfold Poll.find_timer. rewrite B1. cbn. tauto.
  - rewrite B2. cbn. tauto.
  - destruct (Poll.isDisposed w0) eqn:D;
      [rewrite (dispose_disposed w0 D); tauto|].
    destruct (dispose_live w0 D) as (E1 & _ & E3 & E4 & Tr).
    destruct (dispose_host w0 D) as (_ & J & _).
    rewrite E3, E4, J, (installed_skip _ _ _ Tr), (invocations_skip _ _ _ Tr),
      (count_cons is_ticked _ _ _ Tr) by discriminate.
    unfold Poll.state. rewrite E1. cbn. rewrite B6. tauto.
  - unfold Poll.run_job. rewrite B3. tauto.
Qed.

End Quiescence.

Lemma disposal_is_final_witness :
  Poll.isDisposed (Poll.dispose Scenario.invoked) = true /\
  invocations
    (Poll.run (Poll.dispose Scenario.invoked)
       [Poll.RefreshCalled 4; Poll.TimerFired 2 false 5 (0, 0);
        Poll.FactorySettled 1 (inl 42%Z) 6 (0, 0)])
  = invocations (Poll.dispose Scenario.invoked).
Proof.
  assert (D : Poll.isDisposed (Poll.dispose Scenario.invoked) = true)
    by (vm_compute; reflexivity).
  split; [exact D|].
  exact (proj1 (proj2 (disposal_is_final (Poll.dispose Scenario.invoked)
                         [Poll.RefreshCalled 4;
                          Poll.TimerFired 2 false 5 (0, 0);
                          Poll.FactorySettled 1 (inl 42%Z) 6 (0, 0)] D))).
Defined.

Lemma nothing_before_gate_witness :
  Poll.constructor Scenario.options 0 = Ok Scenario.created /\
  Poll.timers
    (Poll.host (Poll.run Scenario.created
                  [Poll.JobRun; Poll.DisposeCalled;
                   Poll.TimerFired 1 false 3 (0, 0)])) = [].
Proof.
  assert (C : Poll.constructor Scenario.options 0 = Ok Scenario.created)
    by (vm_compute; reflexivity).
  split; [exact C|].
  apply (nothing_before_gate Scenario.options 0 Scenario.created
           [Poll.JobRun; Poll.DisposeCalled;
            Poll.TimerFired 1 false 3 (0, 0)] C).
  vm_compute. reflexivity.
Defined.

(** * Hidden host, gate outcomes, backoff after a refresh *)

Lemma jitter_base_0 (rnd : Q * Q) (base factor lo hi : Q) :
  base == 0 -> ~ factor == 0 -> 0 <= lo <= hi ->
  Private.jitter rnd base factor lo hi == lo.
Proof.
  intros B N [L H]. unfold Private.jitter. rewrite (Qeq_bool_false _ _ N).
  set (dir := if negb (Qle_bool (1 # 2) (fst rnd)) then 1 else - (1)).
  assert (X : base + snd rnd * base * Math_abs factor * dir + (1 # 2)
              == 1 # 2) by (rewrite B; ring).
  unfold Math_round. rewrite (Qfloor_comp _ _ X).
  change (Math_abs (inject_Z (Qfloor (1 # 2)))) with 0.
  unfold Math_min, Math_max.
  rewrite (Q.max_l lo 0 L). apply Q.min_l, H.
Qed.

Section Ticks.
Context {T U : Type}.
Implicit Types (w : Poll.World T U) (s : State.t T U) (e : Poll.Event T U).

Lemma notify_fulfils (poll : nat) w :
  (exists n, Poll.promises (Poll.host w) !! poll = Some (Pending n)) \/
  Poll.promises (Poll.host w) !! poll = Some Fulfilled ->
  Poll.promises
    (Poll.host (Poll.promise_resolve poll (Poll.promise_then poll w))) !! poll
  = Some Fulfilled.
Proof.
  intros [[n E] | E]; [exact (notify_pending poll n w E)|].
  unfold Poll.promise_resolve, Poll.promise_then. rewrite E. cbn.
  rewrite E. cbn. exact E.
Qed.

(** The promise table after [_resolve] does not depend on the state. *)
Lemma _resolve_promises (poll : option nat) s1 s2 w :
  Poll.promises (Poll.host (fst (Poll._resolve poll s1 w)))
  = Poll.promises (Poll.host (fst (Poll._resolve poll s2 w))).
Proof.
  unfold Poll._resolve. destruct poll as [p|]; cbn [fst]; [|reflexivity].
  unfold Poll.promise_resolve, Poll.promise_then.
  cbn [Poll._schedule Poll.host Poll.promises].
  destruct (<[Poll.next_promise (Poll.host w) := Pending 0]>
              (Poll.promises (Poll.host w)) !! p) as [[n| |m]|] eqn:E.
  - cbn [Poll.set_promises Poll.host Poll.promises Poll._schedule].
    rewrite !lookup_insert_eq. reflexivity.
  - cbn [Poll.set_promises Poll.host Poll.promises Poll._schedule id].
    rewrite !E. reflexivity.
  - cbn [Poll.set_promises Poll.host Poll.promises Poll._schedule].
    rewrite !E. reflexivity.
  - cbn [Poll.set_promises Poll.host Poll.promises Poll._schedule].
    rewrite !E. reflexivity.
Qed.

(** X10.  Hidden host.  When an armed handle fires on a reachable poll that
    is not disposed while the document is hidden, the factory is not
    called; a [standby] state with payload [null] and the interval
    [jitter(this.interval, variance, min, max)] -- computed from the
    configured interval, not from the current state's -- is installed, the
    promise of the tick the request was made for is fulfilled, and a new
    tick is outstanding. *)
Theorem hidden_tick_skips_factory w (h : nat) (t : Timer.t) (now : Z)
    (rnd : Q * Q) :
  Poll.reachable w -> Poll.isDisposed w = false ->
  Poll.find_timer h (Poll.timers (Poll.host w)) = Some t ->
  let w' := Poll.step w (Poll.TimerFired h true now rnd) in
  Poll.state w'
    = State.mk
        (Private.jitter rnd (Poll.interval (Poll.this w))
           (Poll.variance (Poll.this w)) (Poll.min (Poll.this w))
           (Poll.max (Poll.this w)))
        None Phase.standby now /\
  Poll.installed w' = Poll.installed w ++ [Poll.state w'] /\
  invocations w' = invocations w /\
  Poll.inflight (Poll.host w') = Poll.inflight (Poll.host w) /\
  Poll.promises (Poll.host w') !! Timer.request t = Some Fulfilled /\
  Poll.tick w' = Ok (Poll.next_promise (Poll.host w)).
Proof.
  intros R D F w'.
  pose proof (wf_reachable w R) as W.
  pose proof (settled_or_fresh_reachable w R) as [S1 S2 _].
  destruct (find_timer_spec _ _ _ F) as [I _].
  pose proof (wf_timers w W t I) as B.
  set (st := State.mk
               (Private.jitter rnd (Poll.interval (Poll.this w))
                  (Poll.variance (Poll.this w)) (Poll.min (Poll.this w))
                  (Poll.max (Poll.this w)))
               None Phase.standby now : State.t T U).
  assert (E : w' = fst (Poll._resolve (Some (Timer.request t)) st
                          (Poll.disarm h w))).
  { unfold w', Poll.step. rewrite F. unfold Poll._execute.
    cbn [Poll.disarm Poll.this]. unfold Poll.isDisposed in D. rewrite D.
    reflexivity. }
  rewrite E. clear E w'.
  pose proof (_resolve_trace (Some (Timer.request t)) st (Poll.disarm h w))
    as Tr.
  change (Poll.trace (Poll.host (Poll.disarm h w)))
    with (Poll.trace (Poll.host w)) in Tr.
  destruct (_resolve_frame (Some (Timer.request t)) st (Poll.disarm h w))
    as (_ & _ & _ & _ & _ & _ & Hin & _).
  rewrite resolved_state.
  split; [reflexivity|].
  split; [exact (installed_cons st w _ Tr)|].
  split; [apply (invocations_skip _ _ _ Tr); discriminate|].
  split; [rewrite Hin; reflexivity|].
  split.
  - unfold Poll._resolve. cbn [fst]. apply notify_fulfils.
    cbn [Poll._schedule Poll.host Poll.promises Poll.disarm Poll.this
         Poll.next_promise].
    rewrite lookup_insert_ne by lia.
    destruct (S2 _ B) as [x X]. rewrite X.
    destruct (S1 _ _ X) as [-> | [-> | (m & -> & D')]]; eauto.
    congruence.
  - unfold Poll.tick. rewrite _resolve_this. reflexivity.
Qed.

(** X11.  The gate.  On a poll that is not disposed, whether the [when]
    promise is fulfilled or rejected the first tick is scheduled alike, with
    the configured interval and payload [null]: the two outcomes give the
    same outstanding tick, timers, promises and job queue, and differ only
    in the phase ([when-resolved] or [when-rejected]) and in the warning
    logged on rejection. *)
Theorem gate_outcomes_agree w (now : Z) :
  Poll.isDisposed w = false ->
  Poll.when_pending (Poll.host w) = true ->
  Poll.when_given (Poll.host w) = true ->
  let a := Poll.step w (Poll.WhenSettled true now) in
  let b := Poll.step w (Poll.WhenSettled false now) in
  Poll.state a
    = State.mk (Poll.interval (Poll.this w)) None Phase.when_resolved now /\
  Poll.state b
    = State.mk (Poll.interval (Poll.this w)) None Phase.when_rejected now /\
  Poll.tick a = Poll.tick b /\
  Poll.timers (Poll.host a) = Poll.timers (Poll.host b) /\
  Poll.promises (Poll.host a) = Poll.promises (Poll.host b) /\
  Poll.jobs (Poll.host a) = Poll.jobs (Poll.host b) /\
  Poll.trace (Poll.host a)
    = Poll.Installed (Poll.state a) :: Poll.trace (Poll.host w) /\
  Poll.trace (Poll.host b)
    = Poll.Warned ("Poll (" ++ Poll.name (Poll.this w)
                     ++ ") starting despite rejection.")
        :: Poll.Installed (Poll.state b) :: Poll.trace (Poll.host w).
Proof.
  intros D P G a b.
  set (sa := State.mk (Poll.interval (Poll.this w)) None
               Phase.when_resolved now : State.t T U).
  set (sb := State.mk (Poll.interval (Poll.this w)) None
               Phase.when_rejected now : State.t T U).
  assert (Ea : a = fst (Poll._resolve (Some 0%nat) sa (Poll.close_gate w))).
  { unfold a, Poll.step. rewrite P. cbn [andb orb]. unfold Poll.on_when.
    cbn [Poll.close_gate Poll.this]. unfold Poll.isDisposed in D. rewrite D.
    reflexivity. }
  assert (Eb : b = Poll.observe
                     (Poll.Warned ("Poll (" ++ Poll.name (Poll.this w)
                                     ++ ") starting despite rejection."))
                     (fst (Poll._resolve (Some 0%nat) sb
                             (Poll.close_gate w)))).
  { unfold b, Poll.step. rewrite P, G. cbn [andb orb]. unfold Poll.on_when.
    cbn [Poll.close_gate Poll.this]. unfold Poll.isDisposed in D. rewrite D.
    rewrite _resolve_this. reflexivity. }
  rewrite Ea, Eb. clear Ea Eb a b.
  unfold Poll.state, Poll.tick.
  cbn [Poll.observe Poll.this Poll.host Poll.timers Poll.promises Poll.jobs
       Poll.trace].
  rewrite !_resolve_this, !_resolve_trace, !_resolve_jobs.
  destruct (_resolve_frame (Some 0%nat) sa (Poll.close_gate w))
    as (_ & _ & -> & _).
  destruct (_resolve_frame (Some 0%nat) sb (Poll.close_gate w))
    as (_ & _ & -> & _).
  repeat split. apply _resolve_promises.
Qed.

(** X12.  Backoff restarts after a refresh.  When the current state has
    interval [0] (as installed by [refresh()]) and the factory then fails
    for the outstanding tick of a poll that is not disposed, with a variance
    other than [0] and [0 <= min <= max], the installed interval is [min]:
    doubling [0] gives [0], which the clamp raises to [min]. *)
Theorem failure_after_refresh_restarts_at_min w (poll : nat) (r : U)
    (now : Z) (rnd : Q * Q) :
  Poll.isDisposed w = false ->
  Poll._tick (Poll.this w) = Some poll ->
  In poll (Poll.inflight (Poll.host w)) ->
  State.interval (Poll.state w) = 0 ->
  ~ Poll.variance (Poll.this w) == 0 ->
  0 <= Poll.min (Poll.this w) <= Poll.max (Poll.this w) ->
  let w' := Poll.step w (Poll.FactorySettled poll (inr r) now rnd) in
  State.phase (Poll.state w') = Phase.rejected /\
  State.interval (Poll.state w') == Poll.min (Poll.this w).
Proof.
  intros D K I Z N B w'. unfold w'.
  rewrite (step_rejected_current w poll r now rnd D K I), resolved_state.
  unfold failure_state. cbn [State.phase State.interval].
  split; [reflexivity|]. rewrite Z.
  apply jitter_base_0; [|exact N | exact B].
  unfold Math_min. destruct B as [B1 B2].
  destruct (Q.min_spec (0 * 2) (Poll.max (Poll.this w))) as [[_ E] | [L E]];
    rewrite E; [ring | lra].
Qed.

End Ticks.

Lemma hidden_tick_skips_factory_witness :
  Poll.reachable Scenario.started /\
  Poll.isDisposed Scenario.started = false /\
  Poll.find_timer 1 (Poll.timers (Poll.host Scenario.started))
    = Some (Timer.mk 1 Timeout 1000 1) /\
  invocations (Poll.step Scenario.started (Poll.TimerFired 1 true 5 (0, 0)))
  = invocations Scenario.started.
Proof.
  assert (D : Poll.isDisposed Scenario.started = false)
    by (vm_compute; reflexivity).
  assert (F : Poll.find_timer 1 (Poll.timers (Poll.host Scenario.started))
              = Some (Timer.mk 1 Timeout 1000 1))
    by (vm_compute; reflexivity).
  split; [exact started_reachable | split; [exact D | split; [exact F|]]].
  exact (proj1 (proj2 (proj2 (hidden_tick_skips_factory Scenario.started 1
                                (Timer.mk 1 Timeout 1000 1) 5 (0, 0)
                                started_reachable D F)))).
Defined.

Lemma gate_outcomes_agree_witness :
  let w : Poll.World Z string :=
    value (Poll.constructor
             (IOptions.mk (Some 1000) (Some 10000) (Some 100) None (Some 0)
                true) 0) in
  Poll.isDisposed w = false /\
  Poll.when_pending (Poll.host w) = true /\
  Poll.when_given (Poll.host w) = true /\
  Poll.tick (Poll.step w (Poll.WhenSettled true 1))
  = Poll.tick (Poll.step w (Poll.WhenSettled false 1)).
Proof.
  intros w.
  assert (D : Poll.isDisposed w = false) by (vm_compute; reflexivity).
  assert (P : Poll.when_pending (Poll.host w) = true)
    by (vm_compute; reflexivity).
  assert (G : Poll.when_given (Poll.host w) = true)
    by (vm_compute; reflexivity).
  split; [exact D | split; [exact P | split; [exact G|]]].
  exact (proj1 (proj2 (proj2 (gate_outcomes_agree w 1 D P G)))).
Defined.

Lemma failure_after_refresh_restarts_at_min_witness :
  let w : Poll.World Z string :=
    Poll.run
      (value (Poll.constructor
                (IOptions.mk (Some 1000) (Some 10000) (Some 100) None
                   (Some (1 # 5)) false) 0))
      [Poll.WhenSettled true 0; Poll.RefreshCalled 1;
       Poll.TimerFired 2 false 2 (0, 0)] in
  Poll.isDisposed w = false /\
  Poll._tick (Poll.this w) = Some 2%nat /\
  In 2%nat (Poll.inflight (Poll.host w)) /\
  State.interval (Poll.state w) = 0 /\
  State.interval
    (Poll.state (Poll.step w (Poll.FactorySettled 2 (inr "x"%string) 3
                                (1 # 4, 1 # 2))))
  == 100.
Proof.
  intros w.
  assert (D : Poll.isDisposed w = false) by (vm_compute; reflexivity).
  assert (K : Poll._tick (Poll.this w) = Some 2%nat)
    by (vm_compute; reflexivity).
  assert (I : In 2%nat (Poll.inflight (Poll.host w)))
    by (vm_compute; left; reflexivity).
  assert (Z : State.interval (Poll.state w) = 0)
    by (vm_compute; reflexivity).
  assert (N : ~ Poll.variance (Poll.this w) == 0)
    by (vm_compute; discriminate).
  assert (B : 0 <= Poll.min (Poll.this w) <= Poll.max (Poll.this w))
    by (split; vm_compute; discriminate).
  split; [exact D | split; [exact K | split; [exact I | split; [exact Z|]]]].
  exact (proj2 (failure_after_refresh_restarts_at_min w 2 "x"%string 3
                  (1 # 4, 1 # 2) D K I Z N B)).
Defined.

(** * What the factory is given, and what the states carry *)

Section Payloads.
Context {T U : Type}.
Implicit Types (w : Poll.World T U) (s : State.t T U) (e : Poll.Event T U).

Lemma origin_payload w (poll : option nat) s :
  origin w poll s -> payload_fits s.
Proof.
  intros [ok now D | now | t now rnd D I | p v now rnd D K I
          | p r now rnd D K I]; unfold payload_fits, success_state,
    failure_state; cbn [State.phase State.payload].
  - destruct ok; reflexivity.
  - reflexivity.
  - reflexivity.
  - destruct (Phase.eqb _ _); eexists; reflexivity.
  - eexists; reflexivity.
Qed.

Lemma invocations_In (p : nat) s w :
  In (p, s) (invocations w) <->
  In (Poll.Invoked p s) (Poll.trace (Poll.host w)).
Proof.
  unfold invocations.
  induction (Poll.trace (Poll.host w)) as [|o l IH]; [tauto|].
  destruct o as [s0|p0 s0| | |]; cbn; rewrite IH;
    split; intros H; try (right; tauto); try tauto.
  - destruct H as [[=] | H]; auto.
  - destruct H as [[= -> ->] | H]; auto.
  - destruct H as [[= -> ->] | H]; auto.
  - destruct H as [[=] | H]; auto.
  - destruct H as [[=] | H]; auto.
  - destruct H as [[=] | H]; auto.
Qed.

(** X13.  The payload goes with the phase: on every reachable world the
    current state and every state installed so far carry the factory's
    value when the phase is [resolved] or [reconnect], the failure reason
    when it is [rejected], and [null] in every other phase. *)
Theorem payload_matches_phase w :
  Poll.reachable w ->
  payload_fits (Poll.state w) /\
  forall s, In s (Poll.installed w) -> payload_fits s.
Proof.
  intros R.
  enough (H : payload_fits (Poll.state w) /\
              forall s, In (Poll.Installed s) (Poll.trace (Poll.host w)) ->
                        payload_fits s).
  { destruct H as [H1 H2]. split; [exact H1|].
    intros s I. apply H2, installed_In, I. }
  revert w R. apply reachable_invariant.
  - intros o now w. unfold Poll.constructor.
    destruct (js_gt _ _); [discriminate|].
    destruct (_ || _); [discriminate|].
    intros [= <-]. split; [reflexivity | intros s []].
  - intros w w' R [H1 H2] O.
    destruct O as [w0 P | | t D I | D | poll s w0 P O | poll s w0 m P O].
    + destruct (prepared_frame w w0 P) as (E1 & _ & _ & _ & _ & E6 & _).
      unfold Poll.state. rewrite E1, E6. split; assumption.
    + unfold Poll.run_job. destruct (Poll.jobs (Poll.host w));
        [split; assumption|].
      split; [exact H1|]. cbn. intros s [[=] | H]. apply H2, H.
    + split; [exact H1|]. cbn. intros s [[=] | H]. apply H2, H.
    + destruct (dispose_live w D) as (E1 & _ & _ & _ & Tr).
      unfold Poll.state. rewrite E1, Tr. split; [exact H1|].
      intros s [[=] | H]. apply H2, H.
    + destruct (prepared_frame w w0 P) as (_ & _ & _ & _ & _ & E6 & _).
      pose proof (origin_payload w poll s O) as F.
      rewrite resolved_state, _resolve_trace, E6. split; [exact F|].
      intros s' [[= <-] | H]; [exact F | apply H2, H].
    + destruct (prepared_frame w w0 P) as (_ & _ & _ & _ & _ & E6 & _).
      pose proof (origin_payload w poll s O) as F.
      change (Poll.state (Poll.observe (Poll.Warned m)
                            (fst (Poll._resolve poll s w0))))
        with (Poll.state (fst (Poll._resolve poll s w0))).
      cbn [Poll.observe Poll.host Poll.trace].
      rewrite resolved_state, _resolve_trace, E6. split; [exact F|].
      intros s' [[=] | [[= <-] | H]]; [exact F | apply H2, H].
Qed.

(** X14.  The factory is always given a state that was installed -- never
    the initial [standby] state of the constructor: on every reachable
    world, the argument of each factory call made so far is one of the
    installed states. *)
Theorem factory_sees_installed_state w :
  Poll.reachable w ->
  forall (p : nat) s, In (p, s) (invocations w) -> In s (Poll.installed w).
Proof.
  intros R p s I. apply installed_In. apply invocations_In in I.
  revert p s I.
  enough (H : (forall p s, In (Poll.Invoked p s) (Poll.trace (Poll.host w)) ->
                 In (Poll.Installed s) (Poll.trace (Poll.host w))) /\
              (forall t, In t (Poll.timers (Poll.host w)) ->
                 In (Poll.Installed (Poll.state w))
                   (Poll.trace (Poll.host w)))) by apply H.
  revert w R. apply reachable_invariant.
  - intros o now w. unfold Poll.constructor.
    destruct (js_gt _ _); [discriminate|].
    destruct (_ || _); [discriminate|].
    intros [= <-]. split; [intros p s [] | intros t []].
  - intros w w' R [H1 H2] O.
    destruct O as [w0 P | | t D I | D | poll s w0 P O | poll s w0 m P O].
    + destruct (prepared_frame w w0 P) as (E1 & _ & _ & _ & _ & E6 & E7 & _).
      unfold Poll.state. rewrite E1, E6. split; [exact H1|].
      intros t I. exact (H2 t (E7 t I)).
    + unfold Poll.run_job. destruct (Poll.jobs (Poll.host w));
        [split; assumption|].
      split; cbn.
      * intros p s [[=] | H]. right. apply (H1 p s H).
      * intros t I. right. apply (H2 t I).
    + split; cbn.
      * intros p s [[= <- <-] | H]; right; [exact (H2 t I)|].
        apply (H1 p s H).
      * intros t' I'. right. apply List.filter_In in I'.
        apply (H2 t'), I'.
    + destruct (dispose_live w D) as (E1 & _ & E3 & _ & Tr).
      unfold Poll.state. rewrite E1, E3, Tr. split; cbn.
      * intros p s [[=] | H]. right. apply (H1 p s H).
      * intros t I. right. apply (H2 t I).
    + destruct (prepared_frame w w0 P) as (_ & _ & _ & _ & _ & E6 & _).
      rewrite resolved_state, _resolve_trace, E6. split; cbn.
      * intros p s' [[=] | H]. right. apply (H1 p s' H).
      * intros t I. left. reflexivity.
    + destruct (prepared_frame w w0 P) as (_ & _ & _ & _ & _ & E6 & _).
      change (Poll.state (Poll.observe (Poll.Warned m)
                            (fst (Poll._resolve poll s w0))))
        with (Poll.state (fst (Poll._resolve poll s w0))).
      cbn [Poll.observe Poll.host Poll.trace Poll.timers].
      rewrite resolved_state, _resolve_trace, E6. split; cbn.
      * intros p s' [[=] | [[=] | H]]. right. right. apply (H1 p s' H).
      * intros t I. right. left. reflexivity.
Qed.

End Payloads.

Lemma payload_matches_phase_witness :
  Poll.reachable (Scenario.backoff 2) /\
  payload_fits (Poll.state (Scenario.backoff 2)).
Proof.
  assert (R : Poll.reachable (Scenario.backoff 2)).
  { exists Scenario.options, 0%Z, Scenario.created,
      [Poll.WhenSettled true 0;
       Poll.TimerFired 1 false 0 (0, 0);
       Poll.FactorySettled 1 (inr "x"%string) 0 (0, 0);
       Poll.TimerFired 2 false 0 (0, 0);
       Poll.FactorySettled 2 (inr "x"%string) 0 (0, 0)].
    split; vm_compute; reflexivity. }
  split; [exact R|].
  exact (proj1 (payload_matches_phase (Scenario.backoff 2) R)).
Defined.

Lemma factory_sees_installed_state_witness :
  Poll.reachable Scenario.invoked /\
  In (1%nat, State.mk 1000 None Phase.when_resolved 0)
    (invocations Scenario.invoked) /\
  In (State.mk 1000 None Phase.when_resolved 0)
    (Poll.installed Scenario.invoked).
Proof.
  assert (I : In (1%nat, State.mk 1000 None Phase.when_resolved 0)
                (invocations Scenario.invoked))
    by (vm_compute; left; reflexivity).
  split; [exact invoked_reachable | split; [exact I|]].
  exact (factory_sees_installed_state Scenario.invoked invoked_reachable
           1%nat _ I).
Defined.

(** * Timers: one timeout at a time, one factory call per tick *)

Lemma clearTimeout_spec (h : nat) (armed : list Timer.t) (t : Timer.t) :
  In t (clearTimeout h armed) <->
  In t armed /\ (Timer.kind t = Timeout -> Timer.handle t <> h).
Proof.
  unfold clearTimeout. rewrite List.filter_In.
  destruct (Timer.kind t).
  - rewrite negb_true_iff, Nat.eqb_neq. tauto.
  - split; [intros [H _]; split; [exact H | discriminate] | tauto].
Qed.

Lemma truthy_spec (x : Q) : truthy x = true <-> ~ x == 0.
Proof.
  unfold truthy. rewrite negb_true_iff. split.
  - intros H E. apply Qeq_bool_iff in E. congruence.
  - apply Qeq_bool_false.
Qed.

Section Timers.
Context {T U : Type}.
Implicit Types (w : Poll.World T U) (s : State.t T U) (e : Poll.Event T U).

(** The timers after [_resolve]: the timeout [_timeout] named is released,
    and one handle is armed for the new tick. *)
Lemma _resolve_timers (poll : option nat) s w (t : Timer.t) :
  In t (Poll.timers (Poll.host (fst (Poll._resolve poll s w)))) <->
  (In t (Poll.timers (Poll.host w)) /\
   (Timer.kind t = Timeout ->
    Timer.handle t <> Poll._timeout (Poll.this w))) \/
  t = Timer.mk (Poll.next_handle (Poll.host w))
        (if truthy (State.interval s) then Timeout else AnimationFrame)
        (State.interval s) (Poll.next_promise (Poll.host w)).
Proof.
  destruct (_resolve_frame poll s w) as (_ & _ & -> & _).
  cbn [Poll._schedule Poll.host Poll.timers].
  rewrite in_app_iff, clearTimeout_spec. cbn [In]. intuition congruence.
Qed.

Lemma timers_owned_install (poll : option nat) s w w0 :
  timers_owned w -> prepared w w0 ->
  timers_owned (fst (Poll._resolve poll s w0)).
Proof.
  intros [A B C D' E] P.
  destruct (prepared_frame w w0 P) as (E1 & _ & E3 & E4 & _ & _ & E7 & _).
  assert (Old : forall t,
            In t (Poll.timers (Poll.host (fst (Poll._resolve poll s w0)))) ->
            (In t (Poll.timers (Poll.host w)) /\
             Timer.kind t <> Timeout) \/
            t = Timer.mk (Poll.next_handle (Poll.host w))
                  (if truthy (State.interval s) then Timeout
                   else AnimationFrame)
                  (State.interval s) (Poll.next_promise (Poll.host w))).
  { intros t H. apply _resolve_timers in H. rewrite E1, E3, E4 in H.
    destruct H as [[H1 H2] | H]; [left | right; exact H].
    split; [exact (E7 t H1)|]. intros K.
    exact (H2 K (C t (E7 t H1) K)). }
  destruct (_resolve_frame poll s w0) as (F1 & _ & _ & F4 & _).
  split; unfold Poll.isDisposed, Poll.state; rewrite ?F1, ?F4;
    cbn [Poll._schedule Poll.this Poll.host Poll.next_handle Poll._timeout
         Poll._tick Poll._state]; rewrite ?E3, ?E4.
  - intros t H. destruct (Old t H) as [[H1 _] | ->]; [|cbn; lia].
    specialize (A t H1). lia.
  - intros t1 t2 H1 H2 Eh.
    destruct (Old t1 H1) as [[I1 _] | ->], (Old t2 H2) as [[I2 _] | ->].
    + exact (B t1 t2 I1 I2 Eh).
    + specialize (A t1 I1). cbn in Eh. lia.
    + specialize (A t2 I2). cbn in Eh. lia.
    + reflexivity.
  - intros t H K. destruct (Old t H) as [[_ N] | ->]; [contradiction|].
    reflexivity.
  - intros t H K _. destruct (Old t H) as [[_ N] | ->]; [contradiction|].
    reflexivity.
  - intros t H K. destruct (Old t H) as [[_ N] | ->]; [contradiction|].
    cbn in K |- *. split; [reflexivity|].
    apply truthy_spec. destruct (truthy (State.interval s));
      [reflexivity | discriminate].
Qed.

Lemma timers_owned_reachable w : Poll.reachable w -> timers_owned w.
Proof.
  apply reachable_invariant; clear w.
  - intros o now w. unfold Poll.constructor.
    destruct (js_gt _ _); [discriminate|].
    destruct (_ || _); [discriminate|].
    intros [= <-]. split; cbn; intros; contradiction.
  - intros w w' R H O.
    destruct O as [w0 P | | t D I | D | poll s w0 P O | poll s w0 m P O].
    + destruct H as [A B C D' E].
      destruct (prepared_frame w w0 P) as (E1 & _ & _ & E4 & _ & _ & E7 & _).
      split; unfold Poll.isDisposed, Poll.state; rewrite ?E1, ?E4; auto.
    + unfold Poll.run_job. destruct (Poll.jobs (Poll.host w)); [exact H|].
      destruct H as [A B C D' E]. split; auto.
    + destruct H as [A B C D' E].
      destruct (prepared_frame w _ (prep_timer w (Timer.handle t)))
        as (_ & _ & _ & _ & _ & _ & E7 & _).
      split; cbn [Poll.invoke_factory Poll.host Poll.timers Poll.this
                  Poll.next_handle]; auto.
    + destruct H as [A B C D' E].
      destruct (dispose_live w D) as (E1 & _ & E3 & _).
      destruct (dispose_host w D) as (E4 & _).
      split; unfold Poll.state; rewrite ?E1, ?E3, ?E4; auto.
      intros t _ _ X. rewrite dispose_isDisposed in X. discriminate.
    + exact (timers_owned_install poll s w w0 H P).
    + destruct (timers_owned_install poll s w w0 H P) as [A B C D' E].
      split; auto.
Qed.

(** X15.  One timeout at a time.  On every reachable world at most one
    timeout is armed; it is the one [_timeout] names, it waits for the
    interval of the current state, which is not [0], and while the poll is
    not disposed it is the request of the outstanding tick. *)
Theorem one_timeout_at_a_time w (t1 t2 : Timer.t) :
  Poll.reachable w ->
  In t1 (Poll.timers (Poll.host w)) -> Timer.kind t1 = Timeout ->
  In t2 (Poll.timers (Poll.host w)) -> Timer.kind t2 = Timeout ->
  t1 = t2 /\
  Timer.handle t1 = Poll._timeout (Poll.this w) /\
  Timer.delay t1 = State.interval (Poll.state w) /\
  ~ State.interval (Poll.state w) == 0 /\
  (Poll.isDisposed w = false ->
   Poll._tick (Poll.this w) = Some (Timer.request t1)).
Proof.
  intros R I1 K1 I2 K2.
  destruct (timers_owned_reachable w R) as [A B C D E].
  split.
  { apply (B t1 t2 I1 I2). rewrite (C t1 I1 K1), (C t2 I2 K2). reflexivity. }
  destruct (E t1 I1 K1) as [E1 E2].
  split; [exact (C t1 I1 K1)|]. split; [exact E1|].
  split; [rewrite <- E1; exact E2|].
  exact (D t1 I1 K1).
Qed.

End Timers.

Lemma one_timeout_at_a_time_witness :
  Poll.reachable Scenario.started /\
  In (Timer.mk 1 Timeout 1000 1) (Poll.timers (Poll.host Scenario.started)) /\
  Timer.handle (Timer.mk 1 Timeout 1000 1)
  = Poll._timeout (Poll.this Scenario.started).
Proof.
  assert (I : In (Timer.mk 1 Timeout 1000 1)
                (Poll.timers (Poll.host Scenario.started)))
    by (vm_compute; left; reflexivity).
  split; [exact started_reachable | split; [exact I|]].
  exact (proj1 (proj2 (one_timeout_at_a_time Scenario.started _ _
                         started_reachable I eq_refl I eq_refl))).
Defined.

Section OncePerTick.
Context {T U : Type}.
Implicit Types (w : Poll.World T U) (s : State.t T U) (e : Poll.Event T U).

Lemma called_once_install (poll : option nat) s w w0 w' :
  wf w -> prepared w w0 ->
  invocations w' = invocations w ->
  Poll.timers (Poll.host w')
    = Poll.timers (Poll.host (fst (Poll._resolve poll s w0))) ->
  Poll.next_promise (Poll.host w') = S (Poll.next_promise (Poll.host w)) ->
  called_once w /\
  (forall (q : nat) s', In (q, s') (invocations w) ->
     (q < Poll.next_promise (Poll.host w))%nat) ->
  called_once w' /\
  (forall (q : nat) s', In (q, s') (invocations w') ->
     (q < Poll.next_promise (Poll.host w'))%nat).
Proof.
  intros W P Ei Et En [[A B C] L].
  destruct (prepared_frame w w0 P) as (_ & _ & E3 & _ & _ & _ & E7 & _).
  assert (Old : forall t, In t (Poll.timers (Poll.host w')) ->
            (In t (Poll.timers (Poll.host w)) /\
             (Timer.request t < Poll.next_promise (Poll.host w))%nat) \/
            (Timer.request t = Poll.next_promise (Poll.host w) /\
             forall t', In t' (Poll.timers (Poll.host w')) ->
               Timer.request t' = Poll.next_promise (Poll.host w) ->
               t' = t)).
  { assert (G : forall t, In t (Poll.timers (Poll.host w')) ->
              (In t (Poll.timers (Poll.host w)) /\
               (Timer.request t < Poll.next_promise (Poll.host w))%nat) \/
              t = Timer.mk (Poll.next_handle (Poll.host w0))
                    (if truthy (State.interval s) then Timeout
                     else AnimationFrame)
                    (State.interval s) (Poll.next_promise (Poll.host w))).
    { intros t H. rewrite Et in H. apply _resolve_timers in H.
      rewrite E3 in H. destruct H as [[H _] | H]; [left | right; exact H].
      split; [exact (E7 t H) | exact (wf_timers w W t (E7 t H))]. }
    intros t H. destruct (G t H) as [X | ->]; [left; exact X | right].
    split; [reflexivity|]. intros t' H' E'.
    destruct (G t' H') as [[_ X] | ->]; [lia | reflexivity]. }
  split; [split|].
  - intros t1 t2 H1 H2 E.
    destruct (Old t1 H1) as [[I1 L1] | [R1 U1]],
             (Old t2 H2) as [[I2 L2] | [R2 U2]]; try lia.
    + exact (A t1 t2 I1 I2 E).
    + symmetry. apply (U1 t2 H2). congruence.
  - intros q s' t I H. rewrite Ei in I. specialize (L q s' I).
    destruct (Old t H) as [[I1 _] | [R1 _]]; [exact (B q s' t I I1) | lia].
  - rewrite Ei. exact C.
  - intros q s' I. rewrite Ei in I. specialize (L q s' I). lia.
Qed.

Lemma called_once_reachable w :
  Poll.reachable w ->
  called_once w /\
  (forall (q : nat) s, In (q, s) (invocations w) ->
     (q < Poll.next_promise (Poll.host w))%nat).
Proof.
  revert w.
  apply (reachable_invariant
           (fun w => called_once w /\
                     forall (q : nat) s, In (q, s) (invocations w) ->
                       (q < Poll.next_promise (Poll.host w))%nat)).
  - intros o now w. unfold Poll.constructor.
    destruct (js_gt _ _); [discriminate|].
    destruct (_ || _); [discriminate|].
    intros [= <-]. split; [split|]; cbn; try (intros; contradiction).
    apply NoDup_nil_2.
  - intros w w' R H O. pose proof (wf_reachable w R) as W.
    destruct O as [w0 P | | t D I | D | poll s w0 P O | poll s w0 m P O].
    + destruct H as [[A B C] L].
      destruct (prepared_frame w w0 P) as (_ & _ & E3 & _ & _ & E6 & E7 & _).
      pose proof (invocations_same w w0 E6) as Ei.
      split; [split|].
      * intros t1 t2 H1 H2. apply A; apply E7; assumption.
      * intros q s t I H. rewrite Ei in I. exact (B q s t I (E7 t H)).
      * rewrite Ei. exact C.
      * intros q s I. rewrite Ei in I. rewrite E3. exact (L q s I).
    + unfold Poll.run_job. destruct (Poll.jobs (Poll.host w)); [exact H|].
      destruct H as [[A B C] L]. split; [split|]; auto.
    + destruct H as [[A B C] L].
      assert (Ei : invocations
                     (Poll.invoke_factory (Timer.request t)
                        (Poll.disarm (Timer.handle t) w))
                   = (Timer.request t, Poll.state w) :: invocations w)
        by reflexivity.
      assert (Et : forall t', In t' (Poll.timers
                                       (Poll.host
                                          (Poll.invoke_factory
                                             (Timer.request t)
                                             (Poll.disarm (Timer.handle t) w))))
                   -> In t' (Poll.timers (Poll.host w)) /\
                      Timer.handle t' <> Timer.handle t).
      { cbn. intros t' H. apply List.filter_In in H. destruct H as [H1 H2].
        split; [exact H1|]. apply negb_true_iff, Nat.eqb_neq in H2. exact H2. }
      rewrite Ei. split; [split|].
      * intros t1 t2 H1 H2. apply A; [apply (Et t1 H1) | apply (Et t2 H2)].
      * intros q s t' [[= <- <-] | I'] H'; destruct (Et t' H') as [H1 H2].
        -- intros E. apply H2. f_equal. exact (A t' t H1 I E).
        -- exact (B q s t' I' H1).
      * change (map fst ((Timer.request t, Poll.state w) :: invocations w))
          with (Timer.request t :: map fst (invocations w)).
        apply NoDup_cons. split; [|exact C].
        intros X. apply list_elem_of_In, in_map_iff in X.
        destruct X as ([q s] & E & X).
        cbn in E. subst q. exact (B _ s t X I eq_refl).
      * intros q s [[= <- <-] | I']; [exact (wf_timers w W t I)|].
        exact (L q s I').
    + destruct H as [[A B C] L].
      destruct (dispose_live w D) as (_ & E2 & E3 & _ & Tr).
      assert (Ei : invocations (Poll.dispose w) = invocations w)
        by (apply (invocations_skip _ w _ Tr); discriminate).
      split; [split|].
      * rewrite E3. exact A.
      * intros q s t I H. rewrite Ei in I. rewrite E3 in H.
        exact (B q s t I H).
      * rewrite Ei. exact C.
      * intros q s I. rewrite Ei in I. rewrite E2. exact (L q s I).
    + apply (called_once_install poll s w w0 _ W P); [| reflexivity | | exact H].
      * destruct (prepared_frame w w0 P) as (_ & _ & _ & _ & _ & E6 & _).
        pose proof (_resolve_trace poll s w0) as Tr. rewrite E6 in Tr.
        apply (invocations_skip _ w _ Tr). discriminate.
      * destruct (_resolve_frame poll s w0) as (_ & -> & _). cbn.
        destruct (prepared_frame w w0 P) as (_ & _ & -> & _). reflexivity.
    + apply (called_once_install poll s w w0 _ W P); [| reflexivity | | exact H].
      * destruct (prepared_frame w w0 P) as (_ & _ & _ & _ & _ & E6 & _).
        pose proof (_resolve_trace poll s w0) as Tr. rewrite E6 in Tr.
        unfold invocations. cbn [Poll.observe Poll.host Poll.trace].
        rewrite Tr. reflexivity.
      * cbn [Poll.observe Poll.host Poll.next_promise].
        destruct (_resolve_frame poll s w0) as (_ & -> & _). cbn.
        destruct (prepared_frame w w0 P) as (_ & _ & -> & _). reflexivity.
Qed.

(** X16.  The factory is called at most once for each tick: on every
    reachable world the factory calls made so far are for different
    delegates, and no armed request is for a tick the factory has already
    been called for. *)
Theorem factory_called_once_per_tick w :
  Poll.reachable w ->
  NoDup (map fst (invocations w)) /\
  forall (q : nat) s t, In (q, s) (invocations w) ->
    In t (Poll.timers (Poll.host w)) -> Timer.request t <> q.
Proof.
  intros R. destruct (called_once_reachable w R) as [[A B C] _].
  split; [exact C | exact B].
Qed.

End OncePerTick.

Lemma factory_called_once_per_tick_witness :
  Poll.reachable Scenario.invoked /\
  NoDup (map fst (invocations Scenario.invoked)).
Proof.
  split; [exact invoked_reachable|].
  exact (proj1 (factory_called_once_per_tick Scenario.invoked
                  invoked_reachable)).
Defined.

(** * The extension builder: entry points and build metadata *)

Section ExtensionBuild.
Variable mtime : string -> Z.
Variable join : string -> string -> string.
Variable basename : string -> string.
Variable validate :
  ExtensionConfig.Metadata -> option ExtensionConfig.Metadata.
Variable sharedPackages : ExtensionConfig.Manifest -> Result unit.
Variable ensureAssets : string -> string -> Result unit.

Lemma newer_scan (files : list string) (acc : string * Z) :
  let r := fold_left (ExtensionConfig.newer mtime) files acc in
  (r = acc /\ forall f, In f files -> (mtime f <= snd acc)%Z) \/
  (exists l1 l2,
     files = l1 ++ fst r :: l2 /\
     mtime (fst r) = snd r /\
     (snd acc < snd r)%Z /\
     (forall f, In f l1 -> (mtime f < snd r)%Z) /\
     (forall f, In f l2 -> (mtime f <= snd r)%Z)).
Proof.
  revert acc. induction files as [|f fs IH]; intros acc r.
  - left. split; [reflexivity | intros f []].
  - unfold r. cbn [fold_left].
    assert (Hn : (ExtensionConfig.newer mtime acc f = (f, mtime f) /\
                  (snd acc < mtime f)%Z) \/
                 (ExtensionConfig.newer mtime acc f = acc /\
                  (mtime f <= snd acc)%Z)).
    { unfold ExtensionConfig.newer.
      destruct (Z.gtb_spec (mtime f) (snd acc)); [left | right];
        split; auto; lia. }
    specialize (IH (ExtensionConfig.newer mtime acc f)). cbn zeta in IH.
    set (r' := fold_left (ExtensionConfig.newer mtime) fs
                 (ExtensionConfig.newer mtime acc f)) in *.
    destruct Hn as [[Hn G] | [Hn G]]; rewrite Hn in IH.
    + destruct IH as [[E L] | (l1 & l2 & E & M & S & L1 & L2)].
      * right. exists [], fs. rewrite E. cbn [fst snd app] in *.
        split; [reflexivity|]. split; [reflexivity|]. split; [exact G|].
        split; [intros x [] | exact L].
      * right. exists (f :: l1), l2. cbn [snd] in S.
        split; [cbn [app]; congruence|].
        split; [exact M|]. split; [lia|].
        split; [|exact L2].
        intros x [<- | H]; [lia | exact (L1 x H)].
    + destruct IH as [[E L] | (l1 & l2 & E & M & S & L1 & L2)].
      * left. split; [exact E|].
        intros x [<- | H]; [lia | exact (L x H)].
      * right. exists (f :: l1), l2.
        split; [cbn [app]; congruence|].
        split; [exact M|]. split; [exact S|].
        split; [|exact L2].
        intros x [<- | H]; [lia | exact (L1 x H)].
Qed.

(** X17.  The remote entry recorded in the build metadata is the newest
    one: either no file listed has a modification time above [-1] (none is
    listed, for instance) and [load] is the base name of the empty path, or
    [load] is the base name of a listed file whose time is above [-1], above
    the time of every file listed before it and not below the time of any
    file listed after it -- the first of the newest. *)
Theorem load_names_newest_remote (table : gmap string string)
    (files : list string) :
  let remote := fst (ExtensionConfig.newestRemote mtime files) in
  ExtensionConfig.load (ExtensionConfig._build mtime basename table files)
    = basename remote /\
  ((remote = ""%string /\ forall f, In f files -> (mtime f <= -1)%Z) \/
   (exists l1 l2,
      files = l1 ++ remote :: l2 /\
      (-1 < mtime remote)%Z /\
      (forall f, In f l1 -> (mtime f < mtime remote)%Z) /\
      (forall f, In f l2 -> (mtime f <= mtime remote)%Z))).
Proof.
  intros remote. split; [reflexivity|].
  unfold remote, ExtensionConfig.newestRemote.
  destruct (newer_scan files (""%string, (-1)%Z))
    as [[E L] | (l1 & l2 & E & M & S & L1 & L2)].
  - left. rewrite E. split; [reflexivity | exact L].
  - right. exists l1, l2. rewrite M. cbn [snd] in S. auto.
Qed.

Lemma expose_lookup (key key' packagePath index : string)
    (e : ExtensionConfig.Entry) (table : gmap string string) :
  key' <> key ->
  ExtensionConfig.expose join key packagePath index e table !! key'
  = table !! key'.
Proof.
  intros N. unfold ExtensionConfig.expose.
  destruct e as [|[|]|p]; try reflexivity;
    apply lookup_insert_ne; congruence.
Qed.

Lemma expose_own (key packagePath index : string)
    (e : ExtensionConfig.Entry) (table : gmap string string) :
  table !! key = None ->
  ExtensionConfig.expose join key packagePath index e table !! key
  = match e with
    | ExtensionConfig.flag true => Some index
    | ExtensionConfig.file p => Some (join packagePath p)
    | _ => None
    end.
Proof.
  intros N. unfold ExtensionConfig.expose.
  destruct e as [|[|]|p]; try exact N; apply lookup_insert_eq.
Qed.

(** What the [exposes] table holds, and what a [_build] object made from
    it names. *)
Lemma exposes_entries (packagePath index : string)
    (meta : ExtensionConfig.Metadata) (sty : option string)
    (files : list string) :
  let table := ExtensionConfig.exposes join packagePath index meta sty in
  let b := ExtensionConfig._build mtime basename table files in
  table !! "./index"%string = Some index /\
  table !! "./extension"%string
    = match ExtensionConfig.extension meta with
      | ExtensionConfig.flag true => Some index
      | ExtensionConfig.file p => Some (join packagePath p)
      | _ => None
      end /\
  table !! "./mimeExtension"%string
    = match ExtensionConfig.mimeExtension meta with
      | ExtensionConfig.flag true => Some index
      | ExtensionConfig.file p => Some (join packagePath p)
      | _ => None
      end /\
  (ExtensionConfig.build_extension b = Some "./extension"%string <->
   ExtensionConfig.extension meta = ExtensionConfig.flag true \/
   exists p, ExtensionConfig.extension meta = ExtensionConfig.file p) /\
  (ExtensionConfig.build_mimeExtension b = Some "./mimeExtension"%string <->
   ExtensionConfig.mimeExtension meta = ExtensionConfig.flag true \/
   exists p, ExtensionConfig.mimeExtension meta = ExtensionConfig.file p) /\
  (ExtensionConfig.build_style b = Some "./style"%string <->
   exists s, sty = Some s /\ s <> ""%string).
Proof.
  intros table b.
  assert (L : forall key : string,
            table !! key
            = if decide (key = "./style"%string) then
                match sty with
                | Some s => if String.eqb s "" then None
                            else Some (join packagePath s)
                | None => None
                end
              else if decide (key = "./mimeExtension"%string) then
                match ExtensionConfig.mimeExtension meta with
                | ExtensionConfig.flag true => Some index
                | ExtensionConfig.file p => Some (join packagePath p)
                | _ => None
                end
              else if decide (key = "./extension"%string) then
                match ExtensionConfig.extension meta with
                | ExtensionConfig.flag true => Some index
                | ExtensionConfig.file p => Some (join packagePath p)
                | _ => None
                end
              else if decide (key = "./index"%string) then Some index
              else None).
  { intros key. unfold table, ExtensionConfig.exposes.
    set (e0 := {[ "./index"%string := index ]} : gmap string string).
    set (e1 := ExtensionConfig.expose join "./extension" packagePath index
                 (ExtensionConfig.extension meta) e0).
    set (e2 := ExtensionConfig.expose join "./mimeExtension" packagePath index
                 (ExtensionConfig.mimeExtension meta) e1).
    assert (L2 : e2 !! key
                 = if decide (key = "./mimeExtension"%string) then
                     match ExtensionConfig.mimeExtension meta with
                     | ExtensionConfig.flag true => Some index
                     | ExtensionConfig.file p => Some (join packagePath p)
                     | _ => None
                     end
                   else if decide (key = "./extension"%string) then
                     match ExtensionConfig.extension meta with
                     | ExtensionConfig.flag true => Some index
                     | ExtensionConfig.file p => Some (join packagePath p)
                     | _ => None
                     end
                   else if decide (key = "./index"%string) then Some index
                   else None).
    { destruct (decide (key = "./mimeExtension"%string)) as [-> | N2].
      - unfold e2. apply expose_own. unfold e1.
        rewrite expose_lookup by discriminate. reflexivity.
      - unfold e2. rewrite expose_lookup by exact N2.
        destruct (decide (key = "./extension"%string)) as [-> | N1].
        + unfold e1. apply expose_own. reflexivity.
        + unfold e1. rewrite expose_lookup by exact N1.
          unfold e0. destruct (decide (key = "./index"%string)) as [-> | N0].
          * apply lookup_singleton_eq.
          * apply lookup_singleton_ne. congruence. }
    destruct (decide (key = "./style"%string)) as [-> | N3].
    - destruct (sty) as [s|]; [|exact L2].
      destruct (String.eqb s ""); [exact L2 | apply lookup_insert_eq].
    - destruct (sty) as [s|]; [|exact L2].
      destruct (String.eqb s ""); [exact L2|].
      rewrite lookup_insert_ne by congruence. exact L2. }
  split; [rewrite L; reflexivity|].
  split; [rewrite L; reflexivity|].
  split; [rewrite L; reflexivity|].
  unfold b, ExtensionConfig._build.
  cbn [ExtensionConfig.build_extension ExtensionConfig.build_mimeExtension
       ExtensionConfig.build_style].
  rewrite !L. cbn.
  split; [|split].
  - destruct (ExtensionConfig.extension meta) as [|[|]|p]; split;
      try reflexivity; try discriminate; eauto;
      intros [[=] | [p' [=]]].
  - destruct (ExtensionConfig.mimeExtension meta) as [|[|]|p]; split;
      try reflexivity; try discriminate; eauto;
      intros [[=] | [p' [=]]].
  - destruct (sty) as [s|].
    + destruct (String.eqb s "") eqn:E.
      * apply String.eqb_eq in E. split; [discriminate|].
        intros (s' & [= <-] & N). contradiction.
      * apply String.eqb_neq in E. split; [eauto | reflexivity].
    + split; [discriminate | intros (s' & [=] & _)].
Qed.


(** X18.  The build metadata advertises exactly the entry points declared.
    Whenever [generateConfig] returns -- the metadata was valid, and neither
    the shared-package table nor [Build.ensureAssets] threw -- the [_build]
    object its [done] hook writes names the newest remote entry and, with
    [meta] the validated metadata: [_build.extension] is ['./extension']
    exactly when [meta.extension] is [true] or a string, and the module
    exposed is then the package index for [true] and the joined path for a
    string; likewise for [mimeExtension]; [_build.style] is ['./style']
    exactly when [style] is a non-empty string.  No [_build] is written
    when the call exits or throws. *)
Theorem build_advertises_declared_entries (packagePath index : string)
    (data : ExtensionConfig.Manifest)
    (hook : list string -> ExtensionConfig.Build) (files : list string) :
  ExtensionConfig.generateConfig mtime join basename validate sharedPackages
    ensureAssets packagePath index data = ExtensionConfig.Returned hook ->
  exists meta0 meta dir,
    ExtensionConfig.jupyterlab data = Some meta0 /\
    validate meta0 = Some meta /\
    ExtensionConfig.outputDir meta = Some dir /\
    sharedPackages data = Ok tt /\
    ensureAssets packagePath (join packagePath dir) = Ok tt /\
    let table :=
      ExtensionConfig.exposes join packagePath index meta
        (ExtensionConfig.style data) in
    let b := hook files in
    ExtensionConfig.load b
      = basename (fst (ExtensionConfig.newestRemote mtime files)) /\
    table !! "./index"%string = Some index /\
    table !! "./extension"%string
      = match ExtensionConfig.extension meta with
        | ExtensionConfig.flag true => Some index
        | ExtensionConfig.file p => Some (join packagePath p)
        | _ => None
        end /\
    table !! "./mimeExtension"%string
      = match ExtensionConfig.mimeExtension meta with
        | ExtensionConfig.flag true => Some index
        | ExtensionConfig.file p => Some (join packagePath p)
        | _ => None
        end /\
    (ExtensionConfig.build_extension b = Some "./extension"%string <->
     ExtensionConfig.extension meta = ExtensionConfig.flag true \/
     exists p, ExtensionConfig.extension meta = ExtensionConfig.file p) /\
    (ExtensionConfig.build_mimeExtension b = Some "./mimeExtension"%string <->
     ExtensionConfig.mimeExtension meta = ExtensionConfig.flag true \/
     exists p, ExtensionConfig.mimeExtension meta = ExtensionConfig.file p) /\
    (ExtensionConfig.build_style b = Some "./style"%string <->
     exists s, ExtensionConfig.style data = Some s /\ s <> ""%string).
Proof.
  unfold ExtensionConfig.generateConfig.
  destruct (ExtensionConfig.jupyterlab data) as [meta0|] eqn:J;
    cbn [default from_option id].
  - destruct (validate meta0) as [meta|] eqn:V; [|discriminate].
    destruct (ExtensionConfig.outputDir meta) as [dir|] eqn:O;
      [|discriminate].
    destruct (sharedPackages data) as [[]|m] eqn:S; [|discriminate].
    destruct (ensureAssets packagePath (join packagePath dir)) as [[]|m]
      eqn:A; [|discriminate].
    intros [= <-]. exists meta0, meta, dir.
    do 5 (split; [reflexivity || assumption|]).
    split; [reflexivity|].
    exact (exposes_entries packagePath index meta
             (ExtensionConfig.style data) files).
  - destruct (validate ExtensionConfig.empty); discriminate.
Qed.

(** Invalid metadata ends the process with code [1], whatever else the
    manifest holds. *)
Lemma invalid_metadata_exits (packagePath index : string)
    (data : ExtensionConfig.Manifest) :
  validate (default ExtensionConfig.empty (ExtensionConfig.jupyterlab data))
    = None ->
  ExtensionConfig.generateConfig mtime join basename validate sharedPackages
    ensureAssets packagePath index data = ExtensionConfig.Exited 1.
Proof.
  intros V. unfold ExtensionConfig.generateConfig. rewrite V. reflexivity.
Qed.

(** A failure of [Build.ensureAssets] is thrown on: no configuration is
    returned. *)
Lemma ensureAssets_failure_throws (packagePath index : string)
    (data : ExtensionConfig.Manifest) (m : string) :
  (forall output, ensureAssets packagePath output = Throw m) ->
  forall hook,
    ExtensionConfig.generateConfig mtime join basename validate
      sharedPackages ensureAssets packagePath index data
    <> ExtensionConfig.Returned hook.
Proof.
  intros E hook. unfold ExtensionConfig.generateConfig.
  destruct (validate _) as [meta|]; [|discriminate].
  destruct (ExtensionConfig.jupyterlab data); [|discriminate].
  destruct (ExtensionConfig.outputDir meta) as [dir|]; [|discriminate].
  destruct (sharedPackages data); [|discriminate].
  rewrite E. discriminate.
Qed.

End ExtensionBuild.

Lemma build_advertises_declared_entries_witness :
  let join := fun a b : string => (a ++ "/" ++ b)%string in
  let meta :=
    ExtensionConfig.mkMetadata (ExtensionConfig.flag true)
      ExtensionConfig.missing (Some "static"%string) in
  let data :=
    ExtensionConfig.mkManifest (Some meta) (Some "style/index.css"%string) in
  let generated :=
    ExtensionConfig.generateConfig (fun _ => 0%Z) join (fun f => f) Some
      (fun _ => Ok tt) (fun _ _ => Ok tt) "pkg" "pkg/lib/index.js" data in
  exists hook,
    generated = ExtensionConfig.Returned hook /\
    ExtensionConfig.build_extension (hook ["remoteEntry.1.js"%string])
      = Some "./extension"%string /\
    ExtensionConfig.build_style (hook ["remoteEntry.1.js"%string])
      = Some "./style"%string.
Proof.
  intros join meta data generated.
  exists (ExtensionConfig._build (fun _ => 0%Z) (fun f => f)
            (ExtensionConfig.exposes join "pkg" "pkg/lib/index.js" meta
               (Some "style/index.css"%string))).
  assert (G : generated
              = ExtensionConfig.Returned
                  (ExtensionConfig._build (fun _ => 0%Z) (fun f => f)
                     (ExtensionConfig.exposes join "pkg" "pkg/lib/index.js"
                        meta (Some "style/index.css"%string))))
    by reflexivity.
  split; [exact G|].
  destruct (build_advertises_declared_entries (fun _ => 0%Z) join
              (fun f => f) Some (fun _ => Ok tt) (fun _ _ => Ok tt)
              "pkg" "pkg/lib/index.js" data _ ["remoteEntry.1.js"%string] G)
    as (m0 & m & dir & J & V & _ & _ & _ & _ & _ & _ & _ & He & _ & Hs).
  assert (E : m = meta) by (cbn in J, V; congruence).
  split.
  - apply He. left. rewrite E. reflexivity.
  - apply Hs. exists "style/index.css"%string.
    split; [reflexivity | discriminate].
Defined.

(** * A live poll is never idle *)

Section Progress.
Context {T U : Type}.
Implicit Types (w : Poll.World T U) (s : State.t T U) (e : Poll.Event T U).





End Progress.

